(** * Grid-indexed climate ingestion and aggregation pipeline

    A shallow embedding of the Python scripts
      - [scripts/compute_et0.py]      (ET0 engine),
      - [scripts/fetch_nasa_power.py] (weather fetcher),
      - [scripts/ingest_climate.py]   (ingestion pipeline),
      - [scripts/aggregate_7days.py]  (rolling aggregator),
      - [scripts/02_create_grid.py]   (grid of cells),
      - [scripts/make_map.py]         (colour scale of the map),
    together with the properties their specification states and
    further properties of the code.

    Conventions of the embedding.
      - A Python [float] is an exact rational ([Q]): rounding error,
        infinities and NaN are outside the model, and so is what the
        code does once a sum, a product or a quotient has left the
        range of a float.  The [OverflowError] of [math.exp] and of
        [**] is in the model.
        Comparisons of floats are comparisons of rationals ([Qeq],
        [Qlt]).
      - [None] is [None] of an [option].
      - A Python call either returns a value or raises: [result].
      - Calendar dates ([datetime.date], the DATE columns and the date
        keys of the exchange format) are day ordinals in [Z].
      - A table with a UNIQUE index is the list of its rows in insertion
        order; the conflict clauses of the INSERT statements are written
        out on that list. *)

From Stdlib Require Import ZArith QArith Qround Qabs List String Bool Lia.
From Stdlib Require Import Permutation Lqa.
Import ListNotations.

Set Implicit Arguments.

Open Scope Q_scope.

(** ** Python values that raise *)

Module Py.

Inductive exn : Type :=
| ZeroDivisionError
| OverflowError
| TypeError
| KeyError
| AttributeError
| JSONDecodeError
| IntegrityError
| SystemExit.

Inductive result (A : Type) : Type :=
| Ok (a : A)
| Raise (e : exn).

Arguments Ok {A} a.
Arguments Raise {A} e.

Definition bind {A B : Type} (c : result A) (k : A -> result B) : result B :=
  match c with
  | Ok a => k a
  | Raise e => Raise e
  end.

(** [try: body / except Exception: handler] *)
Definition try_except {A : Type} (body : result A) (handler : exn -> result A)
  : result A :=
  match body with
  | Ok a => Ok a
  | Raise e => handler e
  end.

(** An arithmetic operand: [None] in an arithmetic expression is a
    [TypeError]. *)
Definition as_num (x : option Q) : result Q :=
  match x with
  | Some q => Ok q
  | None => Raise TypeError
  end.

(** Float division [a / b]: [ZeroDivisionError] when [b == 0]. *)
Definition pydiv (a b : Q) : result Q :=
  if Qeq_bool b 0 then Raise ZeroDivisionError else Ok (a / b).

(** [a < b] on floats. *)
Definition Qltb (a b : Q) : bool := negb (Qle_bool b a).

(** [max(x, 0)]: the first argument unless the second is greater. *)
Definition pymax (x y : Q) : Q := if Qltb x y then y else x.

(** Rounding to the nearest integer, ties to the even one. *)
Definition round_half_even (q : Q) : Z :=
  let f := Qfloor q in
  match ((q - inject_Z f) ?= (1 # 2))%Q with
  | Lt => f
  | Gt => (f + 1)%Z
  | Eq => if Z.even f then f else (f + 1)%Z
  end.

(** [round(x, 2)] *)
Definition round2 (q : Q) : Q := inject_Z (round_half_even (q * 100)) / 100.

End Py.

Import Py.

Declare Scope py_scope.
Delimit Scope py_scope with py.
Notation "x <- c ;; k" := (bind c (fun x => k))
  (at level 61, c at next level, right associativity) : py_scope.
Open Scope py_scope.

(** ** scripts/compute_et0.py *)

Module Et0.

(** A Python number that came out of [**]: a float, or a complex when
    the base is negative and the exponent fractional. *)
Inductive pynum : Type :=
| PyFloat (q : Q)
| PyComplex.

Definition ALTITUDE_DEFAULT : Q := 143.

(** The greatest float. *)
Definition FLOAT_MAX : Q := inject_Z (2 ^ 1024 - 2 ^ 971).

(** The greatest float on which [math.exp] returns: on a greater one
    the result is out of the range of a float and the call raises
    [OverflowError]. *)
Definition EXP_MAX : Q := 709.782712893384.

(** The greatest float whose power 5.26 is in the range of a float. *)
Definition BASE_MAX : Q := 40138218356140445 * 10 ^ 42.

(** [x ** 2]: [OverflowError] when the square is out of the range of a
    float. *)
Definition pow2 (x : Q) : result Q :=
  if Qltb FLOAT_MAX (x ^ 2) then Raise OverflowError else Ok (x ^ 2).

Section Engine.

(** The two library functions of the formula. *)
Variable exp : Q -> Q.          (* the exponential, where math.exp returns *)
Variable fpow : Q -> Q -> Q.    (* base ** exponent, base >= 0 *)

(** [math.exp(x)] *)
Definition math_exp (x : Q) : result Q :=
  if Qltb EXP_MAX x then Raise OverflowError else Ok (exp x).

Definition saturation_vapor_pressure (T : option Q) : result (option Q) :=
  match T with
  | None => Ok None
  | Some t =>
      q <- pydiv (17.27 * t) (t + 237.3) ;;
      e <- math_exp q ;;
      Ok (Some (0.6108 * e))
  end.

Definition delta_svp (T : option Q) : result (option Q) :=
  match T with
  | None => Ok None
  | Some t =>
      es <- saturation_vapor_pressure (Some t) ;;
      es <- as_num es ;;
      square <- pow2 (t + 237.3) ;;
      d <- pydiv (4098 * es) square ;;
      Ok (Some d)
  end.

(** [base ** 5.26] raises [OverflowError] when the power, real or
    complex, is out of range. *)
Definition psychrometric_constant (alt : Q) : result pynum :=
  let base := (293 - 0.0065 * alt) / 293 in
  if Qltb BASE_MAX (Qabs base) then Raise OverflowError
  else if Qltb base 0 then Ok PyComplex
  else Ok (PyFloat (0.000665 * (101.3 * fpow base 5.26))).

(** The body of the [try] of [compute_et0].  With a complex [gamma]
    the quotient is complex and [max(et0, 0)] raises [TypeError]
    (or the complex division raised first); the handler does not
    tell the two apart. *)
Definition penman_monteith (tmean es ea wind Rn : Q) (delta : option Q)
           (gamma : pynum) : result (option Q) :=
  let G := 0 in
  delta <- as_num delta ;;
  let numerator1 := 0.408 * delta * (Rn - G) in
  k <- pydiv 900 (tmean + 273) ;;
  match gamma with
  | PyComplex => Raise TypeError
  | PyFloat gamma =>
      let numerator2 := gamma * k * wind * (es - ea) in
      let denominator := delta + gamma * (1 + 0.34 * wind) in
      et0 <- pydiv (numerator1 + numerator2) denominator ;;
      Ok (Some (round2 (pymax et0 0)))
  end.

Definition compute_et0 (tmin tmax solar_rad rh wind : option Q) (altitude : Q)
  : result (option Q) :=
  match tmin, tmax, solar_rad, rh, wind with
  | Some tmin, Some tmax, Some solar_rad, Some rh, Some wind =>
      if Qltb solar_rad 0 then Ok None
      else
        let tmean := (tmin + tmax) / 2 in
        es <- saturation_vapor_pressure (Some tmean) ;;
        es <- as_num es ;;
        let ea := es * (rh / 100) in
        delta <- delta_svp (Some tmean) ;;
        gamma <- psychrometric_constant altitude ;;
        let Rn := solar_rad in
        try_except (penman_monteith tmean es ea wind Rn delta gamma)
                   (fun _ => Ok None)
  | _, _, _, _, _ => Ok None
  end.

End Engine.

(** Rational stand-ins for [math.exp] and [**], used only to run the
    engine on concrete inputs; every theorem below holds for all
    instances. *)
Fixpoint exp_series (n : nat) (x term acc : Q) (k : Z) : Q :=
  match n with
  | O => acc
  | S n' => exp_series n' x (Qred (term * x / inject_Z k)) (Qred (acc + term)) (k + 1)
  end.

Definition exp_approx (x : Q) : Q := exp_series 12 x 1 0 1.

Definition pow_approx (b e : Q) : Q := b ^ (Qfloor e).

End Et0.


(** ** The intermediate exchange format

    The document written by the fetcher and read by the ingestion: one
    entry per cell, each with its date series.  Fields read with
    [dict.get] are optional. *)

Module Exchange.

Record day : Type := {
  date : Z;
  tmin : option Q;
  tmax : option Q;
  radiation : option Q;
  rain : option Q;
  rh : option Q;
  wind : option Q
}.

(** A boundary ring: a list of coordinate pairs. *)
Definition ring : Type := list (Q * Q).

Record entry : Type := {
  point_name : string;
  geohash : option string;
  latitude : option Q;
  longitude : option Q;
  bbox : option (list ring);
  weather_data : list day
}.

End Exchange.

(** ** scripts/fetch_nasa_power.py *)

Module Fetch.

Import Exchange.

(** One parameter of the payload: date key to value ([null] allowed). *)
Definition series : Type := list (Z * option Q).

(** A member of [properties.parameter]: an object of date keys and
    values, or JSON of another kind (null, a number, a string, a list),
    which has neither [.keys] nor [.get]. *)
Inductive member : Type :=
| Series (s : series)
| NotSeries.

(** [properties.parameter] of the payload: parameter name to member. *)
Definition parameters : Type := list (string * member).

(** A "parameter" member that is not an object, by what the tests of
    [fetch_data] make of it. *)
Inductive non_object : Type :=
| Falsy         (* null, false, 0, an empty string or list: [not data] *)
| Lacking       (* a non-empty list or string without "T2M_MIN" *)
| Holding       (* a non-empty list or string with "T2M_MIN": the
                   subscript data["T2M_MIN"] raises TypeError *)
| NotIterable.  (* true, or a number other than 0: [in] raises TypeError *)

(** What one request to the remote source comes to. *)
Inductive response : Type :=
| RequestFault                 (* requests.get / raise_for_status raised
                                  RequestException: network fault, timeout,
                                  non-success status *)
| NotJson                      (* success status, the body is not JSON *)
| NotObject                    (* the body is JSON, and the body or its
                                  "properties" member is not an object:
                                  [.get] raises AttributeError *)
| NotParameters (v : non_object)
                               (* the "parameter" member is not an object *)
| Payload (data : parameters). (* response.json().get("properties", {})
                                                 .get("parameter", {}),
                                  an object *)

Fixpoint dict_get {V : Type} (k : string) (d : list (string * V)) : option V :=
  match d with
  | [] => None
  | (k', v) :: d' => if String.eqb k k' then Some v else dict_get k d'
  end.

Fixpoint series_get (k : Z) (s : series) : option Q :=
  match s with
  | [] => None
  | (k', v) :: s' => if Z.eqb k k' then v else series_get k s'
  end.

(** [d[k]] *)
Definition getitem {V : Type} (k : string) (d : list (string * V)) : result V :=
  match dict_get k d with
  | Some v => Ok v
  | None => Raise KeyError
  end.

(** The source's no-data value. *)
Definition NO_DATA : Q := -999.0.

(** [None if s.get(date_key) == -999.0 else s.get(date_key)] *)
Definition field (s : series) (date_key : Z) : option Q :=
  match series_get date_key s with
  | Some v => if Qeq_bool v NO_DATA then None else Some v
  | None => None
  end.

(** [data[name].get(date_key)], with the no-data value replaced. *)
Definition value (data : parameters) (name : string) (date_key : Z)
  : result (option Q) :=
  m <- getitem name data ;;
  match m with
  | Series s => Ok (field s date_key)
  | NotSeries => Raise AttributeError
  end.

(** [data["T2M_MIN"].keys()] *)
Definition keys (m : member) : result (list Z) :=
  match m with
  | Series s => Ok (map fst s)
  | NotSeries => Raise AttributeError
  end.

Definition record_of (data : parameters) (date_key : Z) : result day :=
  tmin <- value data "T2M_MIN" date_key ;;
  tmax <- value data "T2M_MAX" date_key ;;
  radiation <- value data "ALLSKY_SFC_SW_DWN" date_key ;;
  rain <- value data "PRECTOTCORR" date_key ;;
  rh <- value data "RH2M" date_key ;;
  wind <- value data "WS2M" date_key ;;
  Ok {| date := date_key; tmin := tmin; tmax := tmax; radiation := radiation;
        rain := rain; rh := rh; wind := wind |}.

Fixpoint records_of (data : parameters) (keys : list Z) : result (list day) :=
  match keys with
  | [] => Ok []
  | k :: keys' =>
      r <- record_of data k ;;
      rs <- records_of data keys' ;;
      Ok (r :: rs)
  end.

Record grid_point : Type := {
  name : string;
  coordinates : Q * Q;
  gp_geohash : option string;
  gp_bbox : option (list ring)
}.

(** [f"{x:.1f}"]: formatting [None] with a float format raises. *)
Definition format_1f (x : option Q) : result unit :=
  match x with
  | Some _ => Ok tt
  | None => Raise TypeError
  end.

Record output : Type := {
  total_grid_points : nat;
  successful_fetches : nat;
  failed_fetches : nat;
  results : list entry
}.

Section Remote.

(** The remote source at the time of the run: what the request for a
    coordinate and a number of days comes to. *)
Variable request : Q -> Q -> nat -> response.

Definition fetch_data (lat lon : Q) (days : nat) : result (list day) :=
  match request lat lon days with
  | RequestFault => Ok []
  | NotJson => Raise JSONDecodeError
  | NotObject => Raise AttributeError
  | NotParameters Falsy => Ok []
  | NotParameters Lacking => Ok []
  | NotParameters Holding => Raise TypeError
  | NotParameters NotIterable => Raise TypeError
  | Payload data =>
      match data, dict_get "T2M_MIN" data with
      | [], _ => Ok []
      | _, None => Ok []
      | _, Some t2m_min =>
          date_keys <- keys t2m_min ;;
          records_of data date_keys
      end
  end.

(** The loop of the main block.  (The pool filled before it calls
    [fetch_data] with one argument; those calls fail inside their
    futures, whose results are never read.) *)
Fixpoint fetch_all (grid_points : list grid_point)
         (all_results : list entry) (successful : nat)
  : result (list entry * nat) :=
  match grid_points with
  | [] => Ok (all_results, successful)
  | point :: rest =>
      let '(lat, lon) := coordinates point in
      daily_data <- fetch_data lat lon 7%nat ;;
      match daily_data with
      | [] => fetch_all rest all_results successful
      | sample :: _ =>
          let result_entry :=
            {| point_name := name point;
               geohash := gp_geohash point;
               latitude := Some lat;
               longitude := Some lon;
               bbox := gp_bbox point;
               weather_data := daily_data |} in
          _ <- format_1f (tmin sample) ;;
          _ <- format_1f (tmax sample) ;;
          fetch_all rest (all_results ++ [result_entry]) (S successful)
      end
  end.

(** The main block on the grid points loaded: the document saved at
    the end of the run.  Without grid points the block leaves through
    [exit(1)] and saves nothing. *)
Definition main (grid_points : list grid_point) : result output :=
  match grid_points with
  | [] => Raise SystemExit
  | _ :: _ =>
      r <- fetch_all grid_points [] 0%nat ;;
      let '(all_results, successful) := r in
      Ok {| total_grid_points := List.length grid_points;
            successful_fetches := successful;
            failed_fetches := List.length grid_points - successful;
            results := all_results |}
  end.

End Remote.

End Fetch.

(** ** The persistent store

    The scripts write to three tables and do not contain their
    declarations. *)

Module Store.

(** Modelled from the spec: the default of a time-stamp column, which
    the table declarations (not in the scripts) give to a row when the
    INSERT does not name the column. *)
Inductive stamp : Type :=
| ColumnDefault          (* set by the table's declaration on insert *)
| At (now : Z).          (* set to NOW() by an UPDATE clause *)

(** Modelled from the spec: the declaration of grid_100m (grid_cell of
    the spec's external interfaces), UNIQUE (geohash); identifier,
    latitude and longitude are not nullable, the geometry is. *)
Record grid_row : Type := {
  g_geohash : string;
  g_lat : Q;
  g_lon : Q;
  g_geom : option Exchange.ring;
  g_created_at : stamp
}.

(** Modelled from the spec: the declaration of climate_daily
    (daily_record of the spec's external interfaces), UNIQUE (geohash,
    date); identifier and date are not nullable, the measurements and
    the ET0 are. *)
Record daily_row : Type := {
  d_geohash : string;
  d_date : Z;
  d_tmin : option Q;
  d_tmax : option Q;
  d_radiation : option Q;
  d_rain : option Q;
  d_rh : option Q;
  d_wind : option Q;
  d_et0 : option Q
}.

(** Modelled from the spec: the declaration of climate_7days
    (weekly_aggregate of the spec's external interfaces), UNIQUE
    (geohash, end_date); identifier and window dates are not nullable,
    the aggregates are. *)
Record weekly_row : Type := {
  w_geohash : string;
  w_start_date : Z;
  w_end_date : Z;
  w_avg_tmin : option Q;
  w_avg_tmax : option Q;
  w_avg_radiation : option Q;
  w_total_rain : option Q;
  w_avg_rh : option Q;
  w_avg_wind : option Q;
  w_avg_et0 : option Q;
  w_updated_at : stamp
}.

Definition key_eqb (k1 k2 : string * Z) : bool :=
  String.eqb (fst k1) (fst k2) && Z.eqb (snd k1) (snd k2).

Definition daily_key (r : daily_row) : string * Z := (d_geohash r, d_date r).

Definition weekly_key (r : weekly_row) : string * Z := (w_geohash r, w_end_date r).

End Store.

(** ** scripts/ingest_climate.py *)

Module Ingest.

Import Exchange Store.

(** *** ingest_grid_points *)

(** Truth value of a string-or-None and of a float-or-None. *)
Definition truthy_str (s : option string) : bool :=
  match s with
  | Some s => negb (String.eqb s "")
  | None => false
  end.

Definition truthy_num (x : option Q) : bool :=
  match x with
  | Some q => negb (Qeq_bool q 0)
  | None => false
  end.

Definition coord_eqb (a b : Q * Q) : bool :=
  Qeq_bool (fst a) (fst b) && Qeq_bool (snd a) (snd b).

(** [if coords[0] != coords[-1]: coords.append(coords[0])] *)
Definition close_ring (coords : ring) : ring :=
  match coords with
  | [] => coords
  | first :: _ =>
      if coord_eqb first (last coords first) then coords else coords ++ [first]
  end.

(** The polygon of a row: the closed first ring of the bbox, when the
    bbox has one with four points or more.  (The source renders it as
    POLYGON text.) *)
Definition polygon_of (bbox : option (list ring)) : option ring :=
  match bbox with
  | Some (coords :: _) =>
      if (4 <=? List.length coords)%nat then Some (close_ring coords) else None
  | _ => None
  end.

Record grid_tuple : Type := {
  gt_geohash : string;
  gt_lat : Q;
  gt_lon : Q;
  gt_geom : option ring
}.

Definition dict_mem {V : Type} (k : string) (d : list (string * V)) : bool :=
  existsb (fun kv => String.eqb k (fst kv)) d.

(** One turn of the loop filling [unique_grid]. *)
Definition grid_step (unique_grid : list (string * grid_tuple)) (result : entry)
  : list (string * grid_tuple) :=
  if truthy_str (geohash result) && truthy_num (latitude result)
     && truthy_num (longitude result)
  then
    match geohash result, latitude result, longitude result with
    | Some g, Some lat, Some lon =>
        if dict_mem g unique_grid then unique_grid
        else unique_grid ++ [(g, {| gt_geohash := g; gt_lat := lat; gt_lon := lon;
                                    gt_geom := polygon_of (bbox result) |})]
    | _, _, _ => unique_grid
    end
  else unique_grid.

Definition grid_data (results : list entry) : list grid_tuple :=
  map snd (fold_left grid_step results []).

(** INSERT INTO grid_100m ... ON CONFLICT (geohash) DO UPDATE SET lat,
    lon, geom, created_at = NOW(), for one row. *)
Definition upsert_grid (now : Z) (tbl : list grid_row) (t : grid_tuple)
  : list grid_row :=
  if existsb (fun r => String.eqb (g_geohash r) (gt_geohash t)) tbl
  then map (fun r =>
              if String.eqb (g_geohash r) (gt_geohash t)
              then {| g_geohash := g_geohash r; g_lat := gt_lat t; g_lon := gt_lon t;
                      g_geom := gt_geom t; g_created_at := At now |}
              else r) tbl
  else tbl ++ [{| g_geohash := gt_geohash t; g_lat := gt_lat t; g_lon := gt_lon t;
                  g_geom := gt_geom t; g_created_at := ColumnDefault |}].

Definition ingest_grid_points (now : Z) (conn : list grid_row) (results : list entry)
  : list grid_row * nat :=
  let grid_data := grid_data results in
  (fold_left (upsert_grid now) grid_data conn, List.length grid_data).

(** *** ingest_climate_daily *)

Record daily_tuple : Type := {
  t_geohash : option string;
  t_date : Z;
  t_tmin : option Q;
  t_tmax : option Q;
  t_radiation : option Q;
  t_rain : option Q;
  t_rh : option Q;
  t_wind : option Q;
  t_et0 : option Q
}.

(** The key of the dict [unique_data]: [(record[0], record[1])]. *)
Definition record_key (record : daily_tuple) : option string * Z :=
  (t_geohash record, t_date record).

Definition opt_str_eqb (a b : option string) : bool :=
  match a, b with
  | Some x, Some y => String.eqb x y
  | None, None => true
  | _, _ => false
  end.

Definition record_key_eqb (k1 k2 : option string * Z) : bool :=
  opt_str_eqb (fst k1) (fst k2) && Z.eqb (snd k1) (snd k2).

(** [if key not in unique_data: unique_data[key] = record] *)
Definition unique_step (unique_data : list ((option string * Z) * daily_tuple))
           (record : daily_tuple) : list ((option string * Z) * daily_tuple) :=
  if existsb (fun kv => record_key_eqb (record_key record) (fst kv)) unique_data
  then unique_data
  else unique_data ++ [(record_key record, record)].

Definition daily_data_unique (daily_data : list daily_tuple) : list daily_tuple :=
  map snd (fold_left unique_step daily_data []).

(** [[l[i:i + batch_size] for i in range(0, len(l), batch_size)]] *)
Definition batches {A : Type} (batch_size : nat) (l : list A) : list (list A) :=
  map (fun k => firstn batch_size (skipn (k * batch_size) l))
      (seq 0 ((List.length l + (batch_size - 1)) / batch_size)).

(** INSERT INTO climate_daily ... ON CONFLICT (geohash, date) DO
    NOTHING, for one row. *)
Definition insert_daily (tbl : list daily_row) (t : daily_tuple)
  : result (list daily_row) :=
  match t_geohash t with
  | None => Raise IntegrityError
  | Some g =>
      if existsb (fun r => key_eqb (daily_key r) (g, t_date t)) tbl then Ok tbl
      else Ok (tbl ++ [{| d_geohash := g; d_date := t_date t;
                          d_tmin := t_tmin t; d_tmax := t_tmax t;
                          d_radiation := t_radiation t; d_rain := t_rain t;
                          d_rh := t_rh t; d_wind := t_wind t; d_et0 := t_et0 t |}])
  end.

Fixpoint execute_values (tbl : list daily_row) (batch : list daily_tuple)
  : result (list daily_row) :=
  match batch with
  | [] => Ok tbl
  | t :: batch' => tbl' <- insert_daily tbl t ;; execute_values tbl' batch'
  end.

(** The loop over the batches, with its counter. *)
Fixpoint insert_batches (tbl : list daily_row) (total_inserted : nat)
         (bs : list (list daily_tuple)) : result (list daily_row * nat) :=
  match bs with
  | [] => Ok (tbl, total_inserted)
  | batch :: bs' =>
      tbl' <- execute_values tbl batch ;;
      insert_batches tbl' (total_inserted + List.length batch) bs'
  end.

Section Daily.

Variable exp : Q -> Q.
Variable fpow : Q -> Q -> Q.

Definition tuple_of (geohash : option string) (day : Exchange.day)
  : result daily_tuple :=
  et0 <- Et0.compute_et0 exp fpow (tmin day) (tmax day) (radiation day)
                         (rh day) (wind day) Et0.ALTITUDE_DEFAULT ;;
  Ok {| t_geohash := geohash; t_date := date day;
        t_tmin := tmin day; t_tmax := tmax day;
        t_radiation := radiation day; t_rain := rain day;
        t_rh := rh day; t_wind := wind day; t_et0 := et0 |}.

Fixpoint tuples_of (geohash : option string) (days : list Exchange.day)
  : result (list daily_tuple) :=
  match days with
  | [] => Ok []
  | day :: days' =>
      t <- tuple_of geohash day ;;
      ts <- tuples_of geohash days' ;;
      Ok (t :: ts)
  end.

(** The nested loops filling [daily_data]. *)
Fixpoint daily_data (results : list entry) : result (list daily_tuple) :=
  match results with
  | [] => Ok []
  | result :: results' =>
      ts <- tuples_of (geohash result) (weather_data result) ;;
      rest <- daily_data results' ;;
      Ok (ts ++ rest)
  end.

(** A raised exception leaves the function before the commit: the
    caller rolls back and the table is as it was. *)
Definition ingest_climate_daily (conn : list daily_row) (results : list entry)
  : result (list daily_row * nat) :=
  daily_data <- daily_data results ;;
  match daily_data with
  | [] => Ok (conn, 0%nat)
  | _ :: _ =>
      let daily_data_unique := daily_data_unique daily_data in
      let batch_size := 500%nat in
      insert_batches conn 0%nat (batches batch_size daily_data_unique)
  end.

End Daily.

End Ingest.

(** ** scripts/aggregate_7days.py *)

Module Aggregate.

Import Store.

(** *** The SQL of the queries *)

(** [date BETWEEN start_date AND target_date] *)
Definition between (start_date target_date : Z) (r : daily_row) : bool :=
  (start_date <=? d_date r)%Z && (d_date r <=? target_date)%Z.

(** [SELECT MAX(date) FROM climate_daily] *)
Definition max_date (daily : list daily_row) : option Z :=
  fold_left (fun acc r => match acc with
                          | None => Some (d_date r)
                          | Some m => Some (Z.max m (d_date r))
                          end) daily None.

(** ORDER BY geohash *)
Fixpoint insert_sorted (g : string) (l : list string) : list string :=
  match l with
  | [] => [g]
  | h :: t => if String.leb g h then g :: l else h :: insert_sorted g t
  end.

Definition order_by (l : list string) : list string :=
  fold_right insert_sorted [] l.

(** [SELECT DISTINCT geohash ... WHERE date BETWEEN ... ORDER BY geohash] *)
Definition grid_points (daily : list daily_row) (start_date target_date : Z)
  : list string :=
  order_by (nodup string_dec
                  (map d_geohash (filter (between start_date target_date) daily))).

(** The aggregates skip NULLs and are NULL over no value: a running
    sum and a running count. *)
Definition agg_step (acc : Q * nat) (v : option Q) : Q * nat :=
  match v with
  | None => acc
  | Some q => (fst acc + q, S (snd acc))
  end.

Definition AVG (col : list (option Q)) : option Q :=
  let '(s, n) := fold_left agg_step col (0, 0%nat) in
  match n with
  | O => None
  | S _ => Some (s / inject_Z (Z.of_nat n))
  end.

Definition SUM (col : list (option Q)) : option Q :=
  let '(s, n) := fold_left agg_step col (0, 0%nat) in
  match n with
  | O => None
  | S _ => Some s
  end.

(** Rounding to the nearest integer, ties away from zero. *)
Definition round_half_away (q : Q) : Z :=
  if Qle_bool 0 q then Qfloor (q + (1 # 2)) else (- Qfloor (- q + (1 # 2)))%Z.

(** [ROUND(x::numeric, 2)] *)
Definition ROUND2 (x : option Q) : option Q :=
  match x with
  | None => None
  | Some q => Some (inject_Z (round_half_away (q * 100)) / 100)
  end.

(** The rows of the per-cell query:
    [WHERE geohash = %s AND date BETWEEN %s AND %s AND tmin IS NOT NULL] *)
Definition cell_rows (daily : list daily_row) (geohash : string)
           (start_date target_date : Z) : list daily_row :=
  filter (fun r => String.eqb (d_geohash r) geohash
                   && between start_date target_date r
                   && match d_tmin r with Some _ => true | None => false end)
         daily.

Record weekly_tuple : Type := {
  geohash : string;
  start_date : Z;
  end_date : Z;
  avg_tmin : option Q;
  avg_tmax : option Q;
  avg_radiation : option Q;
  total_rain : option Q;
  avg_rh : option Q;
  avg_wind : option Q;
  avg_et0 : option Q
}.

(** One turn of the loop over [grid_points]: the query, then the test
    on [days_count]. *)
Definition cell_step (daily : list daily_row) (start_date target_date : Z)
           (min_days_required : Z) (geohash : string) : list weekly_tuple :=
  let rows := cell_rows daily geohash start_date target_date in
  let days_count := Z.of_nat (List.length rows) in
  if (days_count >=? min_days_required)%Z then
    [{| geohash := geohash;
        start_date := start_date;
        end_date := target_date;
        avg_tmin := ROUND2 (AVG (map d_tmin rows));
        avg_tmax := ROUND2 (AVG (map d_tmax rows));
        avg_radiation := ROUND2 (AVG (map d_radiation rows));
        total_rain := ROUND2 (SUM (map d_rain rows));
        avg_rh := ROUND2 (AVG (map d_rh rows));
        avg_wind := ROUND2 (AVG (map d_wind rows));
        avg_et0 := ROUND2 (AVG (map d_et0 rows)) |}]
  else [].

Definition weekly_data (daily : list daily_row) (target_date : Z)
           (min_days_required : Z) : list weekly_tuple :=
  let start_date := (target_date - 6)%Z in
  flat_map (cell_step daily start_date target_date min_days_required)
           (grid_points daily start_date target_date).

Definition same_key (t : weekly_tuple) (r : weekly_row) : bool :=
  key_eqb (weekly_key r) (geohash t, end_date t).

(** INSERT INTO climate_7days ... ON CONFLICT (geohash, end_date) DO
    UPDATE SET (all derived columns), updated_at = NOW(), for one row. *)
Definition upsert (now : Z) (tbl : list weekly_row) (t : weekly_tuple)
  : list weekly_row :=
  let row (u : stamp) :=
    {| w_geohash := geohash t; w_start_date := start_date t;
       w_end_date := end_date t;
       w_avg_tmin := avg_tmin t; w_avg_tmax := avg_tmax t;
       w_avg_radiation := avg_radiation t; w_total_rain := total_rain t;
       w_avg_rh := avg_rh t; w_avg_wind := avg_wind t;
       w_avg_et0 := avg_et0 t; w_updated_at := u |} in
  if existsb (same_key t) tbl
  then map (fun r => if same_key t r then row (At now) else r) tbl
  else tbl ++ [row ColumnDefault].

Definition execute_values (now : Z) (tbl : list weekly_row)
           (rows : list weekly_tuple) : list weekly_row :=
  fold_left (upsert now) rows tbl.

(** [aggregate_7days(conn, target_date, min_days_required)]: the
    climate_7days table after the call and the count returned.  [now]
    is NOW() of the call's transaction. *)
Definition aggregate_7days (now : Z) (daily : list daily_row)
           (weekly : list weekly_row) (target_date : option Z)
           (min_days_required : Z) : list weekly_row * nat :=
  let target :=
    match target_date with
    | Some d => Some d
    | None => max_date daily
    end in
  match target with
  | None => (weekly, 0%nat)
  | Some target_date =>
      let start_date := (target_date - 6)%Z in
      match grid_points daily start_date target_date with
      | [] => (weekly, 0%nat)
      | _ :: _ =>
          let weekly_data := weekly_data daily target_date min_days_required in
          (execute_values now weekly weekly_data, List.length weekly_data)
      end
  end.

Definition MIN_DAYS_DEFAULT : Z := 3.

End Aggregate.

(** ** scripts/compute_et0.py: the pass over the exchange file *)

Module Et0File.

Import Exchange.

(** A row of the table that [process_json_file] returns. *)
Record calc_row : Type := {
  c_geohash : string;
  c_latitude : option Q;
  c_longitude : option Q;
  c_date : Z;
  c_tmin : option Q;
  c_tmax : option Q;
  c_radiation : option Q;
  c_rh : option Q;
  c_wind : option Q;
  c_et0 : option Q
}.

(** [x is not None] *)
Definition known (x : option Q) : bool :=
  match x with Some _ => true | None => false end.

(** The test of the loop that looks for the first day with valid data. *)
Definition complete (day : day) : bool :=
  known (tmin day) && known (tmax day) && known (radiation day)
  && known (rh day) && known (wind day).

(** [str(geohash) if geohash else ''] *)
Definition geohash_text (geohash : option string) : string :=
  match geohash with
  | Some g => g
  | None => ""
  end.

Section Process.

Variable exp : Q -> Q.
Variable fpow : Q -> Q -> Q.

(** One turn of the loop over the points: the rows and the counter
    after it. *)
Definition process_point (point : entry) (results : list calc_row) (valid_count : nat)
  : result (list calc_row * nat) :=
  match find complete (weather_data point) with
  | None => Ok (results, valid_count)
  | Some selected_day =>
      et0 <- Et0.compute_et0 exp fpow (tmin selected_day) (tmax selected_day)
                             (radiation selected_day) (rh selected_day)
                             (wind selected_day) Et0.ALTITUDE_DEFAULT ;;
      let valid_count :=
        match et0 with Some _ => S valid_count | None => valid_count end in
      Ok (results ++ [{| c_geohash := geohash_text (geohash point);
                         c_latitude := latitude point;
                         c_longitude := longitude point;
                         c_date := date selected_day;
                         c_tmin := tmin selected_day;
                         c_tmax := tmax selected_day;
                         c_radiation := radiation selected_day;
                         c_rh := rh selected_day;
                         c_wind := wind selected_day;
                         c_et0 := et0 |}], valid_count)
  end.

Fixpoint process_points (points : list entry) (results : list calc_row)
         (valid_count : nat) : result (list calc_row * nat) :=
  match points with
  | [] => Ok (results, valid_count)
  | point :: points' =>
      r <- process_point point results valid_count ;;
      process_points points' (fst r) (snd r)
  end.

(** [process_json_file] on the entries of the file read: the rows of
    the table returned and the count of valid ET0 it prints. *)
Definition process_json_file (data : list entry) : result (list calc_row * nat) :=
  process_points data [] 0%nat.

End Process.

End Et0File.

(** ** scripts/fetch_nasa_power.py: the grid file *)

Module FetchGrid.

Import Exchange Fetch.

(** A feature of the grid GeoJSON: the properties read and the
    coordinates of the geometry, each absent or present. *)
Record feature : Type := {
  center_lat : option Q;
  center_lon : option Q;
  feature_geohash : option string;
  feature_coordinates : option (list ring)
}.

(** What opening and decoding the file comes to. *)
Inductive geojson : Type :=
| FileNotFound
| InvalidJson
| Features (features : list feature).

Definition point_of (f : feature) : list grid_point :=
  match center_lat f, center_lon f with
  | Some lat, Some lon =>
      [{| name := "grid_" ++ match feature_geohash f with
                             | Some g => g
                             | None => "unknown"
                             end;
          coordinates := (lat, lon);
          gp_geohash := feature_geohash f;
          gp_bbox := Some match feature_coordinates f with
                          | Some c => c
                          | None => []
                          end |}]
  | _, _ => []
  end.

Definition load_grid_points (file : geojson) : list grid_point :=
  match file with
  | Features features => flat_map point_of features
  | FileNotFound => []
  | InvalidJson => []
  end.

End FetchGrid.

(** ** scripts/02_create_grid.py *)

Module CreateGrid.

Import Exchange Store.

Definition GRID_SIZE : Q := 0.001.

(** [box(minx, miny, maxx, maxy)]: the exterior ring, counter-clockwise
    from the lower right corner. *)
Definition box (minx miny maxx maxy : Q) : ring :=
  [(maxx, miny); (maxx, maxy); (minx, maxy); (minx, miny); (maxx, miny)].

Record cell : Type := {
  geoh : string;
  cell_center_lat : Q;
  cell_center_lon : Q;
  poly : ring
}.

(** INSERT INTO grid_100m ... ON CONFLICT (geohash) DO NOTHING *)
Definition insert_cell (tbl : list grid_row) (c : cell) : list grid_row :=
  if existsb (fun r => String.eqb (g_geohash r) (geoh c)) tbl then tbl
  else tbl ++ [{| g_geohash := geoh c; g_lat := cell_center_lat c;
                  g_lon := cell_center_lon c; g_geom := Some (poly c);
                  g_created_at := ColumnDefault |}].

Definition feature_of (c : cell) : FetchGrid.feature :=
  {| FetchGrid.center_lat := Some (cell_center_lat c);
     FetchGrid.center_lon := Some (cell_center_lon c);
     FetchGrid.feature_geohash := Some (geoh c);
     FetchGrid.feature_coordinates := Some [poly c] |}.

Section Grid.

(** [x + GRID_SIZE] as the float addition gives it.  The loops add the
    cell size to their variable turn after turn, and the rounding of
    these sums decides the number of turns, so the sum is a parameter
    here: [fun x => x + GRID_SIZE] is its exact instance. *)
Variable next : Q -> Q.

(** A lower bound of what one such addition advances by; it bounds the
    number of turns. *)
Variable least : Q.

(** [geohash2.encode(lat, lon, precision)] *)
Variable encode : Q -> Q -> nat -> string.

(** The values of the loop variable at the turns of
    [while x < hi: ...; x += GRID_SIZE], for at most [fuel] turns. *)
Fixpoint turns (fuel : nat) (x hi : Q) : list Q :=
  match fuel with
  | O => []
  | S fuel' => if Qltb x hi then x :: turns fuel' (next x) hi else []
  end.

(** As many turns as the loop can take from [lo]. *)
Definition enough (lo hi : Q) : nat := Z.to_nat (Qceiling ((hi - lo) / least)).

Definition axis (lo hi : Q) : list Q := turns (enough lo hi) lo hi.

(** The body of the inner loop, up to its two writes. *)
Definition cell_at (lat lon : Q) : cell :=
  let center_lat := lat + GRID_SIZE / 2 in
  let center_lon := lon + GRID_SIZE / 2 in
  {| geoh := encode center_lat center_lon 7;
     cell_center_lat := center_lat;
     cell_center_lon := center_lon;
     poly := box lon lat (next lon) (next lat) |}.

(** The cells in the order the nested loops visit them. *)
Definition cells (min_lat max_lat min_lon max_lon : Q) : list cell :=
  flat_map (fun lat => map (cell_at lat) (axis min_lon max_lon))
           (axis min_lat max_lat).

(** The main block on a bounding box: the table after the commit and
    the features written to the GeoJSON file. *)
Definition create_grid (min_lat max_lat min_lon max_lon : Q) (conn : list grid_row)
  : list grid_row * list FetchGrid.feature :=
  let cs := cells min_lat max_lat min_lon max_lon in
  (fold_left insert_cell cs conn, map feature_of cs).

End Grid.

End CreateGrid.

(** ** scripts/ingest_climate.py: the main function *)

Module IngestMain.

Import Exchange Store Ingest.

Inductive outcome : Type :=
| Completed
| RolledBack (e : exn)
| Exit1.

Section Main.

Variable exp : Q -> Q.
Variable fpow : Q -> Q -> Q.

(** [main] on the document read ([None]: the file could not be loaded)
    and the [--no-grid] flag: the committed tables after the run.
    [ingest_grid_points] commits its own writes; the daily writes are
    committed at the end of [ingest_climate_daily] or rolled back by
    the handler. *)
Definition main (now : Z) (data : option (list entry)) (no_grid : bool)
           (grid : list grid_row) (daily : list daily_row)
  : list grid_row * list daily_row * outcome :=
  match data with
  | None => (grid, daily, Exit1)
  | Some [] => (grid, daily, Exit1)
  | Some results =>
      let grid' := if no_grid then grid
                   else fst (ingest_grid_points now grid results) in
      match ingest_climate_daily exp fpow daily results with
      | Ok (daily', _) => (grid', daily', Completed)
      | Raise e => (grid', daily, RolledBack e)
      end
  end.

End Main.

End IngestMain.

(** ** scripts/aggregate_7days.py: the main function *)

Module AggregateMain.

Import Store Aggregate.

(** [SELECT MIN(date) FROM climate_daily] *)
Definition min_date (daily : list daily_row) : option Z :=
  fold_left (fun acc r => match acc with
                          | None => Some (d_date r)
                          | Some m => Some (Z.min m (d_date r))
                          end) daily None.

(** The arguments of the command line that the run reads: [--auto],
    [--date] (parsed), [--backfill], [--min-days]. *)
Record args : Type := {
  auto : bool;
  date : option Z;
  backfill : Z;
  min_days : Z
}.

(** [range(n)] *)
Definition range (n : Z) : list Z := map Z.of_nat (seq 0 (Z.to_nat n)).

Definition dates_to_process (a : args) (min_date max_date : Z) : list Z :=
  if auto a then [max_date]
  else
    match date a with
    | Some target_date =>
        let target_date :=
          if (target_date >? max_date)%Z then max_date else target_date in
        if (target_date >=? min_date)%Z then [target_date] else []
    | None =>
        if (backfill a >? 0)%Z then
          flat_map (fun i => let current_date := (max_date - i)%Z in
                             if (current_date >=? min_date)%Z then [current_date]
                             else [])
                   (range (Z.min (backfill a) 30))
        else [max_date]
    end.

(** The loop over the dates; [now i] is NOW() of the i-th call. *)
Fixpoint process (now : nat -> Z) (i : nat) (daily : list daily_row)
         (weekly : list weekly_row) (dates : list Z) (min_days : Z)
         (total_aggregated : nat) : list weekly_row * nat :=
  match dates with
  | [] => (weekly, total_aggregated)
  | target_date :: dates' =>
      let r := aggregate_7days (now i) daily weekly (Some target_date) min_days in
      process now (S i) daily (fst r) dates' min_days (total_aggregated + snd r)
  end.

(** [main]: [None] when the daily table is empty and the run exits. *)
Definition main (now : nat -> Z) (a : args) (daily : list daily_row)
           (weekly : list weekly_row) : option (list weekly_row * nat) :=
  match min_date daily, max_date daily with
  | Some min_date, Some max_date =>
      Some (process now 0 daily weekly (dates_to_process a min_date max_date)
                    (min_days a) 0)
  | _, _ => None
  end.

End AggregateMain.

(** ** scripts/make_map.py *)

Module MakeMap.

Import Store.

Record scheme : Type := {
  vmin : Q;
  vmax : Q;
  colors : list string
}.

(** COLOR_SCHEMES (the titles and suffixes are for the legend only). *)
Definition scheme_et0 : scheme :=
  {| vmin := 0; vmax := 10;
     colors := ["#0000FF"; "#0066FF"; "#00CCFF"; "#00FFCC"; "#00FF00"; "#99FF00";
                "#FFFF00"; "#FF9900"; "#FF3300"; "#FF0000"]%string |}.

Definition scheme_tmin : scheme :=
  {| vmin := 0; vmax := 25;
     colors := ["#f7fbff"; "#deebf7"; "#c6dbef"; "#9ecae1"; "#6baed6"; "#4292c6";
                "#2171b5"; "#08519c"; "#08306b"]%string |}.

Definition scheme_tmax : scheme :=
  {| vmin := 15; vmax := 40;
     colors := ["#fff5f0"; "#fee0d2"; "#fcbba1"; "#fc9272"; "#fb6a4a"; "#ef3b2c";
                "#cb181d"; "#a50f15"; "#67000d"]%string |}.

Definition scheme_rain : scheme :=
  {| vmin := 0; vmax := 50;
     colors := ["#f7fbff"; "#deebf7"; "#c6dbef"; "#9ecae1"; "#6baed6"; "#4292c6";
                "#2171b5"; "#08519c"; "#08306b"]%string |}.

Definition scheme_rh : scheme :=
  {| vmin := 20; vmax := 100;
     colors := ["#edf8e9"; "#c7e9c0"; "#a1d99b"; "#74c476"; "#41ab5d"; "#238b45";
                "#006d2c"; "#00441b"]%string |}.

Definition scheme_wind : scheme :=
  {| vmin := 0; vmax := 10;
     colors := ["#f2f0f7"; "#dadaeb"; "#bcbddc"; "#9e9ac8"; "#807dba"; "#6a51a3";
                "#54278f"; "#3f007d"]%string |}.

Definition COLOR_SCHEMES : list (string * scheme) :=
  [("et0", scheme_et0); ("tmin", scheme_tmin); ("tmax", scheme_tmax);
   ("rain", scheme_rain); ("rh", scheme_rh); ("wind", scheme_wind)]%string.

(** [COLOR_SCHEMES.get(param, COLOR_SCHEMES['et0'])] *)
Definition scheme_of (param : string) : scheme :=
  match Fetch.dict_get param COLOR_SCHEMES with
  | Some s => s
  | None => scheme_et0
  end.

(** [int(x)]: truncation towards zero. *)
Definition py_int (x : Q) : Z :=
  if Qle_bool 0 x then Qfloor x else Qceiling x.

(** [max(0, min(1, x))] *)
Definition clamp01 (x : Q) : Q :=
  let m := if Qltb x 1 then x else 1 in
  if Qltb 0 m then m else 0.

(** The index that [get_color] reads in the colour list. *)
Definition color_index (sch : scheme) (value : Q) : Z :=
  let normalized :=
    if Qeq_bool (vmax sch) (vmin sch) then 0.5
    else clamp01 ((value - vmin sch) / (vmax sch - vmin sch)) in
  py_int (normalized * inject_Z (Z.of_nat (List.length (colors sch)) - 1)).

(** [colors[index]]: [None] is an IndexError. *)
Definition getindex (l : list string) (index : Z) : option string :=
  if (index <? 0)%Z
  then (if (- index <=? Z.of_nat (List.length l))%Z
        then nth_error l (Z.to_nat (Z.of_nat (List.length l) + index))
        else None)
  else nth_error l (Z.to_nat index).

Definition get_color (value : option Q) (param : string) : option string :=
  let sch := scheme_of param in
  match value with
  | None => Some "#808080"%string
  | Some value => getindex (colors sch) (color_index sch value)
  end.

End MakeMap.

(** * Vocabulary of the properties *)

Module Vocabulary.

Import Exchange Store.

(** The argument that [saturation_vapor_pressure] gives to [math.exp]
    at the mean of two temperatures. *)
Definition exp_argument (tmin tmax : Q) : Q :=
  (17.27 * ((tmin + tmax) / 2)) / ((tmin + tmax) / 2 + 237.3).

(** The base of the power in [psychrometric_constant]. *)
Definition pressure_base (altitude : Q) : Q := (293 - 0.0065 * altitude) / 293.

(** Two temperatures at which the lines before the [try] of
    [compute_et0] raise nothing: their mean is not -237.3, [math.exp]
    returns on its argument and the square of [**] is in range. *)
Definition in_range (tmin tmax : Q) : Prop :=
  ~ (tmin + tmax) / 2 + 237.3 == 0
  /\ exp_argument tmin tmax <= Et0.EXP_MAX
  /\ ((tmin + tmax) / 2 + 237.3) ^ 2 <= Et0.FLOAT_MAX.



(** A field that does not hold the source's no-data value. *)
Definition no_sentinel (x : option Q) : Prop :=
  forall v, x = Some v -> ~ v == Fetch.NO_DATA.

Definition day_clean (d : day) : Prop :=
  no_sentinel (tmin d) /\ no_sentinel (tmax d) /\ no_sentinel (radiation d)
  /\ no_sentinel (rain d) /\ no_sentinel (rh d) /\ no_sentinel (wind d).

Definition row_clean (r : daily_row) : Prop :=
  no_sentinel (d_tmin r) /\ no_sentinel (d_tmax r) /\ no_sentinel (d_radiation r)
  /\ no_sentinel (d_rain r) /\ no_sentinel (d_rh r) /\ no_sentinel (d_wind r)
  /\ no_sentinel (d_et0 r).

Definition entries_clean (l : list entry) : Prop :=
  Forall (fun e => Forall day_clean (weather_data e)) l.

(** A run over two cells: the first answers with a body that is not
    JSON, the second with a one-day series whose rain is the no-data
    value. *)
Definition cell_a : Fetch.grid_point :=
  {| Fetch.name := "grid_a"%string; Fetch.coordinates := (36.5, 8.9);
     Fetch.gp_geohash := Some "sn5u2k1"%string; Fetch.gp_bbox := None |}.

Definition cell_b : Fetch.grid_point :=
  {| Fetch.name := "grid_b"%string; Fetch.coordinates := (36.6, 8.9);
     Fetch.gp_geohash := Some "sn5u2k2"%string; Fetch.gp_bbox := None |}.

Definition payload_b : Fetch.parameters :=
  [ ("T2M_MAX", Fetch.Series [(739007%Z, Some 28.3)]);
    ("T2M_MIN", Fetch.Series [(739007%Z, Some 15.5)]);
    ("PRECTOTCORR", Fetch.Series [(739007%Z, Some (-999))]);
    ("ALLSKY_SFC_SW_DWN", Fetch.Series [(739007%Z, Some 22.5)]);
    ("RH2M", Fetch.Series [(739007%Z, Some 65)]);
    ("WS2M", Fetch.Series [(739007%Z, Some 2.1)]) ]%string.

Definition day_b : day :=
  {| date := 739007; tmin := Some 15.5; tmax := Some 28.3; radiation := Some 22.5;
     rain := None; rh := Some 65; wind := Some 2.1 |}.

Definition request_not_json (lat lon : Q) (days : nat) : Fetch.response :=
  if Qeq_bool lat 36.5 then Fetch.NotJson else Fetch.Payload payload_b.

Definition request_timeout (lat lon : Q) (days : nat) : Fetch.response :=
  if Qeq_bool lat 36.5 then Fetch.RequestFault else Fetch.Payload payload_b.

(** The row of climate_daily with a key, and how many rows have it. *)
Definition has_key (k : string * Z) (tbl : list daily_row) : bool :=
  existsb (fun r => key_eqb (daily_key r) k) tbl.

Definition find_daily (k : string * Z) (tbl : list daily_row) : option daily_row :=
  find (fun r => key_eqb (daily_key r) k) tbl.

Definition count_daily (k : string * Z) (tbl : list daily_row) : nat :=
  List.length (filter (fun r => key_eqb (daily_key r) k) tbl).

(** The UNIQUE index of climate_daily. *)
Definition unique_keys (tbl : list daily_row) : Prop := NoDup (map daily_key tbl).

(** The first entry of a batch with a key, and how many entries have it. *)
Definition first_with_key (k : option string * Z) (batch : list Ingest.daily_tuple)
  : option Ingest.daily_tuple :=
  find (fun t => Ingest.record_key_eqb (Ingest.record_key t) k) batch.


(** The row a tuple is stored as. *)
Definition row_of (g : string) (t : Ingest.daily_tuple) : daily_row :=
  {| d_geohash := g; d_date := Ingest.t_date t;
     d_tmin := Ingest.t_tmin t; d_tmax := Ingest.t_tmax t;
     d_radiation := Ingest.t_radiation t; d_rain := Ingest.t_rain t;
     d_rh := Ingest.t_rh t; d_wind := Ingest.t_wind t; d_et0 := Ingest.t_et0 t |}.

(** What one turn of the dedup loop does to the values of the dict. *)
Definition keep_first (u : list Ingest.daily_tuple) (t : Ingest.daily_tuple)
  : list Ingest.daily_tuple :=
  if existsb (fun x => Ingest.record_key_eqb (Ingest.record_key x)
                                             (Ingest.record_key t)) u
  then u else u ++ [t].

(** A batch with two entries for cell abc1234 on 2024-05-01 (day
    739007), with different values. *)
Definition day_first : day :=
  {| date := 739007; tmin := Some 15.5; tmax := Some 28.3; radiation := Some 22.5;
     rain := Some 1; rh := Some 65; wind := Some 2.1 |}.

Definition day_again : day :=
  {| date := 739007; tmin := Some 10; tmax := Some 20; radiation := Some 18;
     rain := Some 9; rh := Some 50; wind := Some 3 |}.

Definition entry_abc (days : list day) : entry :=
  {| point_name := "grid_abc1234"%string; geohash := Some "abc1234"%string;
     latitude := Some 36.5; longitude := Some 8.9; bbox := None;
     weather_data := days |}.

Definition tuple_first : Ingest.daily_tuple :=
  {| Ingest.t_geohash := Some "abc1234"%string; Ingest.t_date := 739007;
     Ingest.t_tmin := Some 15.5; Ingest.t_tmax := Some 28.3;
     Ingest.t_radiation := Some 22.5; Ingest.t_rain := Some 1;
     Ingest.t_rh := Some 65; Ingest.t_wind := Some 2.1;
     Ingest.t_et0 := Some 6.80 |}.

(** A cell on the equator: its geohash and its longitude are fine. *)
Definition entry_equator : entry :=
  {| point_name := "grid_s00twy0"%string; geohash := Some "s00twy0"%string;
     latitude := Some 0.0; longitude := Some 8.9; bbox := None;
     weather_data := [day_first] |}.

(** *** The rolling aggregator *)

(** The seven days of the window that ends on [target]. *)
Definition window_dates (target : Z) : list Z :=
  map (fun i => (target - 6 + Z.of_nat i)%Z) (seq 0 7).

Definition is_some (x : option Q) : bool :=
  match x with Some _ => true | None => false end.

(** The cell has a record with a temperature on day [d]. *)
Definition has_temperature (daily : list daily_row) (g : string) (d : Z) : bool :=
  existsb (fun r => String.eqb (d_geohash r) g && Z.eqb (d_date r) d
                    && is_some (d_tmin r)) daily.

(** The count k of days of the window with non-null temperature data. *)
Definition valid_days (daily : list daily_row) (g : string) (target : Z) : Z :=
  Z.of_nat (List.length (filter (has_temperature daily g) (window_dates target))).

Definition has_record_in_window (daily : list daily_row) (g : string) (target : Z)
  : Prop :=
  exists r, In r daily /\ d_geohash r = g
            /\ Aggregate.between (target - 6) target r = true.

(** The daily records of a cell in the window, and those of them that
    the per-cell query reads (the ones with a minimum temperature). *)
Definition window_rows (daily : list daily_row) (g : string) (target : Z)
  : list daily_row :=
  filter (fun r => String.eqb (d_geohash r) g
                   && Aggregate.between (target - 6) target r) daily.

Definition counted_rows (daily : list daily_row) (g : string) (target : Z)
  : list daily_row :=
  filter (fun r => is_some (d_tmin r)) (window_rows daily g target).

(** The non-null values of a column, their sum and their mean. *)
Definition non_null (col : list (option Q)) : list Q :=
  flat_map (fun v => match v with Some q => [q] | None => [] end) col.

Definition total (l : list Q) : Q := fold_right Qplus 0 l.

Definition sum_of (l : list Q) : option Q :=
  match l with
  | [] => None
  | _ :: _ => Some (total l)
  end.

Definition mean (l : list Q) : option Q :=
  match l with
  | [] => None
  | _ :: _ => Some (total l / inject_Z (Z.of_nat (List.length l)))
  end.

Definition opt_Qeq (a b : option Q) : Prop :=
  match a, b with
  | Some x, Some y => x == y
  | None, None => True
  | _, _ => False
  end.

(** C6 as it is worded: the averages are the means, and the total the
    sum, of the non-null values over the daily records of the window. *)
Definition plain_means (daily : list daily_row) (target : Z) (t : Aggregate.weekly_tuple)
  : Prop :=
  let rows := window_rows daily (Aggregate.geohash t) target in
  opt_Qeq (Aggregate.avg_tmin t) (mean (non_null (map d_tmin rows)))
  /\ opt_Qeq (Aggregate.avg_tmax t) (mean (non_null (map d_tmax rows)))
  /\ opt_Qeq (Aggregate.avg_radiation t) (mean (non_null (map d_radiation rows)))
  /\ opt_Qeq (Aggregate.avg_rh t) (mean (non_null (map d_rh rows)))
  /\ opt_Qeq (Aggregate.avg_wind t) (mean (non_null (map d_wind rows)))
  /\ opt_Qeq (Aggregate.avg_et0 t) (mean (non_null (map d_et0 rows)))
  /\ opt_Qeq (Aggregate.total_rain t) (sum_of (non_null (map d_rain rows))).

(** A daily table for the week that ends on 2024-05-07 (day 739013).
    Cell abc1234 has three days with a temperature and a fourth without
    one, on which it rained; cell abc1235 has two days. *)
Definition obs (g : string) (d : Z) (t : option Q) (rain : Q) : daily_row :=
  {| d_geohash := g; d_date := d; d_tmin := t; d_tmax := Some 25;
     d_radiation := Some 20; d_rain := Some rain; d_rh := Some 60;
     d_wind := Some 2; d_et0 := Some 4 |}.

Definition daily_week : list daily_row :=
  [ obs "abc1234" 739007 (Some 10) 1;
    obs "abc1234" 739008 (Some 10) 1;
    obs "abc1234" 739009 (Some 11) 1;
    obs "abc1234" 739010 None 5;
    obs "abc1235" 739007 (Some 12) 0;
    obs "abc1235" 739008 (Some 13) 0 ].

Definition aggregate_abc1234 : Aggregate.weekly_tuple :=
  {| Aggregate.geohash := "abc1234"%string;
     Aggregate.start_date := 739007; Aggregate.end_date := 739013;
     Aggregate.avg_tmin := Some 10.33; Aggregate.avg_tmax := Some 25.00;
     Aggregate.avg_radiation := Some 20.00; Aggregate.total_rain := Some 3.00;
     Aggregate.avg_rh := Some 60.00; Aggregate.avg_wind := Some 2.00;
     Aggregate.avg_et0 := Some 4.00 |}.

(** *** The weekly table *)

Definition tuple_key (t : Aggregate.weekly_tuple) : string * Z :=
  (Aggregate.geohash t, Aggregate.end_date t).

Definition has_weekly (k : string * Z) (tbl : list weekly_row) : bool :=
  existsb (fun r => key_eqb (weekly_key r) k) tbl.

Definition count_weekly (k : string * Z) (tbl : list weekly_row) : nat :=
  List.length (filter (fun r => key_eqb (weekly_key r) k) tbl).

(** The UNIQUE index of climate_7days. *)
Definition weekly_unique (tbl : list weekly_row) : Prop :=
  NoDup (map weekly_key tbl).

(** The derived fields of a row: all of it but the time stamp. *)
Definition derived (r : weekly_row) : Aggregate.weekly_tuple :=
  {| Aggregate.geohash := w_geohash r;
     Aggregate.start_date := w_start_date r;
     Aggregate.end_date := w_end_date r;
     Aggregate.avg_tmin := w_avg_tmin r;
     Aggregate.avg_tmax := w_avg_tmax r;
     Aggregate.avg_radiation := w_avg_radiation r;
     Aggregate.total_rain := w_total_rain r;
     Aggregate.avg_rh := w_avg_rh r;
     Aggregate.avg_wind := w_avg_wind r;
     Aggregate.avg_et0 := w_avg_et0 r |}.

(** The aggregates that a call computes: those of the window that ends
    on the date given, or on the last date stored. *)
Definition produced (daily : list daily_row) (target_date : option Z) (m : Z)
  : list Aggregate.weekly_tuple :=
  match target_date with
  | Some d => Aggregate.weekly_data daily d m
  | None =>
      match Aggregate.max_date daily with
      | Some d => Aggregate.weekly_data daily d m
      | None => []
      end
  end.

End Vocabulary.

(** * Vocabulary of the further properties *)

Module Terms.

Import Exchange Store.

(** The entries that have a day with the five inputs of the ET0, each
    with the first such day of its series. *)
Definition selected_days (data : list entry) : list (entry * day) :=
  flat_map (fun e => match find Et0File.complete (weather_data e) with
                     | Some d => [(e, d)]
                     | None => []
                     end) data.

(** What a row of [process_json_file] says of the entry and the day it
    was computed from. *)
Definition row_of_day (exp : Q -> Q) (fpow : Q -> Q -> Q)
           (r : Et0File.calc_row) (ed : entry * day) : Prop :=
  Et0File.c_geohash r = Et0File.geohash_text (geohash (fst ed))
  /\ Et0File.c_latitude r = latitude (fst ed)
  /\ Et0File.c_longitude r = longitude (fst ed)
  /\ Et0File.c_date r = date (snd ed)
  /\ Et0File.c_tmin r = tmin (snd ed) /\ Et0File.c_tmax r = tmax (snd ed)
  /\ Et0File.c_radiation r = radiation (snd ed) /\ Et0File.c_rh r = rh (snd ed)
  /\ Et0File.c_wind r = wind (snd ed)
  /\ Et0.compute_et0 exp fpow (tmin (snd ed)) (tmax (snd ed)) (radiation (snd ed))
                     (rh (snd ed)) (wind (snd ed)) Et0.ALTITUDE_DEFAULT
     = Ok (Et0File.c_et0 r).





(** A payload whose first day has the no-data value for T2M_MIN, and
    one without wind speed. *)
Definition payload_no_tmin : Fetch.parameters :=
  [ ("T2M_MAX", Fetch.Series [(739007%Z, Some 28.3)]);
    ("T2M_MIN", Fetch.Series [(739007%Z, Some (-999))]);
    ("PRECTOTCORR", Fetch.Series [(739007%Z, Some 0)]);
    ("ALLSKY_SFC_SW_DWN", Fetch.Series [(739007%Z, Some 22.5)]);
    ("RH2M", Fetch.Series [(739007%Z, Some 65)]);
    ("WS2M", Fetch.Series [(739007%Z, Some 2.1)]) ]%string.

Definition payload_no_wind : Fetch.parameters :=
  [ ("T2M_MAX", Fetch.Series [(739007%Z, Some 28.3)]);
    ("T2M_MIN", Fetch.Series [(739007%Z, Some 15.5)]);
    ("PRECTOTCORR", Fetch.Series [(739007%Z, Some 0)]);
    ("ALLSKY_SFC_SW_DWN", Fetch.Series [(739007%Z, Some 22.5)]);
    ("RH2M", Fetch.Series [(739007%Z, Some 65)]) ]%string.

Definition request_no_tmin (lat lon : Q) (days : nat) : Fetch.response :=
  if Qeq_bool lat 36.5 then Fetch.Payload Vocabulary.payload_b
  else Fetch.Payload payload_no_tmin.

Definition request_no_wind (lat lon : Q) (days : nat) : Fetch.response :=
  Fetch.Payload payload_no_wind.

(** *** The grid table *)

(** The tuple that an entry stands for in the grid upsert, when its
    geohash, latitude and longitude are all truthy. *)
Definition candidate (e : entry) : option Ingest.grid_tuple :=
  match geohash e, latitude e, longitude e with
  | Some g, Some lat, Some lon =>
      if Ingest.truthy_str (geohash e) && Ingest.truthy_num (latitude e)
         && Ingest.truthy_num (longitude e)
      then Some {| Ingest.gt_geohash := g; Ingest.gt_lat := lat; Ingest.gt_lon := lon;
                   Ingest.gt_geom := Ingest.polygon_of (bbox e) |}
      else None
  | _, _, _ => None
  end.

Definition candidates (results : list entry) : list Ingest.grid_tuple :=
  flat_map (fun e => match candidate e with Some t => [t] | None => [] end) results.

(** What one turn of the loop of [ingest_grid_points] does to the
    values of the dict. *)
Definition keep_first_cell (u : list Ingest.grid_tuple) (e : entry)
  : list Ingest.grid_tuple :=
  match candidate e with
  | Some t =>
      if existsb (fun x => String.eqb (Ingest.gt_geohash x) (Ingest.gt_geohash t)) u
      then u else u ++ [t]
  | None => u
  end.

Definition find_cell (g : string) (ts : list Ingest.grid_tuple)
  : option Ingest.grid_tuple :=
  find (fun t => String.eqb (Ingest.gt_geohash t) g) ts.

Definition has_grid (g : string) (tbl : list grid_row) : bool :=
  existsb (fun r => String.eqb (g_geohash r) g) tbl.

Definition count_grid (g : string) (tbl : list grid_row) : nat :=
  List.length (filter (fun r => String.eqb (g_geohash r) g) tbl).

(** The UNIQUE index of grid_100m. *)
Definition grid_unique (tbl : list grid_row) : Prop := NoDup (map g_geohash tbl).

(** The fields of a grid row that the upsert sets from a tuple. *)
Definition holds (r : grid_row) (t : Ingest.grid_tuple) : Prop :=
  g_geohash r = Ingest.gt_geohash t /\ g_lat r = Ingest.gt_lat t
  /\ g_lon r = Ingest.gt_lon t /\ g_geom r = Ingest.gt_geom t.

(** Two entries for cell abc1234 with different coordinates, and a
    ring of four points that is not closed. *)
Definition open_ring : ring := [(8.9, 36.5); (8.901, 36.5); (8.901, 36.501); (8.9, 36.501)].

Definition cell_entry (lat : Q) (b : option (list ring)) : entry :=
  {| point_name := "grid_abc1234"%string; geohash := Some "abc1234"%string;
     latitude := Some lat; longitude := Some 8.9; bbox := b;
     weather_data := [] |}.

(** A day whose mean temperature is -237.3. *)
Definition day_pole : day :=
  {| date := 739008; tmin := Some (-237.3); tmax := Some (-237.3);
     radiation := Some 22.5; rain := Some 0; rh := Some 65; wind := Some 2.1 |}.

(** *** The rolling aggregator *)

(** The aggregate of a cell in which every field is NULL. *)
Definition null_aggregate (g : string) (target : Z) : Aggregate.weekly_tuple :=
  {| Aggregate.geohash := g;
     Aggregate.start_date := target - 6; Aggregate.end_date := target;
     Aggregate.avg_tmin := None; Aggregate.avg_tmax := None;
     Aggregate.avg_radiation := None; Aggregate.total_rain := None;
     Aggregate.avg_rh := None; Aggregate.avg_wind := None;
     Aggregate.avg_et0 := None |}.

(** The rows of the daily table that lie in the window. *)
Definition in_window (daily : list daily_row) (target : Z) : list daily_row :=
  filter (Aggregate.between (target - 6) target) daily.

(** The number of aggregates computed over a list of window ends. *)
Definition computed (daily : list daily_row) (m : Z) (dates : list Z) : nat :=
  fold_right (fun d n => (List.length (Aggregate.weekly_data daily d m) + n)%nat)
             0%nat dates.

(** A day of cell abc1236 without a minimum temperature, and a row
    dated before the sample week. *)
Definition daily_no_tmin : list daily_row :=
  [Vocabulary.obs "abc1236" 739010 None 2].

Definition row_before_week : daily_row := Vocabulary.obs "abc1234" 739000 (Some 30) 7.

(** Arguments of a back-fill of 45 days with threshold 3. *)
Definition args_backfill : AggregateMain.args :=
  {| AggregateMain.auto := false; AggregateMain.date := None;
     AggregateMain.backfill := 45; AggregateMain.min_days := 3 |}.

(** The last index of the colour list of a scheme. *)
Definition top (sch : MakeMap.scheme) : Z :=
  (Z.of_nat (List.length (MakeMap.colors sch)) - 1)%Z.

(** A scheme as [get_color] can use it for a scale: an increasing range
    and two colours or more. *)
Definition graded (sch : MakeMap.scheme) : Prop :=
  MakeMap.vmin sch < MakeMap.vmax sch /\ (1 <= top sch)%Z.

(** The row that the INSERT of the grid script writes for a cell. *)
Definition cell_row (c : CreateGrid.cell) : grid_row :=
  {| g_geohash := CreateGrid.geoh c; g_lat := CreateGrid.cell_center_lat c;
     g_lon := CreateGrid.cell_center_lon c; g_geom := Some (CreateGrid.poly c);
     g_created_at := ColumnDefault |}.

(** The first cell visited that has a given geohash. *)
Definition first_cell (g : string) (cs : list CreateGrid.cell) : option CreateGrid.cell :=
  find (fun c => String.eqb (CreateGrid.geoh c) g) cs.

(** The grid point that the fetcher reads back for a cell of the grid
    file. *)
Definition grid_point_of (c : CreateGrid.cell) : Fetch.grid_point :=
  {| Fetch.name := "grid_" ++ CreateGrid.geoh c;
     Fetch.coordinates := (CreateGrid.cell_center_lat c, CreateGrid.cell_center_lon c);
     Fetch.gp_geohash := Some (CreateGrid.geoh c);
     Fetch.gp_bbox := Some [CreateGrid.poly c] |}.

(** A geohash encoder for the examples: every point in one cell. *)
Definition encode_one (lat lon : Q) (precision : nat) : string := "sn5u2k1".

(** The exact sum, for the examples. *)
Definition exact_next (x : Q) : Q := x + CreateGrid.GRID_SIZE.

End Terms.

(** * Properties *)

(** ** The ET0 engine *)

Module Et0Props.

Import Et0 Vocabulary.

Lemma Qltb_lt (a b : Q) : Qltb a b = true <-> a < b.
Proof.
  unfold Qltb. rewrite negb_true_iff. split; intros H.
  - apply Qnot_le_lt. intros Hle. apply Qle_bool_iff in Hle. congruence.
  - destruct (Qle_bool b a) eqn:E; [|reflexivity].
    apply Qle_bool_iff in E. exfalso. apply (Qlt_not_le _ _ H E).
Qed.

Lemma Qltb_ge (a b : Q) : Qltb a b = false <-> b <= a.
Proof.
  unfold Qltb. rewrite negb_false_iff. apply Qle_bool_iff.
Qed.

Lemma pymax_nonneg (x : Q) : 0 <= pymax x 0.
Proof.
  unfold pymax. destruct (Qltb x 0) eqn:E.
  - apply Qle_refl.
  - apply Qltb_ge in E. exact E.
Qed.

Lemma round_half_even_nonneg (q : Q) : 0 <= q -> (0 <= round_half_even q)%Z.
Proof.
  intros H. unfold round_half_even.
  assert (Hf : (0 <= Qfloor q)%Z).
  { change 0%Z with (Qfloor 0). apply Qfloor_resp_le. exact H. }
  destruct (q - inject_Z (Qfloor q) ?= 1 # 2); [destruct (Z.even (Qfloor q))| |]; lia.
Qed.

Lemma hundredths_nonneg (k : Z) : (0 <= k)%Z -> 0 <= inject_Z k / 100.
Proof.
  intros H. unfold Qle, Qdiv, Qmult, Qinv, inject_Z. simpl. lia.
Qed.

Lemma round2_nonneg (q : Q) :
  0 <= q -> exists k : Z, (0 <= k)%Z /\ round2 q = inject_Z k / 100.
Proof.
  intros H. exists (round_half_even (q * 100)). split; [|reflexivity].
  apply round_half_even_nonneg.
  apply Qmult_le_0_compat; [exact H | discriminate].
Qed.

(** Every fault inside the [try] comes out as [None]. *)
Lemma try_penman_monteith_returns tmean es ea wind Rn delta gamma :
  exists r, try_except (penman_monteith tmean es ea wind Rn delta gamma)
                       (fun _ => Ok None) = Ok r
            /\ (forall v, r = Some v ->
                  exists k : Z, (0 <= k)%Z /\ v = inject_Z k / 100).
Proof.
  unfold penman_monteith.
  destruct delta as [d|]; simpl; [|exists None; split; [reflexivity|discriminate]].
  destruct (pydiv 900 (tmean + 273)) as [k|e]; simpl;
    [|exists None; split; [reflexivity|discriminate]].
  destruct gamma as [g|]; simpl; [|exists None; split; [reflexivity|discriminate]].
  match goal with |- context [pydiv ?a ?b] => destruct (pydiv a b) as [et0|e] end;
    simpl; [|exists None; split; [reflexivity|discriminate]].
  eexists; split; [reflexivity|].
  intros v Hv. injection Hv as <-. apply round2_nonneg, pymax_nonneg.
Qed.

(** [compute_et0] returns [None] on a missing input and on a negative
    radiation. *)
Lemma compute_et0_unknown exp fpow tmin tmax solar_rad rh wind altitude :
  tmin = None \/ tmax = None \/ solar_rad = None \/ rh = None \/ wind = None
  \/ (exists r, solar_rad = Some r /\ r < 0) ->
  compute_et0 exp fpow tmin tmax solar_rad rh wind altitude = Ok None.
Proof.
  intros H. unfold compute_et0.
  destruct tmin, tmax, solar_rad as [r|], rh, wind; try reflexivity;
    destruct H as [H|[H|[H|[H|[H|[r' [H Hr]]]]]]]; try discriminate.
  injection H as ->. apply Qltb_lt in Hr. rewrite Hr. reflexivity.
Qed.

(** On exact rationals a number returned by [compute_et0] is a
    non-negative count of hundredths.  (Where a product leaves the
    range of a float the code returns nan or an infinity, which the
    embedding does not hold.) *)
Lemma compute_et0_value exp fpow tmin tmax solar_rad rh wind altitude v :
  compute_et0 exp fpow tmin tmax solar_rad rh wind altitude = Ok (Some v) ->
  exists k : Z, (0 <= k)%Z /\ v = inject_Z k / 100.
Proof.
  unfold compute_et0.
  destruct tmin as [a|], tmax as [b|], solar_rad as [r|], rh as [h|], wind as [w|];
    try discriminate.
  destruct (Qltb r 0); [discriminate|].
  destruct (saturation_vapor_pressure exp (Some ((a + b) / 2))) as [es|e];
    cbn [bind]; [|discriminate].
  destruct (as_num es) as [es'|e]; cbn [bind]; [|discriminate].
  destruct (delta_svp exp (Some ((a + b) / 2))) as [delta|e]; cbn [bind]; [|discriminate].
  destruct (psychrometric_constant fpow altitude) as [gamma|e]; cbn [bind];
    [|discriminate].
  match goal with
  | |- try_except (penman_monteith ?t ?e1 ?e2 ?w1 ?r1 ?d ?g) _ = _ -> _ =>
      destruct (try_penman_monteith_returns t e1 e2 w1 r1 d g) as [x [Hx Hv]]
  end.
  rewrite Hx. intros H. injection H as ->. apply Hv. reflexivity.
Qed.

(** C3 fails on the code: with both temperatures at -237.3 the mean
    temperature cancels the constant of [saturation_vapor_pressure],
    whose division runs before the [try] and raises. *)
Theorem compute_et0_raises_at_pole (exp : Q -> Q) (fpow : Q -> Q -> Q) :
  compute_et0 exp fpow (Some (-237.3)) (Some (-237.3)) (Some 22.5) (Some 65)
              (Some 2.1) ALTITUDE_DEFAULT = Raise ZeroDivisionError.
Proof. reflexivity. Qed.

(** *** The faults of the lines before the [try] *)

Lemma pydiv_nonzero (a b : Q) : ~ b == 0 -> pydiv a b = Ok (a / b).
Proof.
intros H. unfold pydiv. destruct (Qeq_bool b 0) eqn:E; [|reflexivity].
apply Qeq_bool_iff in E. contradiction.
Qed.

Lemma pydiv_zero (a b : Q) : b == 0 -> pydiv a b = Raise ZeroDivisionError.
Proof.
intros H. unfold pydiv. apply Qeq_bool_iff in H. rewrite H. reflexivity.
Qed.

Lemma math_exp_returns (exp : Q -> Q) (x : Q) :
  x <= EXP_MAX -> math_exp exp x = Ok (exp x).
Proof.
intros H. unfold math_exp. apply Qltb_ge in H. rewrite H. reflexivity.
Qed.

Lemma math_exp_raises (exp : Q -> Q) (x : Q) :
  EXP_MAX < x -> math_exp exp x = Raise OverflowError.
Proof.
intros H. unfold math_exp. apply Qltb_lt in H. rewrite H. reflexivity.
Qed.

Lemma pow2_returns (x : Q) : x ^ 2 <= FLOAT_MAX -> pow2 x = Ok (x ^ 2).
Proof.
intros H. unfold pow2. apply Qltb_ge in H. rewrite H. reflexivity.
Qed.

Lemma psychrometric_constant_returns (fpow : Q -> Q -> Q) (altitude : Q) :
  Qabs (pressure_base altitude) <= BASE_MAX ->
  exists gamma, psychrometric_constant fpow altitude = Ok gamma.
Proof.
intros H. unfold psychrometric_constant. fold (pressure_base altitude).
apply Qltb_ge in H. rewrite H.
destruct (Qltb (pressure_base altitude) 0); eexists; reflexivity.
Qed.

Lemma pydiv_kind (a b : Q) (e : exn) : pydiv a b = Raise e -> e = ZeroDivisionError.
Proof.
unfold pydiv. destruct (Qeq_bool b 0); [|discriminate].
intros H. injection H as <-. reflexivity.
Qed.

Lemma math_exp_kind (exp : Q -> Q) (x : Q) (e : exn) :
  math_exp exp x = Raise e -> e = OverflowError.
Proof.
unfold math_exp. destruct (Qltb EXP_MAX x); [|discriminate].
intros H. injection H as <-. reflexivity.
Qed.

Lemma pow2_kind (x : Q) (e : exn) : pow2 x = Raise e -> e = OverflowError.
Proof.
unfold pow2. destruct (Qltb FLOAT_MAX (x ^ 2)); [|discriminate].
intros H. injection H as <-. reflexivity.
Qed.

Lemma psychrometric_constant_kind (fpow : Q -> Q -> Q) (altitude : Q) (e : exn) :
  psychrometric_constant fpow altitude = Raise e -> e = OverflowError.
Proof.
unfold psychrometric_constant.
destruct (Qltb BASE_MAX _); [intros H; injection H as <-; reflexivity|].
destruct (Qltb _ 0); discriminate.
Qed.

(** With known inputs, a radiation that is not negative, temperatures
    in range and a psychrometric constant, [compute_et0] is the [try]
    block on the vapour pressure and the slope computed before it. *)
Lemma compute_et0_try exp fpow tmin tmax solar_rad rh wind altitude gamma :
  0 <= solar_rad -> in_range tmin tmax ->
  psychrometric_constant fpow altitude = Ok gamma ->
  let tmean := (tmin + tmax) / 2 in
  let es := 0.6108 * exp ((17.27 * tmean) / (tmean + 237.3)) in
  compute_et0 exp fpow (Some tmin) (Some tmax) (Some solar_rad) (Some rh) (Some wind)
              altitude
  = try_except
      (penman_monteith tmean es (es * (rh / 100)) wind solar_rad
                       (Some ((4098 * es) / ((tmean + 237.3) ^ 2))) gamma)
      (fun _ => Ok None).
Proof.
intros Hrad (Hne & Harg & Hsq) Hg tmean es. unfold compute_et0.
apply Qltb_ge in Hrad. rewrite Hrad.
unfold delta_svp, saturation_vapor_pressure.
fold tmean. rewrite (pydiv_nonzero _ Hne). cbn [bind]. fold tmean.
unfold exp_argument in Harg. fold tmean in Harg.
rewrite (math_exp_returns exp Harg). cbn [bind as_num].
fold tmean in Hsq. rewrite (pow2_returns Hsq). cbn [bind].
rewrite pydiv_nonzero.
- cbn [bind]. rewrite Hg. reflexivity.
- intros E. apply Hne. simpl in E. apply Qmult_integral in E. destruct E; assumption.
Qed.

Lemma compute_et0_at_pole exp fpow a b r h w altitude :
  0 <= r -> (a + b) / 2 + 237.3 == 0 ->
  compute_et0 exp fpow (Some a) (Some b) (Some r) (Some h) (Some w) altitude
  = Raise ZeroDivisionError.
Proof.
intros Hr Hz. unfold compute_et0. apply Qltb_ge in Hr. rewrite Hr.
unfold saturation_vapor_pressure. rewrite (pydiv_zero _ Hz). reflexivity.
Qed.

Lemma compute_et0_overflow exp fpow a b r h w altitude :
  0 <= r -> ~ (a + b) / 2 + 237.3 == 0 -> EXP_MAX < exp_argument a b ->
  compute_et0 exp fpow (Some a) (Some b) (Some r) (Some h) (Some w) altitude
  = Raise OverflowError.
Proof.
intros Hr Hne Harg. unfold compute_et0. apply Qltb_ge in Hr. rewrite Hr.
unfold saturation_vapor_pressure. rewrite (pydiv_nonzero _ Hne). cbn [bind].
unfold exp_argument in Harg. rewrite (math_exp_raises exp Harg). reflexivity.
Qed.


Lemma compute_et0_raise_kind exp fpow tmin tmax solar_rad rh wind altitude e :
  compute_et0 exp fpow tmin tmax solar_rad rh wind altitude = Raise e ->
  e = ZeroDivisionError \/ e = OverflowError.
Proof.
intros H.
destruct tmin as [a|], tmax as [b|], solar_rad as [r|], rh as [h|], wind as [w|];
  try discriminate H.
unfold compute_et0, delta_svp, saturation_vapor_pressure in H.
destruct (Qltb r 0); [discriminate H|].
destruct (pydiv (17.27 * ((a + b) / 2)) ((a + b) / 2 + 237.3)) as [q|x] eqn:E1;
  cbn [bind] in H;
  [|injection H as <-; left; eapply pydiv_kind; exact E1].
destruct (math_exp exp q) as [ex|x] eqn:E2; cbn [bind as_num] in H;
  [|injection H as <-; right; eapply math_exp_kind; exact E2].
destruct (pow2 ((a + b) / 2 + 237.3)) as [sq|x] eqn:E3; cbn [bind] in H;
  [|injection H as <-; right; eapply pow2_kind; exact E3].
destruct (pydiv (4098 * (0.6108 * ex)) sq) as [d|x] eqn:E4; cbn [bind] in H;
  [|injection H as <-; left; eapply pydiv_kind; exact E4].
destruct (psychrometric_constant fpow altitude) as [gamma|x] eqn:E5; cbn [bind] in H;
  [|injection H as <-; right; eapply psychrometric_constant_kind; exact E5].
match type of H with
| try_except (penman_monteith ?t ?e1 ?e2 ?w1 ?r1 ?dl ?g) _ = _ =>
    destruct (try_penman_monteith_returns t e1 e2 w1 r1 dl g) as [y [Hy _]]
end.
rewrite Hy in H. discriminate H.
Qed.


(** Between -243.2 and -237.3 degrees the argument of [math.exp] is
    beyond its range. *)
Lemma exp_argument_overflows (a b : Q) :
  -243.2 <= (a + b) / 2 -> (a + b) / 2 < -237.3 -> EXP_MAX < exp_argument a b.
Proof.
intros Hlo Hhi. unfold exp_argument. set (t := (a + b) / 2) in *.
assert (Hu : 0 < - (t + 237.3)) by lra.
setoid_replace (17.27 * t / (t + 237.3)) with ((- (17.27 * t)) / (- (t + 237.3)))
  by (field; lra).
apply Qlt_shift_div_l; [exact Hu|]. unfold EXP_MAX. lra.
Qed.

End Et0Props.

(** ** The weather fetcher *)

Module FetchProps.

Import Exchange Fetch Vocabulary.

Lemma field_no_sentinel (s : series) (k : Z) : no_sentinel (field s k).
Proof.
unfold no_sentinel, field. intros v.
destruct (series_get k s) as [x|]; [|discriminate].
destruct (Qeq_bool x NO_DATA) eqn:E; [discriminate|].
intros H. injection H as <-. apply Qeq_bool_neq. exact E.
Qed.

Lemma value_clean data name k x : value data name k = Ok x -> no_sentinel x.
Proof.
unfold value. destruct (getitem name data) as [[s|]|]; cbn [bind]; try discriminate.
intros H. injection H as <-. apply field_no_sentinel.
Qed.

Lemma record_of_clean data k d : record_of data k = Ok d -> day_clean d.
Proof.
unfold record_of. intros H.
repeat match type of H with
       | context [value data ?n k] =>
           let E := fresh "E" in
           destruct (value data n k) eqn:E; cbn [bind] in H; [|discriminate H]
       end.
injection H as <-. unfold day_clean. cbn.
repeat split; eapply value_clean; eassumption.
Qed.

Lemma records_of_clean data keys : forall days,
  records_of data keys = Ok days -> Forall day_clean days.
Proof.
induction keys as [|k keys IH]; intros days H; cbn in H.
- injection H as <-. constructor.
- destruct (record_of data k) as [d|] eqn:Ed; cbn [bind] in H; [|discriminate].
  destruct (records_of data keys) as [ds|]; cbn [bind] in H; [|discriminate].
  injection H as <-. constructor; [eapply record_of_clean; eassumption|].
  apply IH. reflexivity.
Qed.

Lemma fetch_data_clean request lat lon n days :
  fetch_data request lat lon n = Ok days -> Forall day_clean days.
Proof.
unfold fetch_data. destruct (request lat lon n) as [| | |v|data]; intros H.
- injection H as <-. constructor.
- discriminate.
- discriminate.
- destruct v; try discriminate; injection H as <-; constructor.
- destruct data as [|p data']; [injection H as <-; constructor|].
  destruct (dict_get "T2M_MIN" (p :: data')) as [m|].
  + destruct (keys m) as [ks|]; cbn [bind] in H; [|discriminate].
    eapply records_of_clean. eassumption.
  + injection H as <-. constructor.
Qed.

Lemma fetch_all_clean request grid : forall acc n out m,
  entries_clean acc ->
  fetch_all request grid acc n = Ok (out, m) -> entries_clean out.
Proof.
induction grid as [|p grid IH]; intros acc n out m Hacc H; cbn in H.
- injection H as <- <-. exact Hacc.
- destruct (coordinates p) as [lat lon].
  destruct (fetch_data request lat lon 7%nat) as [dd|] eqn:Ef; cbn [bind] in H;
    [|discriminate].
  destruct dd as [|sample dd'].
  + eapply IH; eassumption.
  + destruct (format_1f (tmin sample)); cbn [bind] in H; [|discriminate].
    destruct (format_1f (tmax sample)); cbn [bind] in H; [|discriminate].
    eapply IH; [|eassumption].
    apply Forall_app. split; [exact Hacc|].
    constructor; [|constructor]. cbn. eapply fetch_data_clean. eassumption.
Qed.

Lemma main_clean request grid out :
  main request grid = Ok out -> entries_clean (results out).
Proof.
unfold main. intros H. destruct grid as [|p grid]; [discriminate|].
destruct (fetch_all request (p :: grid) [] 0%nat) as [[acc n]|] eqn:E;
  cbn [bind] in H; [|discriminate].
injection H as <-. cbn. eapply fetch_all_clean; [|eassumption]. constructor.
Qed.

(** A request fault, an empty payload or a payload without T2M_MIN
    gives the empty series, and the loop goes on to the next cell. *)
Lemma fetch_data_isolates request lat lon n :
  request lat lon n = RequestFault \/ request lat lon n = Payload [] \/
  (exists data, request lat lon n = Payload data
                /\ dict_get "T2M_MIN" data = None) ->
  fetch_data request lat lon n = Ok [].
Proof.
unfold fetch_data. intros [->|[->|[data [-> H]]]]; try reflexivity.
destruct data; [reflexivity|]. rewrite H. reflexivity.
Qed.

Lemma fetch_all_skips request p grid acc n :
  fetch_data request (fst (coordinates p)) (snd (coordinates p)) 7%nat = Ok [] ->
  fetch_all request (p :: grid) acc n = fetch_all request grid acc n.
Proof.
intros H. cbn. destruct (coordinates p) as [lat lon]. cbn in H. rewrite H.
reflexivity.
Qed.

(** C9 fails on the code: the body of the first cell is not JSON, the
    decoding runs outside the [try] of [fetch_data], the exception
    leaves the loop of the main block, and nothing is saved, the second
    cell's series included. *)
Theorem main_aborts_on_undecodable_body :
  main request_not_json [cell_a; cell_b] = Raise JSONDecodeError
  /\ fetch_data request_not_json 36.6 8.9 7%nat = Ok [day_b].
Proof. split; reflexivity. Qed.

(** The same batch when the first cell times out: its series is empty,
    it is counted as failed, and the second cell's series is saved. *)
Example main_survives_timeout :
  exists e, main request_timeout [cell_a; cell_b]
            = Ok {| total_grid_points := 2; successful_fetches := 1;
                    failed_fetches := 1; results := [e] |}
            /\ weather_data e = [day_b].
Proof. eexists. split; reflexivity. Qed.

End FetchProps.

(** ** Lists of rows under a key *)

Section Keyed.

Variables (A K : Type) (key : A -> K) (eqb : K -> K -> bool).
Hypothesis eqb_eq : forall a b, eqb a b = true <-> a = b.

Lemma keyed_filter_absent k l :
  ~ In k (map key l) -> filter (fun x => eqb (key x) k) l = [].
Proof.
induction l as [|x l IH]; cbn [filter map]; intros Hnotin; [reflexivity|].
destruct (eqb (key x) k) eqn:E.
- apply eqb_eq in E. exfalso. apply Hnotin. left. exact E.
- apply IH. intros H. apply Hnotin. right. exact H.
Qed.

Lemma keyed_count_one k l :
  NoDup (map key l) -> existsb (fun x => eqb (key x) k) l = true ->
  List.length (filter (fun x => eqb (key x) k) l) = 1%nat.
Proof.
induction l as [|r l IH]; cbn [filter map existsb]; [discriminate|].
intros Hnd Hk. inversion Hnd as [|? ? Hnotin Hnd']; subst.
destruct (eqb (key r) k) eqn:E.
- apply eqb_eq in E. subst k. rewrite keyed_filter_absent by exact Hnotin.
  reflexivity.
- apply IH; [exact Hnd'|exact Hk].
Qed.

Lemma keyed_existsb_In k l :
  existsb (fun x => eqb (key x) k) l = true <-> In k (map key l).
Proof.
rewrite existsb_exists, in_map_iff. split.
- intros [r [Hr E]]. apply eqb_eq in E. exists r. split; assumption.
- intros [r [E Hr]]. exists r. split; [assumption|]. apply eqb_eq. exact E.
Qed.

Lemma keyed_find_existsb k l :
  existsb (fun x => eqb (key x) k) l = false <-> find (fun x => eqb (key x) k) l = None.
Proof.
induction l as [|r l IH]; cbn; [tauto|].
destruct (eqb (key r) k); cbn; [split; discriminate|exact IH].
Qed.

Lemma keyed_find_app k l1 l2 :
  find (fun x => eqb (key x) k) (l1 ++ l2)
  = match find (fun x => eqb (key x) k) l1 with
    | Some r => Some r
    | None => find (fun x => eqb (key x) k) l2
    end.
Proof.
induction l1 as [|r l1 IH]; cbn; [reflexivity|].
destruct (eqb (key r) k); [reflexivity|exact IH].
Qed.

Lemma keyed_NoDup_snoc l x :
  NoDup (map key l) -> existsb (fun y => eqb (key y) (key x)) l = false ->
  NoDup (map key (l ++ [x])).
Proof.
intros Hnd Hx. rewrite map_app. cbn.
apply (Permutation_NoDup (l := key x :: map key l)).
- apply Permutation_cons_append.
- constructor; [|exact Hnd]. intros Hin. apply keyed_existsb_In in Hin. congruence.
Qed.

End Keyed.

(** ** The ingestion pipeline: the daily table *)

Module DailyProps.

Import Exchange Store Ingest Vocabulary.

Lemma key_eqb_eq (a b : string * Z) : key_eqb a b = true <-> a = b.
Proof.
destruct a as [g d], b as [g' d']. unfold key_eqb. cbn.
rewrite andb_true_iff, String.eqb_eq, Z.eqb_eq. split.
- intros [-> ->]. reflexivity.
- intros H. injection H as -> ->. split; reflexivity.
Qed.

Lemma has_key_In k tbl : has_key k tbl = true <-> In k (map daily_key tbl).
Proof. apply (@keyed_existsb_In _ _ daily_key key_eqb key_eqb_eq). Qed.

Lemma has_key_app k tbl new :
  has_key k (tbl ++ new) = has_key k tbl || has_key k new.
Proof. apply existsb_app. Qed.

Lemma find_daily_app k tbl new :
  find_daily k (tbl ++ new)
  = match find_daily k tbl with
    | Some r => Some r
    | None => find_daily k new
    end.
Proof. apply (@keyed_find_app _ _ daily_key key_eqb). Qed.


Lemma count_daily_unique k tbl :
  unique_keys tbl -> has_key k tbl = true -> count_daily k tbl = 1%nat.
Proof. apply (@keyed_count_one _ _ daily_key key_eqb key_eqb_eq). Qed.

(** *** One INSERT ... ON CONFLICT DO NOTHING *)

Lemma insert_daily_eq tbl t :
  insert_daily tbl t
  = match t_geohash t with
    | None => Raise IntegrityError
    | Some g => if has_key (g, t_date t) tbl then Ok tbl
                else Ok (tbl ++ [row_of g t])
    end.
Proof. reflexivity. Qed.

Lemma insert_daily_cases tbl t tbl' :
  insert_daily tbl t = Ok tbl' ->
  exists g, t_geohash t = Some g
            /\ ((has_key (g, t_date t) tbl = true /\ tbl' = tbl)
                \/ (has_key (g, t_date t) tbl = false /\ tbl' = tbl ++ [row_of g t])).
Proof.
rewrite insert_daily_eq. destruct (t_geohash t) as [g|]; [|discriminate].
destruct (has_key (g, t_date t) tbl) eqn:E; intros H; injection H as <-;
  exists g; (split; [reflexivity|]); [left|right]; (split; [exact E|reflexivity]).
Qed.

Lemma insert_daily_present tbl t g :
  t_geohash t = Some g -> has_key (g, t_date t) tbl = true ->
  insert_daily tbl t = Ok tbl.
Proof.
intros Hg Hk. rewrite insert_daily_eq, Hg, Hk. reflexivity.
Qed.


Lemma insert_daily_unique tbl t tbl' :
  insert_daily tbl t = Ok tbl' -> unique_keys tbl -> unique_keys tbl'.
Proof.
intros H Hu. destruct (insert_daily_cases _ _ H) as [g [_ [[_ ->]|[Hk ->]]]];
  [exact Hu|].
apply (@keyed_NoDup_snoc _ _ daily_key key_eqb key_eqb_eq); assumption.
Qed.

(** *** A batch of inserts *)

Lemma execute_values_app tbl a b :
  execute_values tbl (a ++ b)
  = (tbl' <- execute_values tbl a ;; execute_values tbl' b).
Proof.
revert tbl. induction a as [|t a IH]; intros tbl; cbn [execute_values app bind];
  [reflexivity|].
destruct (insert_daily tbl t) as [tbl1|e]; cbn [bind]; [apply IH|reflexivity].
Qed.

Lemma execute_values_extends batch : forall tbl tbl',
  execute_values tbl batch = Ok tbl' -> exists new, tbl' = tbl ++ new.
Proof.
induction batch as [|t batch IH]; intros tbl tbl' H; cbn [execute_values] in H.
- injection H as <-. exists []. symmetry. apply app_nil_r.
- destruct (insert_daily tbl t) as [tbl1|e] eqn:E; cbn [bind] in H; [|discriminate].
  destruct (IH _ _ H) as [new ->].
  destruct (insert_daily_cases _ _ E) as [g [_ [[_ ->]|[_ ->]]]].
  + exists new. reflexivity.
  + exists (row_of g t :: new). rewrite <- app_assoc. reflexivity.
Qed.

Lemma execute_values_unique batch : forall tbl tbl',
  execute_values tbl batch = Ok tbl' -> unique_keys tbl -> unique_keys tbl'.
Proof.
induction batch as [|t batch IH]; intros tbl tbl' H Hu; cbn [execute_values] in H.
- injection H as <-. exact Hu.
- destruct (insert_daily tbl t) as [tbl1|e] eqn:E; cbn [bind] in H; [|discriminate].
  eapply IH; [eassumption|]. eapply insert_daily_unique; eassumption.
Qed.

Lemma execute_values_keeps_key batch tbl tbl' k :
  execute_values tbl batch = Ok tbl' -> has_key k tbl = true -> has_key k tbl' = true.
Proof.
intros H Hk. destruct (execute_values_extends _ _ H) as [new ->].
rewrite has_key_app, Hk. reflexivity.
Qed.

Lemma execute_values_present batch : forall tbl tbl',
  execute_values tbl batch = Ok tbl' ->
  forall t, In t batch ->
            exists g, t_geohash t = Some g /\ has_key (g, t_date t) tbl' = true.
Proof.
induction batch as [|t0 batch IH]; intros tbl tbl' H t Hin; [destruct Hin|].
cbn [execute_values] in H.
destruct (insert_daily tbl t0) as [tbl1|e] eqn:E; cbn [bind] in H; [|discriminate].
destruct Hin as [<-|Hin]; [|eapply IH; eassumption].
destruct (insert_daily_cases _ _ E) as [g [Hg Hc]]. exists g. split; [exact Hg|].
eapply execute_values_keeps_key; [eassumption|].
destruct Hc as [[Hk ->]|[_ ->]]; [exact Hk|].
rewrite has_key_app. apply orb_true_iff. right.
unfold has_key. cbn. unfold daily_key. cbn. rewrite (proj2 (key_eqb_eq _ _) eq_refl).
reflexivity.
Qed.

Lemma execute_values_noop batch tbl :
  (forall t, In t batch ->
             exists g, t_geohash t = Some g /\ has_key (g, t_date t) tbl = true) ->
  execute_values tbl batch = Ok tbl.
Proof.
induction batch as [|t batch IH]; intros H; cbn [execute_values]; [reflexivity|].
destruct (H t (or_introl eq_refl)) as [g [Hg Hk]].
rewrite (insert_daily_present _ _ Hg Hk). cbn [bind].
apply IH. intros t' Hin. apply H. right. exact Hin.
Qed.


(** *** The loop over the batches *)

Lemma insert_batches_eq bs : forall tbl n,
  insert_batches tbl n bs
  = (tbl' <- execute_values tbl (List.concat bs) ;;
     Ok (tbl', (n + List.length (List.concat bs))%nat)).
Proof.
induction bs as [|b bs IH]; intros tbl n; cbn [insert_batches List.concat].
- cbn. rewrite Nat.add_0_r. reflexivity.
- rewrite execute_values_app.
  destruct (execute_values tbl b) as [tbl1|e]; cbn [bind]; [|reflexivity].
  rewrite IH. rewrite length_app, Nat.add_assoc. reflexivity.
Qed.

Lemma firstn_plus {A : Type} (a b : nat) : forall l : list A,
  firstn (a + b) l = firstn a l ++ firstn b (skipn a l).
Proof.
induction a as [|a IH]; intros l; [reflexivity|].
destruct l as [|x l]; cbn.
- rewrite firstn_nil. reflexivity.
- rewrite IH. reflexivity.
Qed.

Lemma batches_prefix {A : Type} (n : nat) (l : list A) (m : nat) :
  List.concat (map (fun k => firstn n (skipn (k * n) l)) (seq 0 m)) = firstn (m * n) l.
Proof.
induction m as [|m IH]; [reflexivity|].
rewrite seq_S, map_app, concat_app, IH. cbn [map List.concat plus].
rewrite app_nil_r. rewrite <- firstn_plus. f_equal. lia.
Qed.

(** The batches, put end to end, are the list. *)
Lemma batches_concat {A : Type} (n : nat) (l : list A) :
  (0 < n)%nat -> List.concat (batches n l) = l.
Proof.
intros Hn. unfold batches. rewrite batches_prefix. apply firstn_all2.
pose proof (Nat.div_mod_eq (List.length l + (n - 1)) n) as Hd.
pose proof (Nat.mod_upper_bound (List.length l + (n - 1)) n) as Hm.
nia.
Qed.

(** *** The dedup of the batch *)

Lemma record_key_eqb_eq (a b : option string * Z) :
  record_key_eqb a b = true <-> a = b.
Proof.
destruct a as [[g|] d], b as [[g'|] d']; unfold record_key_eqb; cbn;
  rewrite ?andb_true_iff, ?String.eqb_eq, ?Z.eqb_eq; split;
  try (intros [H1 H2]; subst; reflexivity);
  try (intros H; injection H as -> ->; split; reflexivity);
  try (intros H; injection H as ->; split; reflexivity);
  try (intros [H _]; discriminate); try discriminate;
  try (intros H; subst; reflexivity).
Qed.

Lemma record_key_eqb_sym (a b : option string * Z) :
  record_key_eqb a b = record_key_eqb b a.
Proof.
destruct (record_key_eqb a b) eqn:E1, (record_key_eqb b a) eqn:E2; try reflexivity.
- apply record_key_eqb_eq in E1. subst. rewrite (proj2 (record_key_eqb_eq _ _) eq_refl) in E2.
  discriminate.
- apply record_key_eqb_eq in E2. subst. rewrite (proj2 (record_key_eqb_eq _ _) eq_refl) in E1.
  discriminate.
Qed.

Lemma unique_step_seen u t :
  existsb (fun kv : (option string * Z) * daily_tuple =>
             record_key_eqb (record_key t) (fst kv))
          (map (fun x => (record_key x, x)) u)
  = existsb (fun x => record_key_eqb (record_key x) (record_key t)) u.
Proof.
induction u as [|x u IH]; cbn [map existsb fst]; [reflexivity|].
rewrite IH, (record_key_eqb_sym (record_key t)). reflexivity.
Qed.

Lemma unique_step_values u t :
  unique_step (map (fun x => (record_key x, x)) u) t
  = map (fun x => (record_key x, x)) (keep_first u t).
Proof.
unfold unique_step, keep_first. rewrite unique_step_seen.
destruct (existsb _ u); [reflexivity|]. rewrite map_app. reflexivity.
Qed.

Lemma fold_unique_step_values dd : forall u,
  fold_left unique_step dd (map (fun x => (record_key x, x)) u)
  = map (fun x => (record_key x, x)) (fold_left keep_first dd u).
Proof.
induction dd as [|t dd IH]; intros u; cbn [fold_left]; [reflexivity|].
rewrite unique_step_values. apply IH.
Qed.

Lemma daily_data_unique_eq dd : daily_data_unique dd = fold_left keep_first dd [].
Proof.
unfold daily_data_unique.
change (@nil ((option string * Z) * daily_tuple))
  with (map (fun x => (record_key x, x)) []).
rewrite (fold_unique_step_values dd []), map_map. cbn [snd]. apply map_id.
Qed.


Lemma keep_first_find k dd : forall u,
  first_with_key k (fold_left keep_first dd u)
  = match first_with_key k u with
    | Some x => Some x
    | None => first_with_key k dd
    end.
Proof.
induction dd as [|t dd IH]; intros u; cbn [fold_left].
- destruct (first_with_key k u); reflexivity.
- rewrite IH. unfold keep_first, first_with_key.
  destruct (existsb _ u) eqn:E.
  + destruct (find _ u) eqn:Ef; [reflexivity|]. cbn [find].
    destruct (record_key_eqb (record_key t) k) eqn:Ek; [|reflexivity].
    apply record_key_eqb_eq in Ek. subst k.
    apply (@keyed_find_existsb _ _ record_key record_key_eqb) in Ef. congruence.
  + rewrite (@keyed_find_app _ _ record_key record_key_eqb).
    destruct (find _ u); [reflexivity|]. cbn [find].
    destruct (record_key_eqb (record_key t) k); reflexivity.
Qed.

(** The dedup keeps, for every key, the first entry of the batch with
    that key and nothing else. *)
Lemma daily_data_unique_first k dd :
  first_with_key k (daily_data_unique dd) = first_with_key k dd.
Proof. rewrite daily_data_unique_eq, keep_first_find. reflexivity. Qed.


Lemma first_with_key_some k l t :
  first_with_key k l = Some t -> In t l /\ record_key t = k.
Proof.
intros H. apply find_some in H. destruct H as [Hin E].
apply record_key_eqb_eq in E. split; assumption.
Qed.

Lemma first_with_key_In l t :
  In t l -> exists t0, first_with_key (record_key t) l = Some t0.
Proof.
intros Hin. destruct (first_with_key (record_key t) l) as [t0|] eqn:E;
  [exists t0; reflexivity|].
pose proof (find_none _ _ E _ Hin) as Hf. cbn in Hf.
rewrite (proj2 (record_key_eqb_eq _ _) eq_refl) in Hf. discriminate.
Qed.


Lemma keep_first_In dd : forall u t,
  In t (fold_left keep_first dd u) -> In t u \/ In t dd.
Proof.
induction dd as [|x dd IH]; intros u t H; cbn [fold_left] in H; [left; exact H|].
destruct (IH _ _ H) as [Hin|Hin]; [|right; right; exact Hin].
unfold keep_first in Hin. destruct (existsb _ u); [left; exact Hin|].
apply in_app_or in Hin. destruct Hin as [Hin|[<-|[]]]; [left; exact Hin|].
right. left. reflexivity.
Qed.

Lemma daily_data_unique_In dd t : In t (daily_data_unique dd) -> In t dd.
Proof.
rewrite daily_data_unique_eq. intros H.
destruct (keep_first_In _ _ _ H) as [[]|Hin]. exact Hin.
Qed.

(** *** The whole of [ingest_climate_daily] *)

Section Run.

Variable exp : Q -> Q.
Variable fpow : Q -> Q -> Q.

Lemma ingest_climate_daily_eq conn results :
  ingest_climate_daily exp fpow conn results
  = (dd <- daily_data exp fpow results ;;
     tbl <- execute_values conn (daily_data_unique dd) ;;
     Ok (tbl, List.length (daily_data_unique dd))).
Proof.
unfold ingest_climate_daily.
destruct (daily_data exp fpow results) as [dd|e]; cbn [bind]; [|reflexivity].
destruct dd as [|t dd]; [reflexivity|].
rewrite insert_batches_eq, batches_concat by lia. reflexivity.
Qed.

Lemma ingest_climate_daily_inv conn results tbl n :
  ingest_climate_daily exp fpow conn results = Ok (tbl, n) ->
  exists dd, daily_data exp fpow results = Ok dd
             /\ execute_values conn (daily_data_unique dd) = Ok tbl
             /\ n = List.length (daily_data_unique dd).
Proof.
rewrite ingest_climate_daily_eq.
destruct (daily_data exp fpow results) as [dd|e]; cbn [bind]; [|discriminate].
destruct (execute_values conn (daily_data_unique dd)) as [tbl'|e] eqn:E; cbn [bind];
  [|discriminate].
intros H. injection H as <- <-. exists dd. repeat split. exact E.
Qed.

Lemma tuple_of_inv g day t :
  tuple_of exp fpow g day = Ok t ->
  t_geohash t = g /\ t_date t = date day
  /\ t_tmin t = tmin day /\ t_tmax t = tmax day /\ t_radiation t = radiation day
  /\ t_rain t = rain day /\ t_rh t = rh day /\ t_wind t = wind day
  /\ Et0.compute_et0 exp fpow (tmin day) (tmax day) (radiation day) (rh day)
                     (wind day) Et0.ALTITUDE_DEFAULT = Ok (t_et0 t).
Proof.
unfold tuple_of.
destruct (Et0.compute_et0 exp fpow (tmin day) (tmax day) (radiation day) (rh day)
                          (wind day) Et0.ALTITUDE_DEFAULT) as [et0|e];
  cbn [bind]; [|discriminate].
intros H. injection H as <-. cbn. repeat split.
Qed.

Lemma tuples_of_In g days : forall ts,
  tuples_of exp fpow g days = Ok ts ->
  (forall day, In day days -> exists t, In t ts /\ tuple_of exp fpow g day = Ok t)
  /\ (forall t, In t ts -> exists day, In day days /\ tuple_of exp fpow g day = Ok t).
Proof.
induction days as [|day days IH]; intros ts H; cbn [tuples_of] in H.
- injection H as <-. split; intros ? [].
- destruct (tuple_of exp fpow g day) as [t|e] eqn:Et; cbn [bind] in H; [|discriminate].
  destruct (tuples_of exp fpow g days) as [ts'|e]; cbn [bind] in H; [|discriminate].
  injection H as <-. destruct (IH _ eq_refl) as [IH1 IH2]. split.
  + intros day' [<-|Hin].
    * exists t. split; [left; reflexivity|exact Et].
    * destruct (IH1 _ Hin) as [t' [Ht' E]]. exists t'. split; [right|]; assumption.
  + intros t' [<-|Hin].
    * exists day. split; [left; reflexivity|exact Et].
    * destruct (IH2 _ Hin) as [day' [Hd E]]. exists day'. split; [right|]; assumption.
Qed.

Lemma daily_data_In results : forall dd,
  daily_data exp fpow results = Ok dd ->
  (forall e day, In e results -> In day (weather_data e) ->
     exists t, In t dd /\ tuple_of exp fpow (geohash e) day = Ok t)
  /\ (forall t, In t dd ->
       exists e day, In e results /\ In day (weather_data e)
                     /\ tuple_of exp fpow (geohash e) day = Ok t).
Proof.
induction results as [|e results IH]; intros dd H; cbn [daily_data] in H.
- injection H as <-. split; [intros ? ? []|intros ? []].
- destruct (tuples_of exp fpow (geohash e) (weather_data e)) as [ts|x] eqn:Et;
    cbn [bind] in H; [|discriminate].
  destruct (daily_data exp fpow results) as [rest|x]; cbn [bind] in H; [|discriminate].
  injection H as <-. destruct (IH _ eq_refl) as [IH1 IH2].
  destruct (tuples_of_In _ _ Et) as [T1 T2]. split.
  + intros e' day [<-|Hin] Hday.
    * destruct (T1 _ Hday) as [t [Ht E]]. exists t. split; [|exact E].
      apply in_or_app. left. exact Ht.
    * destruct (IH1 _ _ Hin Hday) as [t [Ht E]]. exists t. split; [|exact E].
      apply in_or_app. right. exact Ht.
  + intros t Hin. apply in_app_or in Hin. destruct Hin as [Hin|Hin].
    * destruct (T2 _ Hin) as [day [Hd E]]. exists e, day.
      repeat split; [left; reflexivity|assumption|assumption].
    * destruct (IH2 _ Hin) as [e' [day [He [Hd E]]]]. exists e', day.
      repeat split; [right|..]; assumption.
Qed.

(** *** When the run returns *)





End Run.

(** C2: an ingestion that succeeds only appends rows: the rows already
    stored keep their place and their values, the table still has one
    row per (cell, date), every (cell, date) of the input is stored
    exactly once, and ingesting the same input again changes nothing. *)
Theorem daily_first_write_wins (exp : Q -> Q) (fpow : Q -> Q -> Q)
        (conn : list daily_row) (results : list entry)
        (tbl : list daily_row) (n : nat) :
  unique_keys conn ->
  ingest_climate_daily exp fpow conn results = Ok (tbl, n) ->
  (exists new, tbl = conn ++ new)
  /\ (forall k r, find_daily k conn = Some r -> find_daily k tbl = Some r)
  /\ unique_keys tbl
  /\ (forall e day g, In e results -> In day (weather_data e) ->
        geohash e = Some g -> count_daily (g, date day) tbl = 1%nat)
  /\ ingest_climate_daily exp fpow tbl results = Ok (tbl, n).
Proof.
intros Hu Hrun.
destruct (ingest_climate_daily_inv _ _ _ _ Hrun) as [dd [Hdd [Hex Hn]]].
assert (Hu' : unique_keys tbl) by (eapply execute_values_unique; eassumption).
split; [eapply execute_values_extends; eassumption|].
split.
{ intros k r Hf. destruct (execute_values_extends _ _ Hex) as [new ->].
  rewrite find_daily_app, Hf. reflexivity. }
split; [exact Hu'|]. split.
- intros e day g He Hday Hg.
  destruct (daily_data_In _ _ _ Hdd) as [Hin _].
  destruct (Hin _ _ He Hday) as [t [Ht Et]].
  apply tuple_of_inv in Et. destruct Et as [Eg [Ed _]].
  destruct (first_with_key_In _ _ Ht) as [t0 Hfirst].
  rewrite <- daily_data_unique_first in Hfirst.
  apply first_with_key_some in Hfirst. destruct Hfirst as [Hin0 Ek].
  destruct (execute_values_present _ _ Hex _ Hin0) as [g' [Hg' Hk]].
  unfold record_key in Ek. rewrite Eg, Ed, Hg, Hg' in Ek. injection Ek as -> Ed0.
  rewrite Ed0 in Hk. apply count_daily_unique; assumption.
- rewrite ingest_climate_daily_eq, Hdd. cbn [bind].
  rewrite execute_values_noop.
  + cbn [bind]. rewrite Hn. reflexivity.
  + intros t Ht. eapply execute_values_present; eassumption.
Qed.

(** Ingesting the batch of cell abc1234 into the empty table, then
    once more: the table is the same one row. *)
Lemma daily_first_write_wins_witness :
  ingest_climate_daily Et0.exp_approx Et0.pow_approx
                       [row_of "abc1234" tuple_first]
                       [entry_abc [day_first; day_again]]
  = Ok ([row_of "abc1234" tuple_first], 1%nat).
Proof.
assert (Hu : unique_keys []) by constructor.
assert (Hrun : ingest_climate_daily Et0.exp_approx Et0.pow_approx []
                 [entry_abc [day_first; day_again]]
               = Ok ([row_of "abc1234" tuple_first], 1%nat))
  by (vm_compute; reflexivity).
exact (proj2 (proj2 (proj2 (proj2 (daily_first_write_wins _ _ _ Hu Hrun))))).
Defined.



End DailyProps.

(** ** From the fetcher to the daily table *)

Module PipelineProps.

Import Exchange Store Ingest Vocabulary DailyProps.

Lemma execute_values_rows batch : forall tbl tbl',
  execute_values tbl batch = Ok tbl' ->
  forall r, In r tbl' ->
            In r tbl \/ exists t g, In t batch /\ t_geohash t = Some g /\ r = row_of g t.
Proof.
induction batch as [|t batch IH]; intros tbl tbl' H r Hr; cbn [execute_values] in H.
- injection H as <-. left. exact Hr.
- destruct (insert_daily tbl t) as [tbl1|e] eqn:E; cbn [bind] in H; [|discriminate].
  destruct (IH _ _ H _ Hr) as [Hin|[t' [g [Hin [Hg ->]]]]].
  + destruct (insert_daily_cases _ _ E) as [g [Hg [[_ ->]|[_ ->]]]];
      [left; exact Hin|].
    apply in_app_or in Hin. destruct Hin as [Hin|[<-|[]]]; [left; exact Hin|].
    right. exists t, g. split; [left; reflexivity|]. split; [exact Hg|reflexivity].
  + right. exists t', g. split; [right; exact Hin|]. split; [exact Hg|reflexivity].
Qed.

Lemma nonneg_no_sentinel (x : option Q) :
  (forall v, x = Some v -> 0 <= v) -> no_sentinel x.
Proof.
intros H v Hv E. specialize (H v Hv). rewrite E in H. revert H.
unfold Fetch.NO_DATA. apply Qlt_not_le. reflexivity.
Qed.

Lemma tuple_of_clean exp fpow g g' day t :
  day_clean day -> tuple_of exp fpow g day = Ok t -> row_clean (row_of g' t).
Proof.
intros [H1 [H2 [H3 [H4 [H5 H6]]]]] Ht.
apply tuple_of_inv in Ht.
destruct Ht as [_ [_ [E1 [E2 [E3 [E4 [E5 [E6 Eet0]]]]]]]].
unfold row_clean, row_of. cbn. rewrite E1, E2, E3, E4, E5, E6.
repeat (split; [assumption|]).
apply nonneg_no_sentinel. intros v Hv. rewrite Hv in Eet0.
destruct (Et0Props.compute_et0_value _ _ _ _ _ _ _ _ Eet0) as [k [Hk ->]].
apply Et0Props.hundredths_nonneg. exact Hk.
Qed.

(** C8: a source value equal to the no-data value -999 becomes [None]
    and any other value passes; so every field of every record that
    [fetch_data] returns differs from the no-data value, and so do the
    fields of the entries the main block saves and the fields (ET0
    included) of every row that an ingestion of such entries adds to
    the daily table. *)
Theorem sentinel_stops_at_fetcher :
  (forall s k v, Fetch.series_get k s = Some v ->
                 (v == Fetch.NO_DATA -> Fetch.field s k = None)
                 /\ (~ v == Fetch.NO_DATA -> Fetch.field s k = Some v))
  /\ (forall request lat lon n days,
        Fetch.fetch_data request lat lon n = Ok days -> Forall day_clean days)
  /\ (forall request grid out,
        Fetch.main request grid = Ok out -> entries_clean (Fetch.results out))
  /\ (forall exp fpow conn results tbl n,
        entries_clean results ->
        ingest_climate_daily exp fpow conn results = Ok (tbl, n) ->
        forall r, In r tbl -> In r conn \/ row_clean r).
Proof.
split.
{ intros s k v Hv. unfold Fetch.field. rewrite Hv.
  destruct (Qeq_bool v Fetch.NO_DATA) eqn:E.
  - apply Qeq_bool_iff in E. split; [reflexivity|contradiction].
  - apply Qeq_bool_neq in E. split; [contradiction|reflexivity]. }
split; [exact FetchProps.fetch_data_clean|].
split; [exact FetchProps.main_clean|].
intros exp fpow conn results tbl n Hclean Hrun r Hr.
destruct (ingest_climate_daily_inv _ _ _ _ Hrun) as [dd [Hdd [Hex _]]].
destruct (execute_values_rows _ _ Hex _ Hr) as [Hin|[t [g [Hin [Hg ->]]]]];
  [left; exact Hin|right].
apply daily_data_unique_In in Hin.
destruct (daily_data_In _ _ _ Hdd) as [_ Hinv].
destruct (Hinv _ Hin) as [e [day [He [Hday Ht]]]].
eapply tuple_of_clean; [|exact Ht].
unfold entries_clean in Hclean. rewrite Forall_forall in Hclean.
specialize (Hclean _ He). rewrite Forall_forall in Hclean. apply Hclean. exact Hday.
Qed.

(** The payload of the sample cell: its rain is -999 at the source and
    [None] in the record fetched. *)
Lemma sentinel_stops_at_fetcher_witness :
  Fetch.fetch_data request_timeout 36.6 8.9 7 = Ok [day_b]
  /\ Forall day_clean [day_b].
Proof.
assert (H : Fetch.fetch_data request_timeout 36.6 8.9 7 = Ok [day_b])
  by (vm_compute; reflexivity).
split; [exact H|].
exact (proj1 (proj2 sentinel_stops_at_fetcher) _ _ _ _ _ H).
Defined.

End PipelineProps.

(** ** The ingestion pipeline: the grid table *)

Module GridProps.

Import Exchange Store Ingest Vocabulary.

Lemma truthy_num_zero (x : option Q) (z : Q) :
  x = Some z -> z == 0 -> truthy_num x = false.
Proof.
intros -> Hz. cbn. apply negb_false_iff. apply Qeq_bool_iff. exact Hz.
Qed.

Lemma truthy_num_some (x : option Q) :
  truthy_num x = true -> exists q, x = Some q /\ ~ q == 0.
Proof.
destruct x as [q|]; cbn; [|discriminate]. intros H. exists q. split; [reflexivity|].
apply Qeq_bool_neq. apply negb_true_iff. exact H.
Qed.

Lemma truthy_str_some (x : option string) :
  truthy_str x = true -> exists g, x = Some g /\ g <> ""%string.
Proof.
destruct x as [g|]; cbn; [|discriminate]. intros H. exists g. split; [reflexivity|].
apply String.eqb_neq. apply negb_true_iff. exact H.
Qed.

(** An entry with a falsy coordinate leaves the dict as it is. *)
Lemma grid_step_falsy unique_grid e :
  truthy_num (latitude e) = false \/ truthy_num (longitude e) = false ->
  grid_step unique_grid e = unique_grid.
Proof.
intros H. unfold grid_step.
destruct (truthy_str (geohash e)); cbn [andb]; [|reflexivity].
destruct H as [-> | ->]; [reflexivity|].
rewrite andb_false_r. reflexivity.
Qed.

Lemma grid_data_skip before e after :
  truthy_num (latitude e) = false \/ truthy_num (longitude e) = false ->
  grid_data (before ++ e :: after) = grid_data (before ++ after).
Proof.
intros H. unfold grid_data. rewrite !fold_left_app. cbn [fold_left].
rewrite grid_step_falsy by exact H. reflexivity.
Qed.

(** Where the tuples of the dict come from. *)
Lemma grid_step_origin unique_grid e kv :
  In kv (grid_step unique_grid e) ->
  In kv unique_grid
  \/ (geohash e = Some (gt_geohash (snd kv)) /\ latitude e = Some (gt_lat (snd kv))
      /\ longitude e = Some (gt_lon (snd kv))
      /\ gt_geohash (snd kv) <> ""%string
      /\ ~ gt_lat (snd kv) == 0 /\ ~ gt_lon (snd kv) == 0).
Proof.
unfold grid_step.
destruct (truthy_str (geohash e)) eqn:Eg; cbn [andb]; [|left; assumption].
destruct (truthy_num (latitude e)) eqn:Elat; cbn [andb]; [|left; assumption].
destruct (truthy_num (longitude e)) eqn:Elon; [|left; assumption].
destruct (truthy_str_some _ Eg) as [g [Hg Hgne]].
destruct (truthy_num_some _ Elat) as [lat [Hlat Hlatne]].
destruct (truthy_num_some _ Elon) as [lon [Hlon Hlonne]].
rewrite Hg, Hlat, Hlon.
destruct (dict_mem g unique_grid); [left; assumption|].
intros H. apply in_app_or in H. destruct H as [H|[<-|[]]]; [left; exact H|].
right. cbn. repeat split; assumption.
Qed.

Lemma fold_grid_step_origin results : forall unique_grid kv,
  In kv (fold_left grid_step results unique_grid) ->
  In kv unique_grid
  \/ exists e, In e results
               /\ geohash e = Some (gt_geohash (snd kv))
               /\ latitude e = Some (gt_lat (snd kv))
               /\ longitude e = Some (gt_lon (snd kv))
               /\ gt_geohash (snd kv) <> ""%string
               /\ ~ gt_lat (snd kv) == 0 /\ ~ gt_lon (snd kv) == 0.
Proof.
induction results as [|e results IH]; intros unique_grid kv H; cbn [fold_left] in H;
  [left; exact H|].
destruct (IH _ _ H) as [Hin|[e' [He' Hrest]]].
- destruct (grid_step_origin _ _ _ Hin) as [Hin'|Hnew]; [left; exact Hin'|].
  right. exists e. split; [left; reflexivity|exact Hnew].
- right. exists e'. split; [right; exact He'|exact Hrest].
Qed.

(** Where the rows of the table come from after the upsert. *)
Lemma upsert_grid_rows now tbl t r :
  In r (upsert_grid now tbl t) ->
  In r tbl
  \/ (g_geohash r = gt_geohash t /\ g_lat r = gt_lat t /\ g_lon r = gt_lon t).
Proof.
unfold upsert_grid. destruct (existsb _ tbl).
- intros H. apply in_map_iff in H. destruct H as [r0 [E Hin]].
  destruct (String.eqb (g_geohash r0) (gt_geohash t)) eqn:Eg.
  + right. subst r. cbn. apply String.eqb_eq in Eg. repeat split. exact Eg.
  + left. subst r. exact Hin.
- intros H. apply in_app_or in H. destruct H as [H|[<-|[]]]; [left; exact H|].
  right. cbn. repeat split.
Qed.

Lemma fold_upsert_grid_rows now ts : forall tbl r,
  In r (fold_left (upsert_grid now) ts tbl) ->
  In r tbl
  \/ exists t, In t ts /\ g_geohash r = gt_geohash t /\ g_lat r = gt_lat t
               /\ g_lon r = gt_lon t.
Proof.
induction ts as [|t ts IH]; intros tbl r H; cbn [fold_left] in H; [left; exact H|].
destruct (IH _ _ H) as [Hin|[t' [Ht' Hrest]]].
- destruct (upsert_grid_rows _ _ _ _ Hin) as [Hin'|Hnew]; [left; exact Hin'|].
  right. exists t. split; [left; reflexivity|exact Hnew].
- right. exists t'. split; [right; exact Ht'|exact Hrest].
Qed.

(** C10: a row that the grid upsert writes comes from an entry whose
    geohash is a non-empty string and whose latitude and longitude are
    present and not zero; an entry whose latitude or longitude is 0.0
    changes nothing in the table or in the count returned, whatever its
    geohash and its other coordinate. *)
Theorem grid_upsert_needs_truthy_fields :
  (forall now conn results r,
     In r (fst (ingest_grid_points now conn results)) ->
     In r conn
     \/ exists e, In e results
                  /\ geohash e = Some (g_geohash r)
                  /\ latitude e = Some (g_lat r) /\ longitude e = Some (g_lon r)
                  /\ g_geohash r <> ""%string /\ ~ g_lat r == 0 /\ ~ g_lon r == 0)
  /\ (forall now conn before e after z,
        latitude e = Some z \/ longitude e = Some z -> z == 0 ->
        ingest_grid_points now conn (before ++ e :: after)
        = ingest_grid_points now conn (before ++ after)).
Proof.
split.
- intros now conn results r H. unfold ingest_grid_points in H. cbn [fst] in H.
  destruct (fold_upsert_grid_rows _ _ _ _ H) as [Hin|[t [Ht [Eg [Elat Elon]]]]];
    [left; exact Hin|right].
  unfold grid_data in Ht. apply in_map_iff in Ht. destruct Ht as [kv [<- Hkv]].
  destruct (fold_grid_step_origin _ _ _ Hkv) as [[]|[e [He Hrest]]].
  exists e. rewrite Eg, Elat, Elon. split; [exact He|exact Hrest].
- intros now conn before e after z Hz Hz0. unfold ingest_grid_points.
  rewrite grid_data_skip; [reflexivity|].
  destruct Hz as [Hz|Hz]; [left|right]; eapply truthy_num_zero; eassumption.
Qed.

(** The cell on the equator: ingesting it writes no row. *)
Lemma grid_upsert_needs_truthy_fields_witness :
  ingest_grid_points 0 [] [entry_equator] = ([], 0%nat).
Proof.
apply (proj2 grid_upsert_needs_truthy_fields 0%Z [] [] entry_equator [] 0.0).
- left. reflexivity.
- reflexivity.
Defined.

End GridProps.

(** ** The rolling aggregator *)

Module AggregateProps.

Import Store Aggregate Vocabulary.

(** *** The candidate cells *)

Lemma insert_sorted_perm g l : Permutation (insert_sorted g l) (g :: l).
Proof.
induction l as [|h l IH]; cbn [insert_sorted]; [apply Permutation_refl|].
destruct (String.leb g h); [apply Permutation_refl|].
eapply Permutation_trans; [apply perm_skip; exact IH|apply perm_swap].
Qed.

Lemma order_by_perm l : Permutation (order_by l) l.
Proof.
induction l as [|g l IH]; cbn; [apply perm_nil|].
eapply Permutation_trans; [apply insert_sorted_perm|apply perm_skip; exact IH].
Qed.

Lemma grid_points_NoDup daily s e : NoDup (grid_points daily s e).
Proof.
unfold grid_points.
eapply Permutation_NoDup; [apply Permutation_sym, order_by_perm|apply NoDup_nodup].
Qed.

Lemma grid_points_In daily target g :
  In g (grid_points daily (target - 6) target) <-> has_record_in_window daily g target.
Proof.
unfold grid_points, has_record_in_window. split.
- intros H. apply (Permutation_in _ (order_by_perm _)) in H.
  apply nodup_In, in_map_iff in H. destruct H as [r [E Hr]].
  apply filter_In in Hr. destruct Hr as [Hr Hb]. exists r. repeat split; assumption.
- intros [r [Hr [E Hb]]].
  apply (Permutation_in _ (Permutation_sym (order_by_perm _))).
  apply nodup_In, in_map_iff. exists r. split; [exact E|].
  apply filter_In. split; assumption.
Qed.

(** *** The threshold *)

Lemma cell_step_In daily s e m g t :
  In t (cell_step daily s e m g) ->
  geohash t = g /\ end_date t = e
  /\ (m <= Z.of_nat (List.length (cell_rows daily g s e)))%Z.
Proof.
unfold cell_step.
destruct (Z.of_nat (List.length (cell_rows daily g s e)) >=? m)%Z eqn:E;
  [|intros []].
intros [<-|[]]. cbn. repeat split. lia.
Qed.

Lemma cell_step_produces daily s e m g :
  (m <= Z.of_nat (List.length (cell_rows daily g s e)))%Z ->
  exists t, cell_step daily s e m g = [t] /\ geohash t = g /\ end_date t = e.
Proof.
intros H. unfold cell_step.
destruct (Z.of_nat (List.length (cell_rows daily g s e)) >=? m)%Z eqn:E; [|lia].
eexists. split; [reflexivity|]. split; reflexivity.
Qed.

Lemma weekly_data_In daily target m g :
  (exists t, In t (weekly_data daily target m) /\ geohash t = g)
  <-> has_record_in_window daily g target
      /\ (m <= Z.of_nat (List.length (cell_rows daily g (target - 6) target)))%Z.
Proof.
unfold weekly_data. split.
- intros [t [Hin Eg]]. apply in_flat_map in Hin. destruct Hin as [g' [Hg' Ht]].
  apply cell_step_In in Ht. destruct Ht as [Eg' [_ Hm]].
  rewrite Eg in Eg'. subst g'. split; [apply grid_points_In; exact Hg'|exact Hm].
- intros [Hrec Hm]. destruct (cell_step_produces daily _ _ _ Hm) as [t [Et [Eg _]]].
  exists t. split; [|exact Eg]. apply in_flat_map. exists g.
  split; [apply grid_points_In; exact Hrec|]. rewrite Et. left. reflexivity.
Qed.

(** *** Rows counted and days counted *)

Lemma window_dates_In target d :
  In d (window_dates target) <-> (target - 6 <= d <= target)%Z.
Proof.
unfold window_dates. rewrite in_map_iff. split.
- intros [i [<- Hi]]. apply in_seq in Hi. lia.
- intros H. exists (Z.to_nat (d - (target - 6))). split; [lia|].
  apply in_seq. lia.
Qed.

Lemma window_dates_NoDup target : NoDup (window_dates target).
Proof.
unfold window_dates. cbn [seq map].
repeat (constructor; [cbn [In]; intros H; lia|]). constructor.
Qed.

Lemma NoDup_map_filter {A K : Type} (key : A -> K) (f : A -> bool) (l : list A) :
  NoDup (map key l) -> NoDup (map key (filter f l)).
Proof.
induction l as [|x l IH]; cbn [map filter]; intros H; [constructor|].
inversion H as [|? ? Hnotin Hnd]; subst.
destruct (f x); [|apply IH; exact Hnd].
cbn [map]. constructor; [|apply IH; exact Hnd].
intros Hin. apply Hnotin. apply in_map_iff in Hin. destruct Hin as [y [E Hy]].
apply filter_In in Hy. apply in_map_iff. exists y. split; [exact E|apply Hy].
Qed.

Lemma cell_rows_In daily g s e r :
  In r (cell_rows daily g s e)
  <-> In r daily /\ d_geohash r = g /\ between s e r = true
      /\ is_some (d_tmin r) = true.
Proof.
unfold cell_rows. rewrite filter_In, !andb_true_iff, String.eqb_eq.
unfold is_some. tauto.
Qed.

Lemma cell_rows_dates_NoDup daily g s e :
  unique_keys daily -> NoDup (map d_date (cell_rows daily g s e)).
Proof.
intros Hu.
apply (NoDup_map_inv (fun d => (g, d))). rewrite map_map.
rewrite (map_ext_in _ daily_key).
- apply NoDup_map_filter. exact Hu.
- intros r Hr. apply cell_rows_In in Hr. destruct Hr as [_ [<- _]]. reflexivity.
Qed.

Lemma has_temperature_In daily g d :
  has_temperature daily g d = true
  <-> exists r, In r daily /\ d_geohash r = g /\ d_date r = d
                /\ is_some (d_tmin r) = true.
Proof.
unfold has_temperature. rewrite existsb_exists. split.
- intros [r [Hr H]]. rewrite !andb_true_iff, String.eqb_eq, Z.eqb_eq in H.
  exists r. tauto.
- intros [r [Hr [Eg [Ed Ht]]]]. exists r. split; [exact Hr|].
  rewrite !andb_true_iff, String.eqb_eq, Z.eqb_eq. tauto.
Qed.

(** With one row per (cell, date), the rows that the query counts are
    as many as the days of the window with a temperature. *)
Lemma days_count_valid_days daily g target :
  unique_keys daily ->
  Z.of_nat (List.length (cell_rows daily g (target - 6) target))
  = valid_days daily g target.
Proof.
intros Hu. unfold valid_days. f_equal.
rewrite <- (length_map d_date). apply Permutation_length.
apply NoDup_Permutation.
- apply cell_rows_dates_NoDup. exact Hu.
- apply NoDup_filter, window_dates_NoDup.
- intros d. rewrite in_map_iff, filter_In, window_dates_In, has_temperature_In.
  split.
  + intros [r [Ed Hr]]. apply cell_rows_In in Hr.
    destruct Hr as [Hr [Eg [Hb Ht]]]. unfold between in Hb.
    apply andb_true_iff in Hb. split; [lia|]. exists r. tauto.
  + intros [Hw [r [Hr [Eg [Ed Ht]]]]]. exists r. split; [exact Ed|].
    apply cell_rows_In. unfold between. rewrite andb_true_iff. repeat split; try assumption; lia.
Qed.

(** C5: for a cell with a daily record in the window, the aggregate of
    the window is produced exactly when the days of the window with a
    (minimum) temperature are as many as the threshold; below it the
    cell yields nothing. *)
Theorem coverage_threshold (daily : list daily_row) (target m : Z) (g : string) :
  unique_keys daily ->
  has_record_in_window daily g target ->
  (exists t, In t (weekly_data daily target m) /\ geohash t = g)
  <-> (m <= valid_days daily g target)%Z.
Proof.
intros Hu Hrec. rewrite weekly_data_In, (days_count_valid_days _ _ Hu). tauto.
Qed.

Lemma daily_week_unique : unique_keys daily_week.
Proof.
unfold unique_keys. cbn.
repeat (constructor; [cbn [In]; intuition discriminate|]). constructor.
Qed.

(** The week of the sample table with threshold 3: cell abc1234, three
    days with a temperature, gets its aggregate; cell abc1235, two
    days, gets none. *)
Lemma coverage_threshold_witness :
  (exists t, In t (weekly_data daily_week 739013 3) /\ geohash t = "abc1234"%string)
  /\ ~ (exists t, In t (weekly_data daily_week 739013 3)
                  /\ geohash t = "abc1235"%string).
Proof.
split.
- apply (coverage_threshold 3 daily_week_unique).
  + exists (obs "abc1234" 739007 (Some 10) 1).
    split; [left; reflexivity|]. split; reflexivity.
  + vm_compute. discriminate.
- intros H. apply (coverage_threshold 3 daily_week_unique) in H.
  + vm_compute in H. apply H. reflexivity.
  + exists (obs "abc1235" 739007 (Some 12) 0).
    split; [do 4 right; left; reflexivity|]. split; reflexivity.
Defined.

(** *** The aggregates *)

Lemma agg_fold col : forall s n,
  snd (fold_left agg_step col (s, n)) = (n + List.length (non_null col))%nat
  /\ fst (fold_left agg_step col (s, n)) == s + total (non_null col).
Proof.
induction col as [|v col IH]; intros s n; cbn [fold_left non_null flat_map].
- cbn. split; [lia|]. rewrite Qplus_0_r. reflexivity.
- destruct v as [q|]; cbn [agg_step fst snd app].
  + destruct (IH (s + q) (S n)) as [Hn Hs]. fold (non_null col). split.
    * rewrite Hn. cbn [List.length]. lia.
    * rewrite Hs. cbn [total fold_right]. fold (total (non_null col)).
      rewrite Qplus_assoc. reflexivity.
  + apply IH.
Qed.

Lemma AVG_mean col : opt_Qeq (AVG col) (mean (non_null col)).
Proof.
unfold AVG. destruct (agg_fold col 0 0%nat) as [Hn Hs].
destruct (fold_left agg_step col (0, 0%nat)) as [s n]. cbn [fst snd] in Hn, Hs.
cbn [plus] in Hn. subst n. unfold mean.
destruct (non_null col) as [|q l]; cbn [List.length]; [exact I|].
cbn [opt_Qeq]. rewrite Hs, Qplus_0_l. reflexivity.
Qed.

Lemma SUM_sum_of col : opt_Qeq (SUM col) (sum_of (non_null col)).
Proof.
unfold SUM. destruct (agg_fold col 0 0%nat) as [Hn Hs].
destruct (fold_left agg_step col (0, 0%nat)) as [s n]. cbn [fst snd] in Hn, Hs.
cbn [plus] in Hn. subst n. unfold sum_of.
destruct (non_null col) as [|q l]; cbn [List.length]; [exact I|].
cbn [opt_Qeq]. rewrite Hs, Qplus_0_l. reflexivity.
Qed.

Lemma round_half_away_comp (q q' : Q) :
  q == q' -> round_half_away q = round_half_away q'.
Proof.
intros E. unfold round_half_away.
assert (Hb : Qle_bool 0 q = Qle_bool 0 q') by (rewrite E; reflexivity).
rewrite Hb. destruct (Qle_bool 0 q').
- apply Qfloor_comp. rewrite E. reflexivity.
- f_equal. apply Qfloor_comp. rewrite E. reflexivity.
Qed.

(** Equal numbers round to the same decimal. *)
Lemma ROUND2_comp (a b : option Q) : opt_Qeq a b -> ROUND2 a = ROUND2 b.
Proof.
destruct a as [x|], b as [y|]; cbn [opt_Qeq ROUND2]; try tauto.
intros E. do 3 f_equal. apply round_half_away_comp. rewrite E. reflexivity.
Qed.

Lemma cell_rows_counted daily g target :
  cell_rows daily g (target - 6) target = counted_rows daily g target.
Proof.
unfold cell_rows, counted_rows, window_rows.
induction daily as [|r daily IH]; cbn [filter]; [reflexivity|].
destruct (String.eqb (d_geohash r) g && between (target - 6) target r);
  cbn [andb filter]; rewrite IH; reflexivity.
Qed.

(** C6 as amended: every average of a produced aggregate is the mean,
    rounded to two decimals, of the field's non-null values over the
    daily records of the cell in the window that have a minimum
    temperature; total precipitation is the rounded sum of the non-null
    rain values over those records; a field without a value there is
    null. *)
Theorem aggregate_is_rounded_mean_of_counted_rows
        (daily : list daily_row) (target m : Z) (t : weekly_tuple) :
  In t (weekly_data daily target m) ->
  let rows := counted_rows daily (geohash t) target in
  avg_tmin t = ROUND2 (mean (non_null (map d_tmin rows)))
  /\ avg_tmax t = ROUND2 (mean (non_null (map d_tmax rows)))
  /\ avg_radiation t = ROUND2 (mean (non_null (map d_radiation rows)))
  /\ avg_rh t = ROUND2 (mean (non_null (map d_rh rows)))
  /\ avg_wind t = ROUND2 (mean (non_null (map d_wind rows)))
  /\ avg_et0 t = ROUND2 (mean (non_null (map d_et0 rows)))
  /\ total_rain t = ROUND2 (sum_of (non_null (map d_rain rows))).
Proof.
intros Hin. unfold weekly_data in Hin. apply in_flat_map in Hin.
destruct Hin as [g [_ Ht]]. unfold cell_step in Ht.
destruct (Z.of_nat (List.length (cell_rows daily g (target - 6) target)) >=? m)%Z;
  [|destruct Ht].
destruct Ht as [<-|[]]. cbn. rewrite cell_rows_counted.
repeat split; apply ROUND2_comp; first [apply AVG_mean | apply SUM_sum_of].
Qed.

(** The aggregate of cell abc1234 in the sample week. *)
Lemma aggregate_is_rounded_mean_of_counted_rows_witness :
  avg_tmin aggregate_abc1234
  = ROUND2 (mean (non_null (map d_tmin (counted_rows daily_week "abc1234" 739013))))
  /\ total_rain aggregate_abc1234
     = ROUND2 (sum_of (non_null (map d_rain (counted_rows daily_week "abc1234" 739013)))).
Proof.
assert (Hin : In aggregate_abc1234 (weekly_data daily_week 739013 3))
  by (left; vm_compute; reflexivity).
destruct (aggregate_is_rounded_mean_of_counted_rows _ _ _ _ Hin)
  as [H1 [_ [_ [_ [_ [_ H7]]]]]].
split; [exact H1|exact H7].
Defined.

(** C6 as worded fails on the code: in the sample week the aggregate of
    cell abc1234 has the rounded 10.33 for the mean 31/3 of its minimum
    temperatures, and 3 mm of rain where the records of the window sum
    to 8 mm, the day without a temperature being left out. *)
Lemma aggregate_not_plain_means :
  In aggregate_abc1234 (weekly_data daily_week 739013 3)
  /\ ~ opt_Qeq (avg_tmin aggregate_abc1234)
               (mean (non_null (map d_tmin (window_rows daily_week "abc1234" 739013))))
  /\ ~ opt_Qeq (total_rain aggregate_abc1234)
               (sum_of (non_null (map d_rain (window_rows daily_week "abc1234" 739013))))
  /\ ~ plain_means daily_week 739013 aggregate_abc1234.
Proof.
split; [left; vm_compute; reflexivity|].
split; [vm_compute; discriminate|].
split; [vm_compute; discriminate|].
intros [H _]. vm_compute in H. discriminate H.
Qed.

(** *** The upsert *)

Lemma aggregate_7days_eq now daily weekly target m :
  aggregate_7days now daily weekly target m
  = (execute_values now weekly (produced daily target m),
     List.length (produced daily target m)).
Proof.
assert (H : forall d,
  match grid_points daily (d - 6) d with
  | [] => (weekly, 0%nat)
  | _ :: _ => (execute_values now weekly (weekly_data daily d m),
               List.length (weekly_data daily d m))
  end = (execute_values now weekly (weekly_data daily d m),
         List.length (weekly_data daily d m))).
{ intros d. unfold weekly_data.
  destruct (grid_points daily (d - 6) d); reflexivity. }
unfold aggregate_7days, produced. destruct target as [d|]; [apply H|].
destruct (max_date daily) as [d|]; [apply H|reflexivity].
Qed.

Lemma same_key_eq t r : same_key t r = true <-> weekly_key r = tuple_key t.
Proof. apply DailyProps.key_eqb_eq. Qed.

Lemma same_key_derived t r :
  same_key t r = key_eqb (tuple_key (derived r)) (tuple_key t).
Proof. reflexivity. Qed.

Lemma has_weekly_In k tbl : has_weekly k tbl = true <-> In k (map weekly_key tbl).
Proof. apply (@keyed_existsb_In _ _ weekly_key key_eqb DailyProps.key_eqb_eq). Qed.

Lemma upsert_keys now tbl t :
  map weekly_key (upsert now tbl t)
  = if has_weekly (tuple_key t) tbl then map weekly_key tbl
    else map weekly_key tbl ++ [tuple_key t].
Proof.
unfold upsert. change (existsb (same_key t) tbl) with (has_weekly (tuple_key t) tbl).
destruct (has_weekly (tuple_key t) tbl).
- rewrite map_map. apply map_ext. intros r.
  destruct (same_key t r) eqn:E; [|reflexivity].
  apply same_key_eq in E. symmetry. exact E.
- rewrite map_app. reflexivity.
Qed.

Lemma upsert_unique now tbl t : weekly_unique tbl -> weekly_unique (upsert now tbl t).
Proof.
unfold weekly_unique. rewrite upsert_keys.
destruct (has_weekly (tuple_key t) tbl) eqn:E; intros H; [exact H|].
apply (Permutation_NoDup (l := tuple_key t :: map weekly_key tbl)).
- apply Permutation_cons_append.
- constructor; [|exact H]. intros Hin. apply has_weekly_In in Hin. congruence.
Qed.

Lemma upsert_has_weekly now tbl t k :
  has_weekly k (upsert now tbl t) = true
  <-> has_weekly k tbl = true \/ k = tuple_key t.
Proof.
rewrite !has_weekly_In, upsert_keys.
destruct (has_weekly (tuple_key t) tbl) eqn:E.
- split; [left; assumption|]. intros [H| ->]; [exact H|].
  apply has_weekly_In. exact E.
- rewrite in_app_iff. cbn [In]. intuition congruence.
Qed.

(** The rows under the key of the upsert hold its fields; when the key
    was stored, their stamp is that of the upsert. *)
Lemma upsert_matching now tbl t r :
  In r (upsert now tbl t) -> same_key t r = true ->
  derived r = t
  /\ (has_weekly (tuple_key t) tbl = true -> w_updated_at r = At now).
Proof.
unfold upsert. change (existsb (same_key t) tbl) with (has_weekly (tuple_key t) tbl).
destruct (has_weekly (tuple_key t) tbl) eqn:E; intros Hin Hk.
- apply in_map_iff in Hin. destruct Hin as [r0 [<- _]].
  destruct (same_key t r0) eqn:E0.
  + split; [destruct t; reflexivity|reflexivity].
  + congruence.
- apply in_app_or in Hin. destruct Hin as [Hin|[<-|[]]].
  + exfalso. apply same_key_eq in Hk.
    assert (has_weekly (tuple_key t) tbl = true); [|congruence].
    apply has_weekly_In. rewrite <- Hk. apply in_map. exact Hin.
  + split; [destruct t; reflexivity|discriminate].
Qed.

(** The rows under the other keys are rows of the table before. *)
Lemma upsert_other now tbl t r :
  In r (upsert now tbl t) -> same_key t r = false -> In r tbl.
Proof.
unfold upsert. destruct (existsb (same_key t) tbl); intros Hin Hk.
- apply in_map_iff in Hin. destruct Hin as [r0 [E Hr0]].
  destruct (same_key t r0) eqn:E0; [|subst r; exact Hr0].
  subst r. cbn in Hk. unfold same_key, weekly_key in Hk. cbn in Hk.
  rewrite (proj2 (DailyProps.key_eqb_eq _ _) eq_refl) in Hk. discriminate.
- apply in_app_or in Hin. destruct Hin as [Hin|[<-|[]]]; [exact Hin|].
  unfold same_key, weekly_key in Hk. cbn in Hk.
  rewrite (proj2 (DailyProps.key_eqb_eq _ _) eq_refl) in Hk. discriminate.
Qed.

(** *** A batch of upserts *)

Lemma upserts_unique now ts : forall tbl,
  weekly_unique tbl -> weekly_unique (execute_values now tbl ts).
Proof.
unfold execute_values.
induction ts as [|t ts IH]; intros tbl H; cbn [fold_left]; [exact H|].
apply IH, upsert_unique, H.
Qed.

Lemma upserts_keeps now ts k : forall tbl,
  has_weekly k tbl = true -> has_weekly k (execute_values now tbl ts) = true.
Proof.
unfold execute_values.
induction ts as [|t ts IH]; intros tbl H; cbn [fold_left]; [exact H|].
apply IH, upsert_has_weekly. left. exact H.
Qed.

Lemma upserts_stores now ts : forall tbl t,
  In t ts -> has_weekly (tuple_key t) (execute_values now tbl ts) = true.
Proof.
induction ts as [|t0 ts IH]; intros tbl t Hin; [destruct Hin|].
unfold execute_values. cbn [fold_left]. destruct Hin as [<-|Hin].
- apply (upserts_keeps now ts). apply upsert_has_weekly. right. reflexivity.
- apply IH. exact Hin.
Qed.

Lemma upserts_other now ts r : forall tbl,
  (forall t, In t ts -> same_key t r = false) ->
  In r (execute_values now tbl ts) -> In r tbl.
Proof.
unfold execute_values.
induction ts as [|t0 ts IH]; intros tbl Hk Hin; cbn [fold_left] in Hin; [exact Hin|].
apply (upsert_other now tbl t0).
- apply IH; [|exact Hin]. intros t Ht. apply Hk. right. exact Ht.
- apply Hk. left. reflexivity.
Qed.

Lemma upserts_matching now ts : forall tbl t r,
  NoDup (map tuple_key ts) -> In t ts ->
  In r (execute_values now tbl ts) -> same_key t r = true ->
  derived r = t
  /\ (has_weekly (tuple_key t) tbl = true -> w_updated_at r = At now).
Proof.
induction ts as [|t0 ts IH]; intros tbl t r Hnd Ht Hr Hk; [destruct Ht|].
cbn [map] in Hnd. inversion Hnd as [|? ? Hnotin Hnd']; subst.
unfold execute_values in Hr. cbn [fold_left] in Hr. destruct Ht as [<-|Ht].
- apply (upsert_matching now tbl t0); [|exact Hk].
  apply (upserts_other now ts); [|exact Hr].
  intros t' Ht'. destruct (same_key t' r) eqn:E; [|reflexivity].
  exfalso. apply Hnotin. apply same_key_eq in E. apply same_key_eq in Hk.
  rewrite <- Hk, E. apply in_map. exact Ht'.
- destruct (IH (upsert now tbl t0) t r Hnd' Ht Hr Hk) as [Hd Hs].
  split; [exact Hd|]. intros He. apply Hs. apply upsert_has_weekly. left. exact He.
Qed.

(** An upsert of fields that are already stored under their key
    changes no derived field. *)
Lemma upsert_same_derived now tbl t :
  (forall r, In r tbl -> same_key t r = true -> derived r = t) ->
  has_weekly (tuple_key t) tbl = true ->
  map derived (upsert now tbl t) = map derived tbl.
Proof.
intros Hd He. unfold upsert.
change (existsb (same_key t) tbl) with (has_weekly (tuple_key t) tbl). rewrite He.
rewrite map_map. apply map_ext_in. intros r Hr.
destruct (same_key t r) eqn:E; [|reflexivity].
rewrite (Hd r Hr E). destruct t; reflexivity.
Qed.

Lemma has_weekly_derived k tbl :
  has_weekly k tbl = existsb (fun u => key_eqb (tuple_key u) k) (map derived tbl).
Proof.
unfold has_weekly. induction tbl as [|r tbl IH]; cbn [existsb map]; [reflexivity|].
rewrite IH. reflexivity.
Qed.

Lemma stored_under_key_derived t tbl tbl' :
  map derived tbl' = map derived tbl ->
  (forall r, In r tbl -> same_key t r = true -> derived r = t) ->
  forall r, In r tbl' -> same_key t r = true -> derived r = t.
Proof.
intros E H r Hr Hk.
assert (Hin : In (derived r) (map derived tbl)) by (rewrite <- E; apply in_map, Hr).
apply in_map_iff in Hin. destruct Hin as [r0 [E0 Hr0]].
rewrite <- E0. apply H; [exact Hr0|].
rewrite same_key_derived, E0, <- same_key_derived. exact Hk.
Qed.

Lemma upserts_same_derived now ts : forall tbl,
  (forall t, In t ts ->
     has_weekly (tuple_key t) tbl = true
     /\ forall r, In r tbl -> same_key t r = true -> derived r = t) ->
  map derived (execute_values now tbl ts) = map derived tbl.
Proof.
unfold execute_values.
induction ts as [|t0 ts IH]; intros tbl H; cbn [fold_left]; [reflexivity|].
destruct (H t0 (or_introl eq_refl)) as [He Hd].
pose proof (@upsert_same_derived now tbl t0 Hd He) as E.
rewrite IH; [exact E|].
intros t Ht. destruct (H t (or_intror Ht)) as [He' Hd']. split.
- rewrite has_weekly_derived, E, <- has_weekly_derived. exact He'.
- eapply stored_under_key_derived; eassumption.
Qed.

(** *** The keys of a run *)

Lemma weekly_data_keys daily s e m gs :
  NoDup gs -> NoDup (map tuple_key (flat_map (cell_step daily s e m) gs)).
Proof.
induction gs as [|g gs IH]; intros H; cbn [flat_map map]; [constructor|].
inversion H as [|? ? Hnotin Hnd]; subst.
rewrite map_app. unfold cell_step at 1.
destruct (Z.of_nat (List.length (cell_rows daily g s e)) >=? m)%Z;
  cbn [map app]; [|apply IH; exact Hnd].
constructor; [|apply IH; exact Hnd].
intros Hin. apply in_map_iff in Hin. destruct Hin as [t [Ek Ht]].
apply in_flat_map in Ht. destruct Ht as [g' [Hg' Ht]].
apply cell_step_In in Ht. destruct Ht as [Eg _].
unfold tuple_key in Ek. cbn in Ek. injection Ek as Ek _.
apply Hnotin. rewrite <- Ek, Eg. exact Hg'.
Qed.

Lemma produced_keys daily target m : NoDup (map tuple_key (produced daily target m)).
Proof.
unfold produced, weekly_data.
destruct target as [d|]; [apply weekly_data_keys, grid_points_NoDup|].
destruct (max_date daily) as [d|]; [apply weekly_data_keys, grid_points_NoDup|].
constructor.
Qed.

Lemma upserts_in_place now ts : forall tbl,
  exists new, map weekly_key (execute_values now tbl ts) = map weekly_key tbl ++ new.
Proof.
unfold execute_values.
induction ts as [|t ts IH]; intros tbl; cbn [fold_left].
- exists []. symmetry. apply app_nil_r.
- destruct (IH (upsert now tbl t)) as [new E]. rewrite E, upsert_keys.
  destruct (has_weekly (tuple_key t) tbl).
  + exists new. reflexivity.
  + exists (tuple_key t :: new). rewrite <- app_assoc. reflexivity.
Qed.

(** C4: a run of the aggregator keeps one row per (cell, window end);
    under the key of every aggregate it computes the table then holds
    exactly one row, with the computed fields, in the place of the row
    that was there, and stamped with the time of the run when there was
    one; the rows under the other keys are rows of the table before.
    A second run over the same daily data returns the same count
    and leaves every derived field of every row as it was; the rows of
    the computed aggregates carry the time of the second run. *)
Theorem weekly_rerun_replaces (now1 now2 : Z) (daily : list daily_row)
        (weekly : list weekly_row) (target : option Z) (m : Z) :
  weekly_unique weekly ->
  let first := aggregate_7days now1 daily weekly target m in
  let second := aggregate_7days now2 daily (fst first) target m in
  weekly_unique (fst first) /\ weekly_unique (fst second)
  /\ (exists new, map weekly_key (fst first) = map weekly_key weekly ++ new)
  /\ (forall t r, In t (produced daily target m) -> In r (fst first) ->
                  same_key t r = true ->
                  derived r = t
                  /\ (has_weekly (tuple_key t) weekly = true ->
                      w_updated_at r = At now1))
  /\ (forall t, In t (produced daily target m) ->
                count_weekly (tuple_key t) (fst first) = 1%nat)
  /\ (forall r, In r (fst first) ->
                (forall t, In t (produced daily target m) -> same_key t r = false) ->
                In r weekly)
  /\ snd second = snd first
  /\ map derived (fst second) = map derived (fst first)
  /\ (forall t r, In t (produced daily target m) -> In r (fst second) ->
                  same_key t r = true -> w_updated_at r = At now2).
Proof.
intros Hu first second. subst second first. rewrite !aggregate_7days_eq.
cbn [fst snd].
set (ts := produced daily target m).
set (T1 := execute_values now1 weekly ts).
assert (Hnd : NoDup (map tuple_key ts)) by apply produced_keys.
assert (Hu1 : weekly_unique T1) by (apply upserts_unique; exact Hu).
assert (Hmatch : forall t r, In t ts -> In r T1 -> same_key t r = true ->
                   derived r = t
                   /\ (has_weekly (tuple_key t) weekly = true ->
                       w_updated_at r = At now1)).
{ intros t r Ht Hr Hk. eapply upserts_matching; eassumption. }
assert (Hstored : forall t, In t ts -> has_weekly (tuple_key t) T1 = true).
{ intros t Ht. apply upserts_stores. exact Ht. }
split; [exact Hu1|].
split; [apply upserts_unique; exact Hu1|].
split; [apply upserts_in_place|].
split; [exact Hmatch|].
split.
{ intros t Ht. unfold count_weekly.
  apply (@keyed_count_one _ _ weekly_key key_eqb DailyProps.key_eqb_eq);
    [exact Hu1|apply Hstored; exact Ht]. }
split; [intros r Hr Hk; eapply upserts_other; eassumption|].
split; [reflexivity|].
split.
{ apply upserts_same_derived. intros t Ht. split; [apply Hstored; exact Ht|].
  intros r Hr Hk. apply (Hmatch t r Ht Hr Hk). }
intros t r Ht Hr Hk.
apply (upserts_matching now2 ts T1 t r Hnd Ht Hr Hk).
apply Hstored. exact Ht.
Qed.

(** Two runs over the sample week, at times 100 and 200, from an empty
    table: one aggregate, for cell abc1234, stored once, and after the
    second run it carries the second time. *)
Lemma weekly_rerun_replaces_witness :
  fst (aggregate_7days 200 daily_week
         (fst (aggregate_7days 100 daily_week [] (Some 739013%Z) 3))
         (Some 739013%Z) 3)
  = [ {| w_geohash := "abc1234"; w_start_date := 739007; w_end_date := 739013;
         w_avg_tmin := Some 10.33; w_avg_tmax := Some 25.00;
         w_avg_radiation := Some 20.00; w_total_rain := Some 3.00;
         w_avg_rh := Some 60.00; w_avg_wind := Some 2.00;
         w_avg_et0 := Some 4.00; w_updated_at := At 200 |} ]
  /\ count_weekly ("abc1234"%string, 739013%Z)
                  (fst (aggregate_7days 100 daily_week [] (Some 739013%Z) 3)) = 1%nat.
Proof.
assert (Hu : weekly_unique []) by constructor.
destruct (@weekly_rerun_replaces 100 200 daily_week [] (Some 739013%Z) 3 Hu)
  as [_ [_ [_ [_ [Hcount _]]]]].
split; [vm_compute; reflexivity|].
apply (Hcount aggregate_abc1234). left. vm_compute. reflexivity.
Defined.

End AggregateProps.

(** * Further properties *)

(** ** The ET0 engine: when it raises and when it gives up *)

Module Et0More.

Import Et0 Et0Props Vocabulary Terms.

(** X1: two faults leave [compute_et0] from the lines before its
    [try]: with known inputs and a radiation that is not negative, a
    mean temperature of -237.3 raises ZeroDivisionError and one from
    -243.2 up to -237.3 raises the OverflowError of [math.exp]; no
    exception of another kind leaves the function. *)
Theorem compute_et0_raises_before_try (exp : Q -> Q) (fpow : Q -> Q -> Q)
        (tmin tmax solar_rad rh wind altitude : Q) :
  0 <= solar_rad ->
  ((tmin + tmax) / 2 + 237.3 == 0 ->
   compute_et0 exp fpow (Some tmin) (Some tmax) (Some solar_rad) (Some rh) (Some wind)
               altitude = Raise ZeroDivisionError)
  /\ (-243.2 <= (tmin + tmax) / 2 -> (tmin + tmax) / 2 < -237.3 ->
      compute_et0 exp fpow (Some tmin) (Some tmax) (Some solar_rad) (Some rh)
                  (Some wind) altitude = Raise OverflowError)
  /\ (forall e,
        compute_et0 exp fpow (Some tmin) (Some tmax) (Some solar_rad) (Some rh)
                    (Some wind) altitude = Raise e ->
        e = ZeroDivisionError \/ e = OverflowError).
Proof.
intros Hr. split; [intros Hz; apply compute_et0_at_pole; assumption|].
split; [|intros e; apply compute_et0_raise_kind].
intros Hlo Hhi. apply compute_et0_overflow; [exact Hr| |].
- intros E. lra.
- apply exp_argument_overflows; assumption.
Qed.

(** A mean temperature of -240 degrees. *)
Lemma compute_et0_raises_before_try_witness :
  compute_et0 exp_approx pow_approx (Some (-241)) (Some (-239)) (Some 22.5) (Some 65)
              (Some 2.1) 143 = Raise OverflowError.
Proof.
assert (Hr : 0 <= 22.5) by discriminate.
apply (proj1 (proj2 (@compute_et0_raises_before_try exp_approx pow_approx
                       (-241) (-239) 22.5 65 2.1 143 Hr)));
  [discriminate|reflexivity].
Defined.

(** X30: with temperatures in range (a mean other than -237.3, an
    argument on which [math.exp] returns, a square in the range of a
    float) and an altitude whose power is in range, no exception
    leaves [compute_et0]: the faults of the [try] block come out as
    [None]. *)
Theorem compute_et0_returns_in_range (exp : Q -> Q) (fpow : Q -> Q -> Q)
        (tmin tmax solar_rad rh wind altitude : Q) :
  in_range tmin tmax -> Qabs (pressure_base altitude) <= BASE_MAX ->
  exists x, compute_et0 exp fpow (Some tmin) (Some tmax) (Some solar_rad) (Some rh)
                        (Some wind) altitude = Ok x.
Proof.
intros Hin Halt.
destruct (Qlt_le_dec solar_rad 0) as [Hneg|Hr].
- exists None. apply compute_et0_unknown. do 5 right.
  exists solar_rad. split; [reflexivity|exact Hneg].
- destruct (psychrometric_constant_returns fpow Halt) as [gamma Hg].
  rewrite (@compute_et0_try exp fpow tmin tmax solar_rad rh wind altitude gamma
             Hr Hin Hg).
  match goal with
  | |- exists x, try_except (penman_monteith ?t ?e1 ?e2 ?w1 ?r1 ?d ?g) _ = _ =>
      destruct (try_penman_monteith_returns t e1 e2 w1 r1 d g) as [x [Hx _]]
  end.
  exists x. exact Hx.
Qed.

(** The observation of the specification's scenario. *)
Lemma compute_et0_returns_in_range_witness :
  exists x, compute_et0 exp_approx pow_approx (Some 15.5) (Some 28.3) (Some 22.5)
                        (Some 65) (Some 2.1) 143 = Ok x.
Proof.
apply compute_et0_returns_in_range.
- split; [intros E; discriminate E|split; discriminate].
- vm_compute. discriminate.
Defined.

(** X2: with a mean temperature of -273 and an altitude whose power
    is in range, the division of the wind term fails inside the [try],
    and [compute_et0] returns [None]. *)
Theorem compute_et0_none_at_minus_273 (exp : Q -> Q) (fpow : Q -> Q -> Q)
        (tmin tmax solar_rad rh wind altitude : Q) :
  (tmin + tmax) / 2 + 273 == 0 ->
  Qabs (pressure_base altitude) <= BASE_MAX ->
  compute_et0 exp fpow (Some tmin) (Some tmax) (Some solar_rad) (Some rh) (Some wind)
              altitude = Ok None.
Proof.
intros Hz Halt. destruct (Qlt_le_dec solar_rad 0) as [Hneg|Hr].
- unfold compute_et0. apply Qltb_lt in Hneg. rewrite Hneg. reflexivity.
- assert (Ht : (tmin + tmax) / 2 == -273) by lra.
  assert (Hin : in_range tmin tmax).
  { split; [intros E; lra|]. split.
    - unfold exp_argument. rewrite Ht. discriminate.
    - rewrite Ht. vm_compute. discriminate. }
  destruct (psychrometric_constant_returns fpow Halt) as [gamma Hg].
  rewrite (@compute_et0_try exp fpow tmin tmax solar_rad rh wind altitude gamma
             Hr Hin Hg).
  unfold penman_monteith. cbn [as_num bind]. rewrite (pydiv_zero _ Hz). reflexivity.
Qed.

Lemma compute_et0_none_at_minus_273_witness :
  compute_et0 exp_approx pow_approx (Some (-280)) (Some (-266)) (Some 22.5) (Some 65)
              (Some 2.1) 143 = Ok None.
Proof.
apply compute_et0_none_at_minus_273; [reflexivity|vm_compute; discriminate].
Defined.

(** Without the bound on the altitude the power overflows first, in
    the lines before the [try]. *)
Example compute_et0_overflows_far_below :
  compute_et0 exp_approx pow_approx (Some (-280)) (Some (-266)) (Some 22.5) (Some 65)
              (Some 2.1) (- 10 ^ 80) = Raise OverflowError.
Proof. vm_compute. reflexivity. Qed.

(** X3: above 293/0.0065 metres the power of the pressure formula has a
    negative base, the psychrometric constant is complex or the power
    overflows, and [compute_et0] never returns a number. *)
Theorem compute_et0_no_number_at_high_altitude (exp : Q -> Q) (fpow : Q -> Q -> Q)
        (tmin tmax solar_rad rh wind : option Q) (altitude : Q) :
  293 - 0.0065 * altitude < 0 ->
  forall v, compute_et0 exp fpow tmin tmax solar_rad rh wind altitude <> Ok (Some v).
Proof.
intros Halt v H.
assert (Hg : forall gamma, psychrometric_constant fpow altitude = Ok gamma ->
                           gamma = PyComplex).
{ unfold psychrometric_constant.
  assert (Hb : Qltb ((293 - 0.0065 * altitude) / 293) 0 = true).
  { apply Qltb_lt. unfold Qdiv.
    setoid_replace 0 with (0 * / 293) by ring.
    apply Qmult_lt_compat_r; [reflexivity|exact Halt]. }
  rewrite Hb. intros gamma. destruct (Qltb BASE_MAX _); [discriminate|].
  intros E. injection E as <-. reflexivity. }
destruct tmin as [a|], tmax as [b|], solar_rad as [r|], rh as [h|], wind as [w|];
  try discriminate H.
unfold compute_et0 in H. destruct (Qltb r 0); [discriminate H|].
destruct (saturation_vapor_pressure exp (Some ((a + b) / 2))) as [es|x];
  cbn [bind] in H; [|discriminate H].
destruct (as_num es) as [es'|x]; cbn [bind] in H; [|discriminate H].
destruct (delta_svp exp (Some ((a + b) / 2))) as [delta|x]; cbn [bind] in H;
  [|discriminate H].
destruct (psychrometric_constant fpow altitude) as [gamma|x] eqn:Eg; cbn [bind] in H;
  [|discriminate H].
rewrite (Hg gamma eq_refl) in H.
unfold penman_monteith in H.
destruct (as_num delta); cbn [bind try_except] in H; [|discriminate H].
destruct (pydiv 900 ((a + b) / 2 + 273)); cbn [bind try_except] in H; discriminate H.
Qed.

Lemma compute_et0_no_number_at_high_altitude_witness :
  compute_et0 exp_approx pow_approx (Some 15.5) (Some 28.3) (Some 22.5) (Some 65)
              (Some 2.1) 50000 <> Ok (Some 6.80).
Proof.
apply compute_et0_no_number_at_high_altitude. reflexivity.
Defined.

End Et0More.

(** ** The pass of compute_et0.py over the exchange file *)

Module Et0FileProps.

Import Exchange Et0File Terms.

Section Pass.

Variable exp : Q -> Q.
Variable fpow : Q -> Q -> Q.

Lemma process_point_inv point results valid_count results' valid_count' :
  process_point exp fpow point results valid_count = Ok (results', valid_count') ->
  (find complete (weather_data point) = None
   /\ results' = results /\ valid_count' = valid_count)
  \/ exists d r,
       find complete (weather_data point) = Some d
       /\ row_of_day exp fpow r (point, d)
       /\ results' = results ++ [r]
       /\ valid_count' = (valid_count + if known (c_et0 r) then 1 else 0)%nat.
Proof.
unfold process_point. destruct (find complete (weather_data point)) as [d|].
- destruct (Et0.compute_et0 exp fpow (tmin d) (tmax d) (radiation d) (rh d) (wind d)
                            Et0.ALTITUDE_DEFAULT) as [et0|e] eqn:E;
    cbn [bind]; [|discriminate].
  intros H. injection H as <- <-. right. eexists d, _.
  split; [reflexivity|]. split; [|split; [reflexivity|]].
  + unfold row_of_day. cbn. repeat split. exact E.
  + cbn. destruct et0; cbn; lia.
- intros H. injection H as <- <-. left. repeat split.
Qed.

Lemma process_points_inv points : forall results valid_count results' valid_count',
  process_points exp fpow points results valid_count = Ok (results', valid_count') ->
  exists new,
    results' = results ++ new
    /\ Forall2 (row_of_day exp fpow) new (selected_days points)
    /\ valid_count'
       = (valid_count + List.length (filter (fun r => known (c_et0 r)) new))%nat.
Proof.
induction points as [|p points IH]; intros rs n rs' n' H; cbn [process_points] in H.
- injection H as <- <-. exists []. rewrite app_nil_r. cbn.
  split; [reflexivity|]. split; [constructor|lia].
- destruct (process_point exp fpow p rs n) as [[rs1 n1]|e] eqn:E; cbn [bind] in H;
    [|discriminate].
  cbn [fst snd] in H. destruct (IH _ _ _ _ H) as [new [-> [Hall ->]]].
  unfold selected_days. cbn [flat_map]. fold (selected_days points).
  destruct (process_point_inv _ _ _ E) as [[Hf [-> ->]]|[d [r [Hf [Hr [-> ->]]]]]];
    rewrite Hf.
  + exists new. cbn [app]. repeat split; assumption.
  + exists (r :: new). rewrite <- app_assoc. cbn [app filter].
    split; [reflexivity|]. split; [constructor; assumption|].
    destruct (known (c_et0 r)); cbn [List.length]; lia.
Qed.

Lemma selected_days_length data : (List.length (selected_days data) <= List.length data)%nat.
Proof.
induction data as [|e data IH]; [cbn; lia|].
unfold selected_days. cbn [flat_map]. fold (selected_days data).
rewrite length_app.
destruct (find complete (weather_data e)); cbn [List.length]; lia.
Qed.

Lemma selected_days_complete data :
  Forall (fun ed => In (snd ed) (weather_data (fst ed)) /\ complete (snd ed) = true)
         (selected_days data).
Proof.
induction data as [|e data IH]; [constructor|].
unfold selected_days. cbn [flat_map]. fold (selected_days data).
destruct (find complete (weather_data e)) as [d|] eqn:E; cbn [app]; [|exact IH].
constructor; [|exact IH]. cbn. apply find_some in E. exact E.
Qed.

Lemma rows_inputs_known rows eds :
  Forall2 (row_of_day exp fpow) rows eds ->
  Forall (fun ed => In (snd ed) (weather_data (fst ed)) /\ complete (snd ed) = true)
         eds ->
  Forall (fun r => known (c_tmin r) = true /\ known (c_tmax r) = true
                   /\ known (c_radiation r) = true /\ known (c_rh r) = true
                   /\ known (c_wind r) = true) rows.
Proof.
induction 1 as [|r ed rows eds Hr Hall IH]; intros Hc; [constructor|].
inversion Hc as [|? ? [_ Hcomp] Hc']; subst.
constructor; [|apply IH; assumption].
destruct Hr as (_ & _ & _ & _ & -> & -> & -> & -> & -> & _).
unfold complete in Hcomp. rewrite !andb_true_iff in Hcomp. tauto.
Qed.

End Pass.

(** X4: the table of [process_json_file] has at most one row per entry
    of the file, each row has its five inputs present, and the count of
    valid ET0 that the function prints is the number of rows whose ET0
    is not [None]. *)
Theorem process_json_file_rows (exp : Q -> Q) (fpow : Q -> Q -> Q)
        (data : list entry) (rows : list calc_row) (valid_count : nat) :
  process_json_file exp fpow data = Ok (rows, valid_count) ->
  (List.length rows <= List.length data)%nat
  /\ valid_count = List.length (filter (fun r => known (c_et0 r)) rows)
  /\ Forall (fun r => known (c_tmin r) = true /\ known (c_tmax r) = true
                      /\ known (c_radiation r) = true /\ known (c_rh r) = true
                      /\ known (c_wind r) = true) rows.
Proof.
intros H. unfold process_json_file in H.
destruct (process_points_inv _ _ _ _ _ H) as [new [E [Hall Hn]]].
cbn [app] in E. subst new. cbn [plus] in Hn.
split; [|split; [exact Hn|]].
- rewrite (Forall2_length Hall). apply selected_days_length.
- eapply rows_inputs_known; [exact Hall|apply selected_days_complete].
Qed.

Lemma process_json_file_rows_witness :
  exists rows n,
    process_json_file Et0.exp_approx Et0.pow_approx
                      [Vocabulary.entry_abc [Vocabulary.day_b; Vocabulary.day_first]]
    = Ok (rows, n)
    /\ (List.length rows <= 1)%nat /\ n = 1%nat.
Proof.
eexists. eexists.
assert (H : process_json_file Et0.exp_approx Et0.pow_approx
              [Vocabulary.entry_abc [Vocabulary.day_b; Vocabulary.day_first]]
            = Ok ([{| c_geohash := "abc1234"; c_latitude := Some 36.5;
                      c_longitude := Some 8.9; c_date := 739007;
                      c_tmin := Some 15.5; c_tmax := Some 28.3;
                      c_radiation := Some 22.5; c_rh := Some 65;
                      c_wind := Some 2.1; c_et0 := Some 6.80 |}], 1%nat))
  by (vm_compute; reflexivity).
split; [exact H|].
destruct (process_json_file_rows _ _ _ H) as [Hlen [Hn _]]. split; [exact Hlen|exact Hn].
Defined.

(** X5: the rows of [process_json_file] are, in the order of the file,
    those of the entries that have a day with all five inputs; each row
    carries the cell of its entry and the date, the inputs and the ET0
    of the first such day of the entry's series. *)
Theorem process_json_file_first_complete_day (exp : Q -> Q) (fpow : Q -> Q -> Q)
        (data : list entry) (rows : list calc_row) (valid_count : nat) :
  process_json_file exp fpow data = Ok (rows, valid_count) ->
  Forall2 (fun r ed =>
             c_geohash r = geohash_text (geohash (fst ed))
             /\ c_date r = date (snd ed)
             /\ c_tmin r = tmin (snd ed) /\ c_tmax r = tmax (snd ed)
             /\ c_radiation r = radiation (snd ed) /\ c_rh r = rh (snd ed)
             /\ c_wind r = wind (snd ed)
             /\ Et0.compute_et0 exp fpow (c_tmin r) (c_tmax r) (c_radiation r)
                                (c_rh r) (c_wind r) Et0.ALTITUDE_DEFAULT
                = Ok (c_et0 r))
          rows (selected_days data).
Proof.
intros H. unfold process_json_file in H.
destruct (process_points_inv _ _ _ _ _ H) as [new [E [Hall _]]].
cbn [app] in E. subst new.
eapply Forall2_impl; [|exact Hall].
intros r ed (Hg & _ & _ & Hd & H1 & H2 & H3 & H4 & H5 & Het0).
rewrite H1, H2, H3, H4, H5. repeat split; assumption.
Qed.

Lemma process_json_file_first_complete_day_witness :
  selected_days [Vocabulary.entry_abc [Vocabulary.day_b; Vocabulary.day_first]]
  = [(Vocabulary.entry_abc [Vocabulary.day_b; Vocabulary.day_first], Vocabulary.day_b)]
  /\ exists r, Forall2 (fun (r : calc_row) (ed : entry * day) => c_date r = date (snd ed))
                       [r] [(Vocabulary.entry_abc [Vocabulary.day_b; Vocabulary.day_first],
                             Vocabulary.day_b)].
Proof.
split; [reflexivity|].
assert (H : exists rows n, process_json_file Et0.exp_approx Et0.pow_approx
              [Vocabulary.entry_abc [Vocabulary.day_b; Vocabulary.day_first]]
            = Ok (rows, n)) by (eexists; eexists; vm_compute; reflexivity).
destruct H as [rows [n H]].
pose proof (process_json_file_first_complete_day _ _ _ H) as Hall.
inversion Hall as [|r ed rows' eds Hr Hrest]; subst.
exists r. constructor; [|constructor]. apply Hr.
Defined.

End Et0FileProps.

(** ** The weather fetcher: series, faults and counters *)

Module FetchMore.

Import Exchange Fetch Terms.

Lemma getitem_some {V : Type} (k : string) (d : list (string * V)) (v : V) :
  dict_get k d = Some v -> getitem k d = Ok v.
Proof. intros H. unfold getitem. rewrite H. reflexivity. Qed.

Lemma getitem_none {V : Type} (k : string) (d : list (string * V)) :
  dict_get k d = None -> getitem k d = Raise KeyError.
Proof. intros H. unfold getitem. rewrite H. reflexivity. Qed.

Lemma record_of_date data k d : record_of data k = Ok d -> date d = k.
Proof.
unfold record_of. intros H.
repeat match type of H with
       | context [value data ?n k] =>
           destruct (value data n k); cbn [bind] in H; [|discriminate H]
       end.
injection H as <-. reflexivity.
Qed.

Lemma records_of_dates data keys : forall days,
  records_of data keys = Ok days -> map date days = keys.
Proof.
induction keys as [|k keys IH]; intros days H; cbn [records_of] in H.
- injection H as <-. reflexivity.
- destruct (record_of data k) as [d|] eqn:Ed; cbn [bind] in H; [|discriminate].
  destruct (records_of data keys) as [ds|]; cbn [bind] in H; [|discriminate].
  injection H as <-. cbn [map]. rewrite (@record_of_date _ _ _ Ed), (IH ds eq_refl).
  reflexivity.
Qed.

Lemma fetch_data_payload request lat lon n data t2m_min :
  request lat lon n = Payload data ->
  dict_get "T2M_MIN" data = Some (Series t2m_min) ->
  fetch_data request lat lon n = records_of data (map fst t2m_min).
Proof.
intros Hr Hm. unfold fetch_data. rewrite Hr.
destruct data; [discriminate Hm|]. rewrite Hm. reflexivity.
Qed.

(** X6: the series that [fetch_data] returns has one record per date
    key of T2M_MIN, in the order of the payload. *)
Theorem fetch_data_keeps_dates (request : Q -> Q -> nat -> response)
        (lat lon : Q) (n : nat) (data : parameters) (t2m_min : series)
        (days : list day) :
  request lat lon n = Payload data ->
  dict_get "T2M_MIN" data = Some (Series t2m_min) ->
  fetch_data request lat lon n = Ok days ->
  map date days = map fst t2m_min.
Proof.
intros Hr Hm H. rewrite (@fetch_data_payload _ _ _ _ _ _ Hr Hm) in H.
eapply records_of_dates. exact H.
Qed.

Lemma fetch_data_keeps_dates_witness :
  map date [Vocabulary.day_b] = [739007%Z].
Proof.
apply (@fetch_data_keeps_dates Vocabulary.request_timeout 36.6 8.9 7
         Vocabulary.payload_b [(739007%Z, Some 15.5)] [Vocabulary.day_b]);
  vm_compute; reflexivity.
Defined.

(** *** The exceptions of [fetch_data] *)








(** *** The loop of the main block *)

Lemma fetch_all_app request before : forall after acc n,
  fetch_all request (before ++ after) acc n
  = (r <- fetch_all request before acc n ;;
     fetch_all request after (fst r) (snd r)).
Proof.
induction before as [|p before IH]; intros after acc n; cbn [app fetch_all];
  [reflexivity|].
destruct (coordinates p) as [lat lon].
destruct (fetch_data request lat lon 7%nat) as [dd|e]; cbn [bind]; [|reflexivity].
destruct dd as [|sample dd']; [apply IH|].
destruct (format_1f (tmin sample)); cbn [bind]; [|reflexivity].
destruct (format_1f (tmax sample)); cbn [bind]; [|reflexivity].
apply IH.
Qed.

Lemma fetch_all_inv request grid : forall acc n out m,
  fetch_all request grid acc n = Ok (out, m) ->
  exists new,
    out = acc ++ new /\ m = (n + List.length new)%nat
    /\ (List.length new <= List.length grid)%nat
    /\ Forall (fun e => exists d ds, weather_data e = d :: ds
                                     /\ tmin d <> None /\ tmax d <> None) new.
Proof.
induction grid as [|p grid IH]; intros acc n out m H; cbn [fetch_all] in H.
- injection H as <- <-. exists []. rewrite app_nil_r. cbn.
  repeat split; [lia|lia|constructor].
- destruct (coordinates p) as [lat lon].
  destruct (fetch_data request lat lon 7%nat) as [dd|e]; cbn [bind] in H;
    [|discriminate].
  destruct dd as [|sample dd'].
  + destruct (IH _ _ _ _ H) as (new & -> & -> & Hlen & Hall).
    exists new. cbn [List.length]. repeat split; [lia|exact Hall].
  + destruct (tmin sample) as [t1|] eqn:E1; cbn [format_1f bind] in H; [|discriminate].
    destruct (tmax sample) as [t2|] eqn:E2; cbn [format_1f bind] in H; [|discriminate].
    destruct (IH _ _ _ _ H) as (new & -> & -> & Hlen & Hall).
    eexists (_ :: new). rewrite <- app_assoc. cbn [app List.length].
    repeat split; [lia|lia|].
    constructor; [|exact Hall]. cbn. exists sample, dd'.
    rewrite E1, E2. repeat split; discriminate.
Qed.

(** X8: in the document that the main block saves, the successes are
    the saved entries, successes and failures add up to the number of
    grid points, and every saved entry has a non-empty series whose
    first day has a minimum and a maximum temperature. *)
Theorem main_counters (request : Q -> Q -> nat -> response)
        (grid_points : list grid_point) (out : output) :
  main request grid_points = Ok out ->
  total_grid_points out = List.length grid_points
  /\ successful_fetches out = List.length (results out)
  /\ (successful_fetches out + failed_fetches out)%nat = total_grid_points out
  /\ Forall (fun e => exists d ds, weather_data e = d :: ds
                                   /\ tmin d <> None /\ tmax d <> None)
            (results out).
Proof.
unfold main. intros H. destruct grid_points as [|p grid]; [discriminate|].
remember (p :: grid) as grid_points eqn:Eg. clear Eg.
destruct (fetch_all request grid_points [] 0%nat) as [[acc n]|] eqn:E;
  cbn [bind] in H; [|discriminate].
injection H as <-.
cbn [total_grid_points successful_fetches failed_fetches results].
destruct (fetch_all_inv _ _ _ _ E) as (new & -> & -> & Hlen & Hall).
cbn [app plus] in *. repeat split; [lia|exact Hall].
Qed.

Lemma main_counters_witness :
  exists out, main Vocabulary.request_timeout [Vocabulary.cell_a; Vocabulary.cell_b]
              = Ok out
              /\ successful_fetches out = 1%nat /\ failed_fetches out = 1%nat.
Proof.
assert (H : exists e, main Vocabulary.request_timeout
                        [Vocabulary.cell_a; Vocabulary.cell_b]
                      = Ok {| total_grid_points := 2; successful_fetches := 1;
                              failed_fetches := 1; results := [e] |})
  by (eexists; vm_compute; reflexivity).
destruct H as [e H]. eexists. split; [exact H|].
destruct (main_counters _ _ H) as (_ & Hs & Hf & _). cbn in Hs, Hf. split; [exact Hs|].
cbn. reflexivity.
Defined.

(** X9: when the cells before it went through and a cell's series
    starts with a day without minimum or maximum temperature, the line
    that prints the sample raises TypeError and the main block ends
    without saving. *)
Theorem main_raises_on_unknown_sample (request : Q -> Q -> nat -> response)
        (before : list grid_point) (point : grid_point) (after : list grid_point)
        (sample : day) (rest : list day) (all_results : list entry)
        (successful : nat) :
  fetch_all request before [] 0%nat = Ok (all_results, successful) ->
  fetch_data request (fst (coordinates point)) (snd (coordinates point)) 7
  = Ok (sample :: rest) ->
  tmin sample = None \/ tmax sample = None ->
  main request (before ++ point :: after) = Raise TypeError.
Proof.
intros Hb Hf Hs.
assert (Hfa : fetch_all request (before ++ point :: after) [] 0%nat = Raise TypeError).
{ rewrite fetch_all_app, Hb. cbn [bind fst snd fetch_all].
  destruct (coordinates point) as [lat lon]. cbn [fst snd] in Hf.
  rewrite Hf. cbn [bind].
  destruct Hs as [Hs|Hs].
  - rewrite Hs. reflexivity.
  - rewrite Hs. destruct (tmin sample); reflexivity. }
unfold main. revert Hfa.
destruct (before ++ point :: after) as [|p grid] eqn:E;
  [destruct before; discriminate E|].
intros ->. reflexivity.
Qed.

(** The second cell's series starts with the no-data value for T2M_MIN. *)
Lemma main_raises_on_unknown_sample_witness :
  main request_no_tmin [Vocabulary.cell_a; Vocabulary.cell_b] = Raise TypeError.
Proof.
assert (Hb : exists r, fetch_all request_no_tmin [Vocabulary.cell_a] [] 0%nat
                       = Ok (r, 1%nat))
  by (eexists; vm_compute; reflexivity).
destruct Hb as [r Hb].
assert (Hf : exists d, fetch_data request_no_tmin
                         (fst (coordinates Vocabulary.cell_b))
                         (snd (coordinates Vocabulary.cell_b)) 7 = Ok [d]
                       /\ tmin d = None)
  by (eexists; split; vm_compute; reflexivity).
destruct Hf as [d [Hf Hd]].
exact (@main_raises_on_unknown_sample request_no_tmin [Vocabulary.cell_a]
         Vocabulary.cell_b [] d [] r 1%nat Hb Hf (or_introl Hd)).
Defined.

End FetchMore.

(** ** The grid upsert: which tuple, which row *)

Module GridMore.

Import Exchange Store Ingest Terms.

Lemma coord_eqb_refl (c : Q * Q) : coord_eqb c c = true.
Proof.
unfold coord_eqb. apply andb_true_iff. split; apply Qeq_bool_iff; reflexivity.
Qed.

Lemma last_snoc {A : Type} (l : list A) (x d : A) : last (l ++ [x]) d = x.
Proof.
induction l as [|y l IH]; [reflexivity|].
cbn [app]. destruct (l ++ [x]) eqn:E; [destruct l; discriminate E|].
cbn [last]. exact IH.
Qed.

Lemma close_ring_closed (coords : ring) (first : Q * Q) :
  hd_error coords = Some first ->
  hd_error (close_ring coords) = Some first
  /\ coord_eqb first (last (close_ring coords) first) = true.
Proof.
destruct coords as [|c coords]; [discriminate|]. intros H. injection H as ->.
unfold close_ring.
destruct (coord_eqb first (last (first :: coords) first)) eqn:E.
- split; [reflexivity|exact E].
- split; [reflexivity|]. rewrite last_snoc. apply coord_eqb_refl.
Qed.

(** X10: the polygon of a grid row, when there is one, is a ring of
    four points or more that starts and ends on the same point: the
    first ring of the bbox, with its first point appended when it was
    not closed; a bbox that is absent, empty or whose first ring has
    fewer than four points gives no polygon. *)
Theorem polygon_of_closed (bbox : option (list ring)) :
  (forall r, polygon_of bbox = Some r ->
     exists coords others first,
       bbox = Some (coords :: others)
       /\ (r = coords \/ r = coords ++ [first])
       /\ hd_error coords = Some first /\ hd_error r = Some first
       /\ coord_eqb first (last r first) = true
       /\ (4 <= List.length r)%nat)
  /\ (polygon_of bbox = None
      <-> bbox = None \/ bbox = Some []
          \/ exists coords others, bbox = Some (coords :: others)
                                   /\ (List.length coords < 4)%nat).
Proof.
split.
- intros r H. unfold polygon_of in H.
  destruct bbox as [[|coords others]|]; try discriminate H.
  destruct (4 <=? List.length coords)%nat eqn:E; [|discriminate H].
  injection H as <-. apply Nat.leb_le in E.
  destruct coords as [|first coords']; [cbn in E; lia|].
  exists (first :: coords'), others, first.
  destruct (close_ring_closed (first :: coords') eq_refl) as [Hhd Hlast].
  split; [reflexivity|]. split.
  + unfold close_ring. destruct (coord_eqb first (last (first :: coords') first));
      [left|right]; reflexivity.
  + split; [reflexivity|]. split; [exact Hhd|]. split; [exact Hlast|].
    unfold close_ring. destruct (coord_eqb first (last (first :: coords') first));
      [exact E|]. rewrite length_app. lia.
- unfold polygon_of. destruct bbox as [[|coords others]|].
  + split; [intros _; right; left; reflexivity|reflexivity].
  + destruct (4 <=? List.length coords)%nat eqn:E.
    * split; [discriminate|]. apply Nat.leb_le in E.
      intros [H|[H|[c [o [H Hlen]]]]]; try discriminate H.
      injection H as <- <-. lia.
    * split; [|reflexivity]. intros _. right. right. exists coords, others.
      split; [reflexivity|]. apply Nat.leb_gt in E. exact E.
  + split; [intros _; left; reflexivity|reflexivity].
Qed.

Lemma polygon_of_closed_witness :
  polygon_of (Some [open_ring]) = Some (open_ring ++ [(8.9, 36.5)])
  /\ coord_eqb (8.9, 36.5) (last (open_ring ++ [(8.9, 36.5)]) (8.9, 36.5)) = true.
Proof.
assert (H : polygon_of (Some [open_ring]) = Some (open_ring ++ [(8.9, 36.5)]))
  by reflexivity.
split; [exact H|].
destruct (proj1 (polygon_of_closed _) _ H) as (c & o & f & Hb & _ & Hhd & _ & Hl & _).
injection Hb as <- <-. injection Hhd as <-. exact Hl.
Defined.

(** *** The dict of the grid upsert *)

Lemma grid_step_values u e :
  grid_step (map (fun t => (gt_geohash t, t)) u) e
  = map (fun t => (gt_geohash t, t)) (keep_first_cell u e).
Proof.
unfold grid_step, keep_first_cell, candidate.
destruct (truthy_str (geohash e) && truthy_num (latitude e)
          && truthy_num (longitude e)) eqn:Et.
- destruct (geohash e) as [g|], (latitude e) as [lat|], (longitude e) as [lon|];
    try reflexivity.
  cbn [gt_geohash].
  assert (Hm : dict_mem g (map (fun t => (gt_geohash t, t)) u)
               = existsb (fun x => String.eqb (gt_geohash x) g) u).
  { unfold dict_mem. induction u as [|x u IH]; cbn [map existsb fst]; [reflexivity|].
    rewrite IH, (String.eqb_sym g). reflexivity. }
  rewrite Hm. destruct (existsb _ u); [reflexivity|]. rewrite map_app. reflexivity.
- destruct (geohash e), (latitude e), (longitude e); reflexivity.
Qed.

Lemma grid_data_eq results : grid_data results = fold_left keep_first_cell results [].
Proof.
unfold grid_data.
change (@nil (string * grid_tuple)) with (map (fun t => (gt_geohash t, t)) []).
generalize (@nil grid_tuple). induction results as [|e results IH]; intros u;
  cbn [fold_left].
- rewrite map_map. cbn [snd]. apply map_id.
- rewrite grid_step_values. apply IH.
Qed.

Lemma keep_first_cell_NoDup results : forall u,
  NoDup (map gt_geohash u) ->
  NoDup (map gt_geohash (fold_left keep_first_cell results u)).
Proof.
induction results as [|e results IH]; intros u Hu; cbn [fold_left]; [exact Hu|].
apply IH. unfold keep_first_cell. destruct (candidate e) as [t|]; [|exact Hu].
destruct (existsb _ u) eqn:E; [exact Hu|].
apply (@keyed_NoDup_snoc _ _ gt_geohash String.eqb String.eqb_eq); assumption.
Qed.

Lemma keep_first_cell_find g results : forall u,
  find_cell g (fold_left keep_first_cell results u)
  = match find_cell g u with
    | Some t => Some t
    | None => find_cell g (candidates results)
    end.
Proof.
induction results as [|e results IH]; intros u; cbn [fold_left].
- unfold candidates. cbn. destruct (find_cell g u); reflexivity.
- rewrite IH. unfold candidates. cbn [flat_map]. fold (candidates results).
  unfold keep_first_cell. destruct (candidate e) as [t|]; [|reflexivity].
  unfold find_cell.
  rewrite (@keyed_find_app _ _ gt_geohash String.eqb g [t] (candidates results)).
  cbn [find].
  destruct (existsb _ u) eqn:E.
  + destruct (find _ u) eqn:Ef; [reflexivity|].
    destruct (String.eqb (gt_geohash t) g) eqn:Ek; [|reflexivity].
    apply String.eqb_eq in Ek. subst g.
    apply (@keyed_find_existsb _ _ gt_geohash String.eqb) in Ef. congruence.
  + rewrite (@keyed_find_app _ _ gt_geohash String.eqb).
    destruct (find _ u); [reflexivity|]. cbn [find].
    destruct (String.eqb (gt_geohash t) g); reflexivity.
Qed.

Lemma grid_data_NoDup results : NoDup (map gt_geohash (grid_data results)).
Proof. rewrite grid_data_eq. apply keep_first_cell_NoDup. constructor. Qed.

(** X11: the tuples of the grid upsert have distinct geohashes, and the
    tuple of a geohash is that of the first entry, in the order of the
    file, that has this geohash and truthy coordinates. *)
Theorem grid_data_first_occurrence (results : list entry) :
  NoDup (map gt_geohash (grid_data results))
  /\ forall g, find_cell g (grid_data results) = find_cell g (candidates results).
Proof.
split; [apply grid_data_NoDup|].
intros g. rewrite grid_data_eq, keep_first_cell_find. reflexivity.
Qed.

Lemma grid_data_first_occurrence_witness :
  find_cell "abc1234" (grid_data [cell_entry 0 None; cell_entry 36.5 None;
                                  cell_entry 36.6 None])
  = Some {| gt_geohash := "abc1234"; gt_lat := 36.5; gt_lon := 8.9; gt_geom := None |}.
Proof.
rewrite (proj2 (grid_data_first_occurrence _)). reflexivity.
Defined.

(** *** The upsert of the grid table *)

Lemma has_grid_In g tbl : has_grid g tbl = true <-> In g (map g_geohash tbl).
Proof. apply (@keyed_existsb_In _ _ g_geohash String.eqb String.eqb_eq). Qed.

Lemma upsert_grid_keys now tbl t :
  map g_geohash (upsert_grid now tbl t)
  = if has_grid (gt_geohash t) tbl then map g_geohash tbl
    else map g_geohash tbl ++ [gt_geohash t].
Proof.
unfold upsert_grid.
change (existsb (fun r => String.eqb (g_geohash r) (gt_geohash t)) tbl)
  with (has_grid (gt_geohash t) tbl).
destruct (has_grid (gt_geohash t) tbl).
- rewrite map_map. apply map_ext. intros r.
  destruct (String.eqb (g_geohash r) (gt_geohash t)); reflexivity.
- rewrite map_app. reflexivity.
Qed.

Lemma upsert_grid_unique now tbl t : grid_unique tbl -> grid_unique (upsert_grid now tbl t).
Proof.
unfold grid_unique. rewrite upsert_grid_keys.
destruct (has_grid (gt_geohash t) tbl) eqn:E; intros H; [exact H|].
apply (Permutation_NoDup (l := gt_geohash t :: map g_geohash tbl)).
- apply Permutation_cons_append.
- constructor; [|exact H]. intros Hin. apply has_grid_In in Hin. congruence.
Qed.

Lemma upsert_grid_has now tbl t g :
  has_grid g (upsert_grid now tbl t) = true
  <-> has_grid g tbl = true \/ g = gt_geohash t.
Proof.
rewrite !has_grid_In, upsert_grid_keys.
destruct (has_grid (gt_geohash t) tbl) eqn:E.
- split; [left; assumption|]. intros [H| ->]; [exact H|].
  apply has_grid_In. exact E.
- rewrite in_app_iff. cbn [In]. intuition congruence.
Qed.

Lemma upsert_grid_matching now tbl t r :
  In r (upsert_grid now tbl t) -> g_geohash r = gt_geohash t ->
  holds r t /\ (has_grid (gt_geohash t) tbl = true -> g_created_at r = At now).
Proof.
unfold upsert_grid.
change (existsb (fun r => String.eqb (g_geohash r) (gt_geohash t)) tbl)
  with (has_grid (gt_geohash t) tbl).
destruct (has_grid (gt_geohash t) tbl) eqn:E; intros Hin Hk.
- apply in_map_iff in Hin. destruct Hin as [r0 [<- _]].
  destruct (String.eqb (g_geohash r0) (gt_geohash t)) eqn:E0.
  + apply String.eqb_eq in E0. cbn. unfold holds. cbn. repeat split. exact E0.
  + apply String.eqb_neq in E0. contradiction.
- apply in_app_or in Hin. destruct Hin as [Hin|[<-|[]]].
  + exfalso. assert (has_grid (gt_geohash t) tbl = true); [|congruence].
    apply has_grid_In. rewrite <- Hk. apply in_map. exact Hin.
  + unfold holds. cbn. repeat split. discriminate.
Qed.

Lemma upsert_grid_other now tbl t r :
  In r (upsert_grid now tbl t) -> g_geohash r <> gt_geohash t -> In r tbl.
Proof.
unfold upsert_grid. destruct (existsb _ tbl); intros Hin Hk.
- apply in_map_iff in Hin. destruct Hin as [r0 [E Hr0]].
  destruct (String.eqb (g_geohash r0) (gt_geohash t)) eqn:E0; [|subst r; exact Hr0].
  subst r. cbn in Hk. apply String.eqb_eq in E0. contradiction.
- apply in_app_or in Hin. destruct Hin as [Hin|[<-|[]]]; [exact Hin|].
  cbn in Hk. contradiction.
Qed.

Lemma upserts_grid_unique now ts : forall tbl,
  grid_unique tbl -> grid_unique (fold_left (upsert_grid now) ts tbl).
Proof.
induction ts as [|t ts IH]; intros tbl H; cbn [fold_left]; [exact H|].
apply IH, upsert_grid_unique, H.
Qed.

Lemma upserts_grid_keeps now ts g : forall tbl,
  has_grid g tbl = true -> has_grid g (fold_left (upsert_grid now) ts tbl) = true.
Proof.
induction ts as [|t ts IH]; intros tbl H; cbn [fold_left]; [exact H|].
apply IH, upsert_grid_has. left. exact H.
Qed.

Lemma upserts_grid_stores now ts : forall tbl t,
  In t ts -> has_grid (gt_geohash t) (fold_left (upsert_grid now) ts tbl) = true.
Proof.
induction ts as [|t0 ts IH]; intros tbl t Hin; [destruct Hin|].
cbn [fold_left]. destruct Hin as [<-|Hin].
- apply upserts_grid_keeps. apply upsert_grid_has. right. reflexivity.
- apply IH. exact Hin.
Qed.

Lemma upserts_grid_other now ts r : forall tbl,
  (forall t, In t ts -> g_geohash r <> gt_geohash t) ->
  In r (fold_left (upsert_grid now) ts tbl) -> In r tbl.
Proof.
induction ts as [|t0 ts IH]; intros tbl Hk Hin; cbn [fold_left] in Hin; [exact Hin|].
apply (upsert_grid_other now tbl t0).
- apply IH; [|exact Hin]. intros t Ht. apply Hk. right. exact Ht.
- apply Hk. left. reflexivity.
Qed.

Lemma upserts_grid_matching now ts : forall tbl t r,
  NoDup (map gt_geohash ts) -> In t ts ->
  In r (fold_left (upsert_grid now) ts tbl) -> g_geohash r = gt_geohash t ->
  holds r t /\ (has_grid (gt_geohash t) tbl = true -> g_created_at r = At now).
Proof.
induction ts as [|t0 ts IH]; intros tbl t r Hnd Ht Hr Hk; [destruct Ht|].
cbn [map] in Hnd. inversion Hnd as [|? ? Hnotin Hnd']; subst.
cbn [fold_left] in Hr. destruct Ht as [<-|Ht].
- apply (upsert_grid_matching now tbl t0); [|exact Hk].
  apply (upserts_grid_other now ts); [|exact Hr].
  intros t' Ht' E. apply Hnotin. rewrite <- Hk, E. apply in_map. exact Ht'.
- destruct (IH (upsert_grid now tbl t0) t r Hnd' Ht Hr Hk) as [Hd Hs].
  split; [exact Hd|]. intros He. apply Hs. apply upsert_grid_has. left. exact He.
Qed.

Lemma upserts_grid_in_place now ts : forall tbl,
  exists new, map g_geohash (fold_left (upsert_grid now) ts tbl)
              = map g_geohash tbl ++ new.
Proof.
induction ts as [|t ts IH]; intros tbl; cbn [fold_left].
- exists []. symmetry. apply app_nil_r.
- destruct (IH (upsert_grid now tbl t)) as [new E]. rewrite E, upsert_grid_keys.
  destruct (has_grid (gt_geohash t) tbl).
  + exists new. reflexivity.
  + exists (gt_geohash t :: new). rewrite <- app_assoc. reflexivity.
Qed.

(** X12: the grid upsert keeps one row per geohash and returns the
    number of distinct geohashes it was given; under each of them the
    table then holds exactly one row, in the place of the row that was
    there, with the latitude, longitude and polygon of the upsert (an
    existing cell is overwritten and stamped); the rows of the other
    cells are rows of the table before. *)
Theorem grid_upsert_overwrites (now : Z) (conn : list grid_row)
        (results : list entry) :
  grid_unique conn ->
  let after := ingest_grid_points now conn results in
  grid_unique (fst after)
  /\ snd after = List.length (grid_data results)
  /\ (exists new, map g_geohash (fst after) = map g_geohash conn ++ new)
  /\ (forall t r, In t (grid_data results) -> In r (fst after) ->
                  g_geohash r = gt_geohash t ->
                  holds r t
                  /\ (has_grid (gt_geohash t) conn = true ->
                      g_created_at r = At now))
  /\ (forall t, In t (grid_data results) ->
                count_grid (gt_geohash t) (fst after) = 1%nat)
  /\ (forall r, In r (fst after) ->
                (forall t, In t (grid_data results) -> g_geohash r <> gt_geohash t) ->
                In r conn).
Proof.
intros Hu after. subst after. unfold ingest_grid_points. cbn [fst snd].
assert (Hnd : NoDup (map gt_geohash (grid_data results))) by apply grid_data_NoDup.
assert (Hu' : grid_unique (fold_left (upsert_grid now) (grid_data results) conn))
  by (apply upserts_grid_unique; exact Hu).
split; [exact Hu'|]. split; [reflexivity|].
split; [apply upserts_grid_in_place|].
split; [intros t r Ht Hr Hk; eapply upserts_grid_matching; eassumption|].
split.
- intros t Ht. unfold count_grid.
  apply (@keyed_count_one _ _ g_geohash String.eqb String.eqb_eq); [exact Hu'|].
  apply upserts_grid_stores. exact Ht.
- intros r Hr Hk. eapply upserts_grid_other; eassumption.
Qed.

(** A stored cell abc1234 at latitude 1 and an upsert of it at 36.5. *)
Lemma grid_upsert_overwrites_witness :
  fst (ingest_grid_points 100
         [{| g_geohash := "abc1234"; g_lat := 1; g_lon := 2; g_geom := None;
             g_created_at := ColumnDefault |}]
         [cell_entry 36.5 (Some [open_ring])])
  = [{| g_geohash := "abc1234"; g_lat := 36.5; g_lon := 8.9;
        g_geom := Some (open_ring ++ [(8.9, 36.5)]); g_created_at := At 100 |}]
  /\ count_grid "abc1234"
       (fst (ingest_grid_points 100
               [{| g_geohash := "abc1234"; g_lat := 1; g_lon := 2; g_geom := None;
                   g_created_at := ColumnDefault |}]
               [cell_entry 36.5 (Some [open_ring])])) = 1%nat.
Proof.
split; [vm_compute; reflexivity|].
assert (Hu : grid_unique [{| g_geohash := "abc1234"; g_lat := 1; g_lon := 2;
                            g_geom := None; g_created_at := ColumnDefault |}])
  by (repeat constructor; intros []).
destruct (@grid_upsert_overwrites 100 _ [cell_entry 36.5 (Some [open_ring])] Hu)
  as (_ & _ & _ & _ & Hc & _).
apply (Hc {| gt_geohash := "abc1234"; gt_lat := 36.5; gt_lon := 8.9;
             gt_geom := Some (open_ring ++ [(8.9, 36.5)]) |}).
left. vm_compute. reflexivity.
Defined.

End GridMore.

(** ** The daily ingestion: batches, count, faults *)

Module DailyMore.

Import Exchange Store Ingest Vocabulary Terms DailyProps.

(** X13: the batches of the daily write are never empty and never
    longer than the batch size, there are as many as the list needs,
    and put end to end they are the list. *)
Theorem batches_bounded {A : Type} (n : nat) (l : list A) :
  (0 < n)%nat ->
  List.concat (batches n l) = l
  /\ Forall (fun b => (0 < List.length b <= n)%nat) (batches n l)
  /\ List.length (batches n l) = ((List.length l + (n - 1)) / n)%nat.
Proof.
intros Hn. split; [apply batches_concat; exact Hn|]. split.
- unfold batches. apply Forall_forall. intros b Hb.
  apply in_map_iff in Hb. destruct Hb as [k [<- Hk]]. apply in_seq in Hk.
  rewrite length_firstn, length_skipn.
  pose proof (Nat.div_mod_eq (List.length l + (n - 1)) n) as Hd.
  assert (Hm : ((List.length l + (n - 1)) mod n < n)%nat)
    by (apply Nat.mod_upper_bound; lia).
  remember ((List.length l + (n - 1)) / n)%nat as m.
  remember ((List.length l + (n - 1)) mod n)%nat as r.
  assert (Hkn : (k * n + n <= n * m)%nat).
  { replace (k * n + n)%nat with (n * S k)%nat by lia.
    apply Nat.mul_le_mono_l. lia. }
  lia.
- unfold batches. rewrite length_map, length_seq. reflexivity.
Qed.

Lemma batches_bounded_witness :
  List.concat (batches 2 [1; 2; 3; 4; 5]%nat) = [1; 2; 3; 4; 5]%nat
  /\ List.length (batches 2 [1; 2; 3; 4; 5]%nat) = 3%nat.
Proof.
destruct (@batches_bounded nat 2 [1; 2; 3; 4; 5]%nat) as (Hc & _ & Hl); [lia|].
split; [exact Hc|exact Hl].
Defined.

Lemma execute_values_length batch : forall tbl tbl',
  execute_values tbl batch = Ok tbl' ->
  (List.length tbl <= List.length tbl' <= List.length tbl + List.length batch)%nat.
Proof.
induction batch as [|t batch IH]; intros tbl tbl' H; cbn [execute_values] in H.
- injection H as <-. cbn. lia.
- destruct (insert_daily tbl t) as [tbl1|e] eqn:E; cbn [bind] in H; [|discriminate].
  specialize (IH _ _ H). cbn [List.length].
  destruct (insert_daily_cases _ _ E) as [g [_ [[_ ->]|[_ ->]]]].
  + lia.
  + rewrite length_app in IH. cbn in IH. lia.
Qed.

Lemma keep_first_length dd : forall u,
  (List.length (fold_left keep_first dd u) <= List.length u + List.length dd)%nat.
Proof.
induction dd as [|t dd IH]; intros u; cbn [fold_left List.length]; [lia|].
specialize (IH (keep_first u t)).
assert (Hstep : (List.length (keep_first u t) <= S (List.length u))%nat).
{ unfold keep_first. destruct (existsb _ u); [lia|]. rewrite length_app. cbn. lia. }
lia.
Qed.

(** X14: the count that [ingest_climate_daily] returns is the number of
    distinct (cell, date) keys of its input, whatever the table holds:
    it bounds the rows added and does not count them. *)
Theorem ingest_count_is_distinct_keys (exp : Q -> Q) (fpow : Q -> Q -> Q)
        (conn : list daily_row) (results : list entry) (dd : list daily_tuple)
        (tbl : list daily_row) (n : nat) :
  daily_data exp fpow results = Ok dd ->
  ingest_climate_daily exp fpow conn results = Ok (tbl, n) ->
  n = List.length (daily_data_unique dd)
  /\ (n <= List.length dd)%nat
  /\ (List.length conn <= List.length tbl <= List.length conn + n)%nat
  /\ forall conn' tbl' n',
       ingest_climate_daily exp fpow conn' results = Ok (tbl', n') -> n' = n.
Proof.
intros Hdd Hrun.
destruct (ingest_climate_daily_inv _ _ _ _ Hrun) as (dd' & Hdd' & Hex & ->).
rewrite Hdd in Hdd'. injection Hdd' as <-.
split; [reflexivity|]. split.
- rewrite daily_data_unique_eq. apply (keep_first_length dd []).
- split; [apply (execute_values_length _ _ Hex)|].
  intros conn' tbl' n' Hrun'.
  destruct (ingest_climate_daily_inv _ _ _ _ Hrun') as (dd' & Hdd' & _ & ->).
  rewrite Hdd in Hdd'. injection Hdd' as <-. reflexivity.
Qed.

(** The batch of cell abc1234 ingested into the table that already
    holds its row: the count is 1, the table has not grown. *)
Lemma ingest_count_is_distinct_keys_witness :
  exists dd, daily_data Et0.exp_approx Et0.pow_approx [entry_abc [day_first; day_again]]
             = Ok dd
             /\ List.length dd = 2%nat /\ List.length (daily_data_unique dd) = 1%nat.
Proof.
assert (Hdd : exists t2, daily_data Et0.exp_approx Et0.pow_approx
                           [entry_abc [day_first; day_again]]
                         = Ok [tuple_first; t2])
  by (eexists; vm_compute; reflexivity).
destruct Hdd as [t2 Hdd]. exists [tuple_first; t2]. split; [exact Hdd|].
split; [reflexivity|].
assert (Hrun : ingest_climate_daily Et0.exp_approx Et0.pow_approx
                 [row_of "abc1234" tuple_first]
                 [entry_abc [day_first; day_again]]
               = Ok ([row_of "abc1234" tuple_first], 1%nat))
  by (vm_compute; reflexivity).
destruct (ingest_count_is_distinct_keys _ _ _ _ Hdd Hrun) as (Hn & _).
symmetry. exact Hn.
Defined.

(** *** Faults of the ET0 engine *)

Section Faults.

Variable exp : Q -> Q.
Variable fpow : Q -> Q -> Q.

Lemma tuple_of_raises g day e :
  tuple_of exp fpow g day = Raise e -> e = ZeroDivisionError \/ e = OverflowError.
Proof.
unfold tuple_of.
destruct (Et0.compute_et0 exp fpow (tmin day) (tmax day) (radiation day) (rh day)
                          (wind day) Et0.ALTITUDE_DEFAULT) as [et0|x] eqn:E;
  cbn [bind]; [discriminate|].
intros H. injection H as <-.
eapply Et0Props.compute_et0_raise_kind. exact E.
Qed.

Lemma tuples_of_raises g days : forall e,
  tuples_of exp fpow g days = Raise e -> e = ZeroDivisionError \/ e = OverflowError.
Proof.
induction days as [|day days IH]; intros e H; cbn [tuples_of] in H; [discriminate|].
destruct (tuple_of exp fpow g day) as [t|x] eqn:Et; cbn [bind] in H.
- destruct (tuples_of exp fpow g days) as [ts|x]; cbn [bind] in H; [discriminate|].
  injection H as <-. apply IH. reflexivity.
- injection H as <-. eapply tuple_of_raises. exact Et.
Qed.

Lemma tuples_of_fault g days day x :
  In day days -> tuple_of exp fpow g day = Raise x ->
  exists e, tuples_of exp fpow g days = Raise e.
Proof.
induction days as [|d days IH]; intros Hin Hx; [destruct Hin|].
cbn [tuples_of]. destruct Hin as [->|Hin].
- rewrite Hx. cbn [bind]. eexists. reflexivity.
- destruct (tuple_of exp fpow g d); cbn [bind]; [|eexists; reflexivity].
  destruct (IH Hin Hx) as [e ->]. cbn [bind]. eexists. reflexivity.
Qed.

Lemma daily_data_raises results : forall e,
  daily_data exp fpow results = Raise e -> e = ZeroDivisionError \/ e = OverflowError.
Proof.
induction results as [|r results IH]; intros e H; cbn [daily_data] in H;
  [discriminate|].
destruct (tuples_of exp fpow (geohash r) (weather_data r)) as [ts|x] eqn:Et;
  cbn [bind] in H.
- destruct (daily_data exp fpow results) as [rest|x]; cbn [bind] in H; [discriminate|].
  injection H as <-. apply IH. reflexivity.
- injection H as <-. eapply tuples_of_raises. exact Et.
Qed.

Lemma daily_data_fault results r day x :
  In r results -> In day (weather_data r) ->
  tuple_of exp fpow (geohash r) day = Raise x ->
  exists e, daily_data exp fpow results = Raise e.
Proof.
induction results as [|r0 results IH]; intros Hr Hd Hx; [destruct Hr|].
cbn [daily_data]. destruct Hr as [->|Hr].
- destruct (tuples_of_fault _ _ _ Hd Hx) as [e ->]. cbn [bind]. eexists. reflexivity.
- destruct (tuples_of exp fpow (geohash r0) (weather_data r0)); cbn [bind];
    [|eexists; reflexivity].
  destruct (IH Hr Hd Hx) as [e ->]. cbn [bind]. eexists. reflexivity.
Qed.

End Faults.

(** X15: one day of one entry with known inputs, a radiation that is
    not negative and a mean temperature of -237.3, or from -243.2 up
    to -237.3, makes the whole ingestion raise before anything is
    written: the exception is the ZeroDivisionError or the
    OverflowError of the first such day met. *)
Theorem ingest_aborts_on_faulty_day (exp : Q -> Q) (fpow : Q -> Q -> Q)
        (conn : list daily_row) (results : list entry) (r : entry) (day : day)
        (a b s h w : Q) :
  In r results -> In day (weather_data r) ->
  tmin day = Some a -> tmax day = Some b -> radiation day = Some s ->
  rh day = Some h -> wind day = Some w ->
  0 <= s ->
  (a + b) / 2 + 237.3 == 0 \/ (-243.2 <= (a + b) / 2 /\ (a + b) / 2 < -237.3) ->
  exists e, ingest_climate_daily exp fpow conn results = Raise e
            /\ (e = ZeroDivisionError \/ e = OverflowError).
Proof.
intros Hr Hd E1 E2 E3 E4 E5 Hs Hz.
assert (Hx : exists x, tuple_of exp fpow (geohash r) day = Raise x).
{ unfold tuple_of. rewrite E1, E2, E3, E4, E5. destruct Hz as [Hz|[Hlo Hhi]].
  - rewrite (Et0Props.compute_et0_at_pole exp fpow h w Et0.ALTITUDE_DEFAULT Hs Hz).
    eexists. reflexivity.
  - rewrite (@Et0Props.compute_et0_overflow exp fpow a b s h w Et0.ALTITUDE_DEFAULT Hs).
    + eexists. reflexivity.
    + intros E. lra.
    + apply Et0Props.exp_argument_overflows; assumption. }
destruct Hx as [x Hx].
destruct (daily_data_fault exp fpow _ _ _ Hr Hd Hx) as [e He].
exists e. split; [|eapply daily_data_raises; exact He].
unfold ingest_climate_daily. rewrite He. reflexivity.
Qed.

Lemma ingest_aborts_on_faulty_day_witness :
  exists e, ingest_climate_daily Et0.exp_approx Et0.pow_approx []
                                 [entry_abc [day_first; day_pole]] = Raise e
            /\ (e = ZeroDivisionError \/ e = OverflowError).
Proof.
apply (@ingest_aborts_on_faulty_day Et0.exp_approx Et0.pow_approx []
         [entry_abc [day_first; day_pole]] (entry_abc [day_first; day_pole]) day_pole
         (-237.3) (-237.3) 22.5 65 2.1); try reflexivity.
- left. reflexivity.
- right. left. reflexivity.
- discriminate.
- left. reflexivity.
Defined.

End DailyMore.

(** ** The main function of the ingestion *)

Module IngestMainProps.

Import Exchange Store Ingest IngestMain Vocabulary Terms.

(** X16: when [main] ends in a rollback, the daily table is as it was
    before the run, while the grid table (unless --no-grid was given)
    is the one the grid upsert committed: it holds every cell of the
    upsert. *)
Theorem main_rollback_keeps_grid (exp : Q -> Q) (fpow : Q -> Q -> Q) (now : Z)
        (results : list entry) (no_grid : bool)
        (grid grid' : list grid_row) (daily daily' : list daily_row) (e : exn) :
  main exp fpow now (Some results) no_grid grid daily = (grid', daily', RolledBack e) ->
  daily' = daily
  /\ ingest_climate_daily exp fpow daily results = Raise e
  /\ (no_grid = true -> grid' = grid)
  /\ (no_grid = false ->
      grid' = fst (ingest_grid_points now grid results)
      /\ forall t, In t (grid_data results) -> has_grid (gt_geohash t) grid' = true).
Proof.
unfold main. destruct results as [|r results]; [discriminate|].
destruct (ingest_climate_daily exp fpow daily (r :: results)) as [[d n]|x];
  intros H; [discriminate H|].
injection H as <- <- <-. split; [reflexivity|]. split; [reflexivity|].
split; intros ->; [reflexivity|]. split; [reflexivity|].
intros t Ht. unfold ingest_grid_points. cbn [fst].
apply GridMore.upserts_grid_stores. exact Ht.
Qed.

(** A run on one cell whose only day is at -237.3: the cell is in the
    grid table, the daily table is still empty. *)
Lemma main_rollback_keeps_grid_witness :
  exists grid',
    main Et0.exp_approx Et0.pow_approx 100
         (Some [{| point_name := "grid_abc1234"; geohash := Some "abc1234"%string;
                   latitude := Some 36.5; longitude := Some 8.9; bbox := None;
                   weather_data := [day_pole] |}]) false [] []
    = (grid', [], RolledBack ZeroDivisionError)
    /\ has_grid "abc1234" grid' = true.
Proof.
eexists. 
assert (H : main Et0.exp_approx Et0.pow_approx 100
         (Some [{| point_name := "grid_abc1234"; geohash := Some "abc1234"%string;
                   latitude := Some 36.5; longitude := Some 8.9; bbox := None;
                   weather_data := [day_pole] |}]) false [] []
    = ([{| g_geohash := "abc1234"; g_lat := 36.5; g_lon := 8.9; g_geom := None;
           g_created_at := ColumnDefault |}], [], RolledBack ZeroDivisionError))
  by (vm_compute; reflexivity).
split; [exact H|].
destruct (main_rollback_keeps_grid _ _ _ _ _ _ _ H) as (_ & _ & _ & Hg).
destruct (Hg eq_refl) as [_ Hall].
apply (Hall {| gt_geohash := "abc1234"; gt_lat := 36.5; gt_lon := 8.9;
               gt_geom := None |}).
left. reflexivity.
Defined.

End IngestMainProps.

(** ** The rolling aggregator: windows, thresholds, dates *)

Module AggregateMore.

Import Store Aggregate Vocabulary Terms AggregateProps.

Lemma filter_filter {A : Type} (f g : A -> bool) (l : list A) :
  filter f (filter g l) = filter (fun x => g x && f x) l.
Proof.
induction l as [|x l IH]; cbn [filter]; [reflexivity|].
destruct (g x); cbn [andb filter]; rewrite IH; reflexivity.
Qed.

Lemma cell_rows_in_window daily g target :
  cell_rows daily g (target - 6) target
  = filter (fun r => String.eqb (d_geohash r) g && is_some (d_tmin r))
           (in_window daily target).
Proof.
unfold cell_rows, in_window. rewrite filter_filter. apply filter_ext. intros r.
unfold is_some.
destruct (String.eqb (d_geohash r) g), (between (target - 6) target r),
  (d_tmin r); reflexivity.
Qed.

(** X17: the aggregates of a window depend on the daily table only
    through its rows dated in the window: two tables with the same rows
    there give the same aggregates. *)
Theorem weekly_data_reads_the_window (daily daily' : list daily_row) (target m : Z) :
  in_window daily target = in_window daily' target ->
  weekly_data daily target m = weekly_data daily' target m.
Proof.
intros H. unfold weekly_data.
assert (Hg : grid_points daily (target - 6) target
             = grid_points daily' (target - 6) target).
{ unfold grid_points. fold (in_window daily target). fold (in_window daily' target).
  rewrite H. reflexivity. }
rewrite Hg. apply flat_map_ext. intros g. unfold cell_step.
rewrite !cell_rows_in_window, H. reflexivity.
Qed.

(** A row dated a week earlier changes nothing. *)
Lemma weekly_data_reads_the_window_witness :
  weekly_data (row_before_week :: daily_week) 739013 3
  = weekly_data daily_week 739013 3.
Proof.
apply weekly_data_reads_the_window. reflexivity.
Defined.

(** X18: the aggregates computed with a threshold are among those
    computed with any lower threshold, and there are never more of
    them than cells with a record in the window. *)
Theorem threshold_only_removes (daily : list daily_row) (target m m' : Z) :
  (m <= m')%Z ->
  incl (weekly_data daily target m') (weekly_data daily target m)
  /\ (List.length (weekly_data daily target m)
      <= List.length (grid_points daily (target - 6) target))%nat.
Proof.
intros Hm. split.
- intros t Ht. unfold weekly_data in *. apply in_flat_map in Ht.
  destruct Ht as [g [Hg Ht]]. apply in_flat_map. exists g. split; [exact Hg|].
  unfold cell_step in *.
  destruct (Z.of_nat (List.length (cell_rows daily g (target - 6) target)) >=? m')%Z
    eqn:E'; [|destruct Ht].
  destruct (Z.of_nat (List.length (cell_rows daily g (target - 6) target)) >=? m)%Z
    eqn:E; [exact Ht|lia].
- unfold weekly_data. generalize (grid_points daily (target - 6) target).
  intros gs. induction gs as [|g gs IH]; cbn [flat_map List.length]; [lia|].
  rewrite length_app. unfold cell_step at 1.
  destruct (Z.of_nat (List.length (cell_rows daily g (target - 6) target)) >=? m)%Z;
    cbn [List.length]; lia.
Qed.

Lemma threshold_only_removes_witness :
  incl (weekly_data daily_week 739013 3) (weekly_data daily_week 739013 2).
Proof.
apply (@threshold_only_removes daily_week 739013%Z 2%Z 3%Z). lia.
Defined.

(** X19: with a threshold of zero or less, a cell that has records in
    the window and none with a minimum temperature gets an aggregate in
    which every field is NULL. *)
Theorem null_aggregate_below_one (daily : list daily_row) (target m : Z) (g : string) :
  (m <= 0)%Z ->
  has_record_in_window daily g target ->
  (forall r, In r daily -> d_geohash r = g ->
             between (target - 6) target r = true -> d_tmin r = None) ->
  In (null_aggregate g target) (weekly_data daily target m).
Proof.
intros Hm Hrec Hnone. unfold weekly_data. apply in_flat_map. exists g.
split; [apply grid_points_In; exact Hrec|].
assert (Hrows : cell_rows daily g (target - 6) target = []).
{ destruct (cell_rows daily g (target - 6) target) as [|r rows] eqn:E; [reflexivity|].
  assert (Hin : In r (cell_rows daily g (target - 6) target))
    by (rewrite E; left; reflexivity).
  apply cell_rows_In in Hin. destruct Hin as (Hr & Hg & Hb & Ht).
  rewrite (Hnone r Hr Hg Hb) in Ht. discriminate Ht. }
unfold cell_step. rewrite Hrows. cbn [List.length map].
destruct (Z.of_nat 0 >=? m)%Z eqn:E; [left; reflexivity|].
exfalso. rewrite Z.geb_leb in E. apply Z.leb_gt in E. cbn in E. lia.
Qed.

Lemma null_aggregate_below_one_witness :
  In (null_aggregate "abc1236" 739013) (weekly_data daily_no_tmin 739013 0).
Proof.
apply null_aggregate_below_one.
- lia.
- exists (obs "abc1236" 739010 None 2). split; [left; reflexivity|].
  split; reflexivity.
- intros r [<-|[]] _ _. reflexivity.
Defined.

(** *** The latest date *)

Lemma max_date_fold daily : forall m0,
  exists d, fold_left (fun acc r => match acc with
                                    | None => Some (d_date r)
                                    | Some m => Some (Z.max m (d_date r))
                                    end) daily (Some m0) = Some d
            /\ (m0 <= d)%Z
            /\ (d = m0 \/ In d (map d_date daily))
            /\ forall r, In r daily -> (d_date r <= d)%Z.
Proof.
induction daily as [|r daily IH]; intros m0; cbn [fold_left].
- exists m0. split; [reflexivity|]. split; [lia|]. split; [left; reflexivity|].
  intros r [].
- destruct (IH (Z.max m0 (d_date r))) as (d & E & Hle & Hin & Hmax).
  exists d. split; [exact E|]. split; [lia|]. split.
  + destruct Hin as [->|Hin]; [|right; right; exact Hin].
    destruct (Z.max_spec m0 (d_date r)) as [[_ ->]|[_ ->]];
      [right; left; reflexivity|left; reflexivity].
  + intros r' [<-|Hr']; [lia|apply Hmax; exact Hr'].
Qed.

Lemma max_date_spec daily :
  match max_date daily with
  | None => daily = []
  | Some d => In d (map d_date daily) /\ forall r, In r daily -> (d_date r <= d)%Z
  end.
Proof.
unfold max_date. destruct daily as [|r daily]; [reflexivity|]. cbn [fold_left].
destruct (max_date_fold daily (d_date r)) as (d & E & Hle & Hin & Hmax).
rewrite E. split.
- destruct Hin as [->|Hin]; [left; reflexivity|right; exact Hin].
- intros r' [<-|Hr']; [exact Hle|apply Hmax; exact Hr'].
Qed.

(** X20: without a target date the aggregator works on the window that
    ends on the latest date of the daily table, a date of the table
    that no row exceeds; on an empty table it writes nothing and
    returns 0. *)
Theorem aggregate_without_date (now : Z) (daily : list daily_row)
        (weekly : list weekly_row) (m : Z) :
  (daily = [] -> aggregate_7days now daily weekly None m = (weekly, 0%nat))
  /\ (daily <> [] ->
      exists d, In d (map d_date daily)
                /\ (forall r, In r daily -> (d_date r <= d)%Z)
                /\ aggregate_7days now daily weekly None m
                   = aggregate_7days now daily weekly (Some d) m).
Proof.
split.
- intros ->. reflexivity.
- intros Hne. pose proof (max_date_spec daily) as H.
  destruct (max_date daily) as [d|] eqn:E; [|contradiction].
  exists d. destruct H as [Hin Hmax]. split; [exact Hin|]. split; [exact Hmax|].
  unfold aggregate_7days. rewrite E. reflexivity.
Qed.

Lemma aggregate_without_date_witness :
  aggregate_7days 100 daily_week [] None 3
  = aggregate_7days 100 daily_week [] (Some 739010%Z) 3.
Proof.
destruct (proj2 (aggregate_without_date 100 daily_week [] 3)) as (d & Hin & Hmax & E);
  [discriminate|].
assert (Hd : d = 739010%Z).
{ assert (Hge : (739010 <= d)%Z).
  { apply (Hmax (obs "abc1234" 739010 None 5)). do 3 right. left. reflexivity. }
  cbn in Hin. intuition lia. }
rewrite E, Hd. reflexivity.
Defined.

(** *** The other windows *)

Lemma upsert_keeps_other now tbl t r :
  In r tbl -> same_key t r = false -> In r (upsert now tbl t).
Proof.
intros Hr Hk. unfold upsert. destruct (existsb (same_key t) tbl).
- apply in_map_iff. exists r. rewrite Hk. split; [reflexivity|exact Hr].
- apply in_or_app. left. exact Hr.
Qed.

Lemma upserts_keep_other now ts r : forall tbl,
  (forall t, In t ts -> same_key t r = false) ->
  In r tbl -> In r (execute_values now tbl ts).
Proof.
unfold execute_values.
induction ts as [|t0 ts IH]; intros tbl Hk Hr; cbn [fold_left]; [exact Hr|].
apply IH; [intros t Ht; apply Hk; right; exact Ht|].
apply upsert_keeps_other; [exact Hr|]. apply Hk. left. reflexivity.
Qed.

Lemma weekly_data_end_date daily target m t :
  In t (weekly_data daily target m) -> end_date t = target.
Proof.
unfold weekly_data. intros H. apply in_flat_map in H. destruct H as [g [_ Ht]].
apply cell_step_In in Ht. apply Ht.
Qed.

Lemma other_window_same_key daily target m r t :
  w_end_date r <> target -> In t (weekly_data daily target m) -> same_key t r = false.
Proof.
intros Hr Ht. destruct (same_key t r) eqn:E; [|reflexivity].
apply same_key_eq in E. unfold weekly_key, tuple_key in E. injection E as _ E.
rewrite (weekly_data_end_date _ _ _ _ Ht) in E. contradiction.
Qed.

Lemma aggregate_other_windows now daily weekly target m r :
  w_end_date r <> target ->
  In r (fst (aggregate_7days now daily weekly (Some target) m)) <-> In r weekly.
Proof.
intros Hr. rewrite aggregate_7days_eq. cbn [fst produced]. split.
- apply upserts_other. intros t Ht. eapply other_window_same_key; eassumption.
- apply upserts_keep_other. intros t Ht. eapply other_window_same_key; eassumption.
Qed.

(** X21: a call for one window end leaves the rows of every other
    window end as they are: such a row is in the table after the call
    exactly when it was there before. *)
Theorem aggregate_leaves_other_windows (now : Z) (daily : list daily_row)
        (weekly : list weekly_row) (target m : Z) (r : weekly_row) :
  w_end_date r <> target ->
  In r (fst (aggregate_7days now daily weekly (Some target) m)) <-> In r weekly.
Proof. apply aggregate_other_windows. Qed.

Lemma aggregate_leaves_other_windows_witness :
  In {| w_geohash := "abc1234"; w_start_date := 739000; w_end_date := 739006;
        w_avg_tmin := Some 1; w_avg_tmax := None; w_avg_radiation := None;
        w_total_rain := None; w_avg_rh := None; w_avg_wind := None;
        w_avg_et0 := None; w_updated_at := ColumnDefault |}
     (fst (aggregate_7days 100 daily_week
             [{| w_geohash := "abc1234"; w_start_date := 739000; w_end_date := 739006;
                 w_avg_tmin := Some 1; w_avg_tmax := None; w_avg_radiation := None;
                 w_total_rain := None; w_avg_rh := None; w_avg_wind := None;
                 w_avg_et0 := None; w_updated_at := ColumnDefault |}]
             (Some 739013%Z) 3)).
Proof.
apply aggregate_leaves_other_windows; [discriminate|]. left. reflexivity.
Defined.

End AggregateMore.

(** ** The main function of the aggregator *)

Module AggregateMainProps.

Import Store Aggregate AggregateMain Vocabulary Terms AggregateProps.

Lemma flat_map_if {A B : Type} (p : A -> bool) (f : A -> B) (l : list A) :
  flat_map (fun i => if p i then [f i] else []) l = map f (filter p l).
Proof.
induction l as [|x l IH]; cbn [flat_map filter]; [reflexivity|].
destruct (p x); cbn [app map]; rewrite IH; reflexivity.
Qed.

Lemma NoDup_map_inj {A B : Type} (f : A -> B) (l : list A) :
  (forall x y, f x = f y -> x = y) -> NoDup l -> NoDup (map f l).
Proof.
intros Hinj. induction 1 as [|x l Hnotin Hnd IH]; cbn [map]; constructor; [|exact IH].
intros Hin. apply in_map_iff in Hin. destruct Hin as [y [E Hy]].
apply Hinj in E. subst y. contradiction.
Qed.

Lemma range_NoDup n : NoDup (range n).
Proof.
unfold range. apply NoDup_map_inj; [intros x y; apply Nat2Z.inj|apply seq_NoDup].
Qed.

Lemma range_In n i : In i (range n) <-> (0 <= i < n)%Z.
Proof.
unfold range. rewrite in_map_iff. split.
- intros [k [<- Hk]]. apply in_seq in Hk. lia.
- intros H. exists (Z.to_nat i). split; [lia|]. apply in_seq. lia.
Qed.

Lemma range_length n : List.length (range n) = Z.to_nat n.
Proof. unfold range. rewrite length_map, length_seq. reflexivity. Qed.

Lemma backfill_dates lo hi b :
  flat_map (fun i => let current_date := (hi - i)%Z in
                     if (current_date >=? lo)%Z then [current_date] else [])
           (range (Z.min b 30))
  = map (fun i => (hi - i)%Z)
        (filter (fun i => (hi - i >=? lo)%Z) (range (Z.min b 30))).
Proof. apply (flat_map_if (fun i => (hi - i >=? lo)%Z) (fun i => (hi - i)%Z)). Qed.

Lemma dates_to_process_bounds a lo hi d :
  (lo <= hi)%Z -> In d (dates_to_process a lo hi) -> (lo <= d <= hi)%Z.
Proof.
intros Hle. unfold dates_to_process. destruct (auto a); [intros [<-|[]]; lia|].
destruct (date a) as [t|].
- destruct (t >? hi)%Z eqn:Et;
    match goal with |- context [(?x >=? lo)%Z] => destruct (x >=? lo)%Z eqn:E end;
    intros Hd; try (destruct Hd as [<-|[]]); try lia; destruct Hd.
- destruct (backfill a >? 0)%Z; [|intros [<-|[]]; lia].
  rewrite backfill_dates. intros Hd. apply in_map_iff in Hd.
  destruct Hd as [i [<- Hi]]. apply filter_In in Hi. destruct Hi as [Hi Hge].
  apply range_In in Hi. lia.
Qed.

(** X22: whatever the arguments, the dates that a run processes lie
    between the first and the last date of the daily table, are all
    different and are at most 30; a date asked for beyond the last one
    is replaced by the last one, and one before the first is dropped. *)
Theorem dates_to_process_in_range (a : args) (min_date max_date : Z) :
  (min_date <= max_date)%Z ->
  Forall (fun d => (min_date <= d <= max_date)%Z) (dates_to_process a min_date max_date)
  /\ NoDup (dates_to_process a min_date max_date)
  /\ (List.length (dates_to_process a min_date max_date) <= 30)%nat
  /\ (forall d, auto a = false -> date a = Some d ->
        dates_to_process a min_date max_date
        = if (d <? min_date)%Z then [] else [Z.min d max_date]).
Proof.
intros Hle. unfold dates_to_process.
destruct (auto a).
{ split; [constructor; [lia|constructor]|].
  split; [repeat constructor; intros []|]. split; [cbn; lia|discriminate]. }
destruct (date a) as [d|].
{ assert (Ht : (if (d >? max_date)%Z then max_date else d) = Z.min d max_date).
  { destruct (d >? max_date)%Z eqn:E; lia. }
  rewrite Ht.
  destruct (Z.min d max_date >=? min_date)%Z eqn:E.
  - split; [constructor; [lia|constructor]|].
    split; [repeat constructor; intros []|]. split; [cbn; lia|].
    intros d' _ H. injection H as <-. destruct (d <? min_date)%Z eqn:E'; [lia|reflexivity].
  - split; [constructor|]. split; [constructor|]. split; [cbn; lia|].
    intros d' _ H. injection H as <-. destruct (d <? min_date)%Z eqn:E'; [reflexivity|lia]. }
destruct (backfill a >? 0)%Z eqn:Eb.
- rewrite backfill_dates. split.
  + apply Forall_forall. intros d Hd. apply in_map_iff in Hd.
    destruct Hd as [i [<- Hi]]. apply filter_In in Hi. destruct Hi as [Hi Hge].
    apply range_In in Hi. lia.
  + split.
    * apply NoDup_map_inj; [intros x y; lia|]. apply NoDup_filter, range_NoDup.
    * split; [|discriminate]. rewrite length_map.
      pose proof (filter_length_le (fun i => (max_date - i >=? min_date)%Z)
                                   (range (Z.min (backfill a) 30))) as Hf.
      rewrite range_length in Hf. lia.
- split; [constructor; [lia|constructor]|].
  split; [repeat constructor; intros []|]. split; [cbn; lia|discriminate].
Qed.

(** A back-fill of 45 days over a table of four dates: four dates. *)
Lemma dates_to_process_in_range_witness :
  dates_to_process args_backfill 739007 739010 = [739010; 739009; 739008; 739007]%Z
  /\ (List.length (dates_to_process args_backfill 739007 739010) <= 30)%nat.
Proof.
split; [reflexivity|].
apply (@dates_to_process_in_range args_backfill 739007%Z 739010%Z). lia.
Defined.

(** *** The loop over the dates *)

Lemma min_date_fold daily : forall m0,
  exists d, fold_left (fun acc r => match acc with
                                    | None => Some (d_date r)
                                    | Some m => Some (Z.min m (d_date r))
                                    end) daily (Some m0) = Some d
            /\ (d <= m0)%Z
            /\ forall r, In r daily -> (d <= d_date r)%Z.
Proof.
induction daily as [|r daily IH]; intros m0; cbn [fold_left].
- exists m0. split; [reflexivity|]. split; [lia|]. intros r [].
- destruct (IH (Z.min m0 (d_date r))) as (d & E & Hle & Hmin).
  exists d. split; [exact E|]. split; [lia|].
  intros r' [<-|Hr']; [lia|apply Hmin; exact Hr'].
Qed.

Lemma min_date_spec daily :
  match min_date daily with
  | None => daily = []
  | Some d => forall r, In r daily -> (d <= d_date r)%Z
  end.
Proof.
unfold min_date. destruct daily as [|r daily]; [reflexivity|]. cbn [fold_left].
destruct (min_date_fold daily (d_date r)) as (d & E & Hle & Hmin).
rewrite E. intros r' [<-|Hr']; [exact Hle|apply Hmin; exact Hr'].
Qed.

Lemma process_spec now dates m daily : forall i weekly total,
  weekly_unique weekly ->
  weekly_unique (fst (process now i daily weekly dates m total))
  /\ snd (process now i daily weekly dates m total)
     = (total + computed daily m dates)%nat
  /\ forall row, ~ In (w_end_date row) dates ->
                 (In row (fst (process now i daily weekly dates m total))
                  <-> In row weekly).
Proof.
induction dates as [|d dates IH]; intros i weekly total Hu; cbn [process computed fold_right].
- cbn [fst snd]. split; [exact Hu|]. split; [lia|]. intros row _. reflexivity.
- assert (Hu1 : weekly_unique (fst (aggregate_7days (now i) daily weekly (Some d) m))).
  { rewrite aggregate_7days_eq. cbn [fst]. apply upserts_unique. exact Hu. }
  destruct (IH (S i) _ (total + snd (aggregate_7days (now i) daily weekly (Some d) m))%nat
              Hu1) as (Hu' & Hn & Hother).
  split; [exact Hu'|]. split.
  + rewrite Hn, aggregate_7days_eq. cbn [snd produced]. fold (computed daily m dates).
    lia.
  + intros row Hrow. rewrite Hother by (intros H; apply Hrow; right; exact H).
    apply AggregateMore.aggregate_other_windows.
    intros E. apply Hrow. left. symmetry. exact E.
Qed.

(** X23: on an empty daily table the run ends at once; otherwise it
    keeps one row per (cell, window end), the total it reports is the
    number of aggregates computed over the dates processed, and the
    rows whose window ends before the first or after the last date of
    the daily table are left as they are. *)
Theorem main_totals (now : nat -> Z) (a : args) (daily : list daily_row)
        (weekly : list weekly_row) :
  weekly_unique weekly ->
  (daily = [] -> main now a daily weekly = None)
  /\ (daily <> [] ->
      exists lo hi after total,
        min_date daily = Some lo /\ max_date daily = Some hi /\ (lo <= hi)%Z
        /\ main now a daily weekly = Some (after, total)
        /\ weekly_unique after
        /\ total = computed daily (min_days a) (dates_to_process a lo hi)
        /\ forall row, (w_end_date row < lo \/ hi < w_end_date row)%Z ->
                       (In row after <-> In row weekly)).
Proof.
intros Hu. split; [intros ->; reflexivity|].
intros Hne. pose proof (min_date_spec daily) as Hmin.
pose proof (AggregateMore.max_date_spec daily) as Hmax.
unfold main.
destruct (min_date daily) as [lo|]; [|contradiction].
destruct (max_date daily) as [hi|]; [|contradiction].
destruct Hmax as [_ Hmax].
assert (Hle : (lo <= hi)%Z).
{ destruct daily as [|r daily]; [contradiction|].
  specialize (Hmin r (or_introl eq_refl)). specialize (Hmax r (or_introl eq_refl)). lia. }
destruct (@process_spec now (dates_to_process a lo hi) (min_days a) daily 0%nat weekly 0%nat Hu)
  as (Hu' & Hn & Hother).
destruct (process now 0 daily weekly (dates_to_process a lo hi) (min_days a) 0)
  as [after total] eqn:E. cbn [fst snd] in Hu', Hn, Hother.
exists lo, hi, after, total.
split; [reflexivity|]. split; [reflexivity|]. split; [exact Hle|].
split; [reflexivity|]. split; [exact Hu'|]. split; [exact Hn|].
intros row Hrow. apply Hother.
intros Hin. apply (@dates_to_process_bounds a lo hi _ Hle) in Hin. lia.
Qed.

(** A back-fill over the sample week: four dates, two aggregates in
    all (cell abc1234, windows ending on the third and fourth date). *)
Lemma main_totals_witness :
  exists after, main (fun i => Z.of_nat i) args_backfill daily_week [] = Some (after, 2%nat).
Proof.
assert (Hu : weekly_unique []) by constructor.
destruct (proj2 (main_totals (fun i => Z.of_nat i) args_backfill daily_week Hu))
  as (lo & hi & after & total & Hlo & Hhi & _ & Hmain & _ & Htot & _);
  [discriminate|].
assert (Elo : lo = 739007%Z) by (vm_compute in Hlo; congruence).
assert (Ehi : hi = 739010%Z) by (vm_compute in Hhi; congruence).
subst lo hi. exists after. rewrite Hmain, Htot. reflexivity.
Defined.

End AggregateMainProps.

(** ** The colour scale of the map *)

Module MakeMapProps.

Import MakeMap Terms Et0Props.

Lemma scheme_of_known (param : string) : In (scheme_of param) (map snd COLOR_SCHEMES).
Proof.
unfold scheme_of, COLOR_SCHEMES. cbn [Fetch.dict_get map snd].
repeat match goal with
       | |- context [String.eqb param ?k] => destruct (String.eqb param k)
       end; cbn [In]; auto 10.
Qed.

Lemma scheme_of_graded (param : string) : graded (scheme_of param).
Proof.
pose proof (scheme_of_known param) as H. cbn [COLOR_SCHEMES map snd In] in H.
repeat (destruct H as [<-|H]; [split; [reflexivity|discriminate]|]). destruct H.
Qed.

Lemma clamp01_range (x : Q) : 0 <= clamp01 x <= 1.
Proof.
unfold clamp01. destruct (Qltb x 1) eqn:E1.
- apply Qltb_lt in E1. destruct (Qltb 0 x) eqn:E0.
  + apply Qltb_lt in E0. split; apply Qlt_le_weak; assumption.
  + split; [apply Qle_refl|discriminate].
- cbn. split; discriminate.
Qed.

Lemma clamp01_low (x : Q) : x <= 0 -> clamp01 x = 0.
Proof.
intros H. unfold clamp01.
assert (E1 : Qltb x 1 = true).
{ apply Qltb_lt. apply Qle_lt_trans with 0; [exact H|reflexivity]. }
rewrite E1. apply Qltb_ge in H. rewrite H. reflexivity.
Qed.

Lemma clamp01_high (x : Q) : 1 <= x -> clamp01 x = 1.
Proof.
intros H. unfold clamp01. apply Qltb_ge in H. rewrite H. reflexivity.
Qed.

Lemma clamp01_below (x : Q) : x < 1 -> clamp01 x < 1.
Proof.
intros H. unfold clamp01. pose proof H as E1. apply Qltb_lt in E1. rewrite E1.
destruct (Qltb 0 x); [exact H|reflexivity].
Qed.

Lemma clamp01_mono (x y : Q) : x <= y -> clamp01 x <= clamp01 y.
Proof.
intros H. unfold clamp01.
destruct (Qltb x 1) eqn:Ex, (Qltb y 1) eqn:Ey;
  try apply Qltb_lt in Ex; try apply Qltb_lt in Ey;
  try apply Qltb_ge in Ex; try apply Qltb_ge in Ey.
- destruct (Qltb 0 x) eqn:Zx, (Qltb 0 y) eqn:Zy;
    try apply Qltb_lt in Zx; try apply Qltb_lt in Zy;
    try apply Qltb_ge in Zx; try apply Qltb_ge in Zy.
  + exact H.
  + exfalso. apply (Qlt_irrefl 0).
    apply Qlt_le_trans with x; [exact Zx|]. apply Qle_trans with y; assumption.
  + apply Qlt_le_weak. exact Zy.
  + apply Qle_refl.
- cbn. destruct (Qltb 0 x) eqn:Zx; [apply Qlt_le_weak; exact Ex|discriminate].
- exfalso. apply (Qlt_irrefl 1).
  apply Qle_lt_trans with x; [exact Ex|]. apply Qle_lt_trans with y; assumption.
- apply Qle_refl.
Qed.

Lemma inject_Z_nonneg (z : Z) : (0 <= z)%Z -> 0 <= inject_Z z.
Proof.
intros H. change 0 with (inject_Z 0). rewrite <- Zle_Qle. exact H.
Qed.

Lemma py_int_nonneg (q : Q) : 0 <= q -> py_int q = Qfloor q.
Proof.
intros H. unfold py_int. apply Qle_bool_iff in H. rewrite H. reflexivity.
Qed.

(** The value that [get_color] normalizes to. *)
Lemma normalized_range (sch : scheme) (value : Q) :
  0 <= (if Qeq_bool (vmax sch) (vmin sch) then 0.5
        else clamp01 ((value - vmin sch) / (vmax sch - vmin sch))) <= 1.
Proof.
destruct (Qeq_bool (vmax sch) (vmin sch)); [split; discriminate|apply clamp01_range].
Qed.

Lemma top_nonneg (sch : scheme) : colors sch <> [] -> (0 <= top sch)%Z.
Proof.
unfold top. destruct (colors sch); [congruence|]. cbn [List.length]. lia.
Qed.

Lemma color_index_range (sch : scheme) (value : Q) :
  colors sch <> [] -> (0 <= color_index sch value <= top sch)%Z.
Proof.
intros Hne. pose proof (@top_nonneg sch Hne) as Ht. unfold color_index. fold (top sch).
pose proof (normalized_range sch value) as [H0 H1].
set (n := if Qeq_bool (vmax sch) (vmin sch) then 0.5
          else clamp01 ((value - vmin sch) / (vmax sch - vmin sch))) in *.
assert (HT : 0 <= inject_Z (top sch)) by (apply inject_Z_nonneg; exact Ht).
assert (Hp : 0 <= n * inject_Z (top sch)) by (apply Qmult_le_0_compat; assumption).
rewrite (@py_int_nonneg _ Hp). split.
- change 0%Z with (Qfloor 0). apply Qfloor_resp_le. exact Hp.
- apply Z.le_trans with (Qfloor (inject_Z (top sch))); [|rewrite Qfloor_Z; lia].
  apply Qfloor_resp_le.
  apply Qle_trans with (1 * inject_Z (top sch)); [|rewrite Qmult_1_l; apply Qle_refl].
  apply Qmult_le_compat_r; assumption.
Qed.

Lemma getindex_in_range (l : list string) (i : Z) :
  (0 <= i <= Z.of_nat (List.length l) - 1)%Z ->
  exists c, getindex l i = Some c /\ nth_error l (Z.to_nat i) = Some c /\ In c l.
Proof.
intros H. unfold getindex.
assert (E : (i <? 0)%Z = false) by (apply Z.ltb_ge; lia). rewrite E.
destruct (nth_error l (Z.to_nat i)) as [c|] eqn:En.
- exists c. split; [reflexivity|]. split; [reflexivity|]. apply nth_error_In in En. exact En.
- apply nth_error_None in En. lia.
Qed.

Lemma scheme_of_colors (param : string) : colors (scheme_of param) <> [].
Proof.
destruct (scheme_of_graded param) as [_ H]. unfold top in H.
destruct (colors (scheme_of param)); [cbn in H; lia|discriminate].
Qed.

(** X24: [get_color] never fails on a colour index: without a value it
    gives gray, and with any value and any parameter name it gives a
    colour of the scheme of the parameter (the ET0 scheme for a name
    that has none). *)
Theorem get_color_in_scheme (value : option Q) (param : string) :
  exists c, get_color value param = Some c
            /\ match value with
               | None => c = "#808080"%string
               | Some v =>
                   (0 <= color_index (scheme_of param) v <= top (scheme_of param))%Z
                   /\ In c (colors (scheme_of param))
               end.
Proof.
destruct value as [v|]; [|exists "#808080"%string; split; reflexivity].
pose proof (@color_index_range (scheme_of param) v (scheme_of_colors param)) as Hr.
destruct (@getindex_in_range (colors (scheme_of param)) _ Hr) as (c & Hc & _ & Hin).
exists c. split; [exact Hc|]. split; assumption.
Qed.

Section Scale.

Variable sch : scheme.
Hypothesis Hsch : graded sch.

Lemma span_pos : 0 < vmax sch - vmin sch.
Proof.
destruct Hsch as [H _]. rewrite <- (Qplus_opp_r (vmin sch)).
apply Qplus_lt_l. exact H.
Qed.

Lemma graded_index (v : Q) :
  color_index sch v
  = Qfloor (clamp01 ((v - vmin sch) / (vmax sch - vmin sch)) * inject_Z (top sch)).
Proof.
unfold color_index. fold (top sch).
assert (E : Qeq_bool (vmax sch) (vmin sch) = false).
{ destruct (Qeq_bool (vmax sch) (vmin sch)) eqn:E; [|reflexivity].
  apply Qeq_bool_iff in E. destruct Hsch as [H _]. rewrite E in H.
  exfalso. apply (Qlt_irrefl _ H). }
rewrite E. apply py_int_nonneg. apply Qmult_le_0_compat.
- apply clamp01_range.
- destruct Hsch as [_ H]. apply inject_Z_nonneg. lia.
Qed.

Lemma ratio_mono (v1 v2 : Q) :
  v1 <= v2 ->
  (v1 - vmin sch) / (vmax sch - vmin sch) <= (v2 - vmin sch) / (vmax sch - vmin sch).
Proof.
intros H. unfold Qdiv. apply Qmult_le_compat_r.
- apply Qplus_le_l. exact H.
- apply Qlt_le_weak. apply Qinv_lt_0_compat. exact span_pos.
Qed.

Lemma ratio_low (v : Q) : v <= vmin sch -> (v - vmin sch) / (vmax sch - vmin sch) <= 0.
Proof.
intros H. apply Qle_trans with ((vmin sch - vmin sch) / (vmax sch - vmin sch)).
- apply ratio_mono. exact H.
- setoid_replace (vmin sch - vmin sch) with 0 by ring. unfold Qdiv.
  rewrite Qmult_0_l. apply Qle_refl.
Qed.

Lemma ratio_high (v : Q) : vmax sch <= v -> 1 <= (v - vmin sch) / (vmax sch - vmin sch).
Proof.
intros H. apply Qle_trans with ((vmax sch - vmin sch) / (vmax sch - vmin sch)).
- unfold Qdiv. rewrite Qmult_inv_r; [apply Qle_refl|].
  intros E. pose proof span_pos as Hp. rewrite E in Hp. apply (Qlt_irrefl _ Hp).
- apply ratio_mono. exact H.
Qed.

Lemma ratio_below (v : Q) : v < vmax sch -> (v - vmin sch) / (vmax sch - vmin sch) < 1.
Proof.
intros H. apply Qlt_shift_div_r; [exact span_pos|].
rewrite Qmult_1_l. apply Qplus_lt_l. exact H.
Qed.

Lemma graded_scale (v1 v2 : Q) :
  (v1 <= vmin sch -> color_index sch v1 = 0%Z)
  /\ (vmax sch <= v1 -> color_index sch v1 = top sch)
  /\ (v1 < vmax sch -> (color_index sch v1 < top sch)%Z)
  /\ (v1 <= v2 -> (color_index sch v1 <= color_index sch v2)%Z).
Proof.
rewrite !graded_index. split; [|split; [|split]]; intros H.
- rewrite (@clamp01_low _ (@ratio_low _ H)). rewrite Qmult_0_l. reflexivity.
- rewrite (@clamp01_high _ (@ratio_high _ H)). rewrite Qmult_1_l. apply Qfloor_Z.
- rewrite Zlt_Qlt. eapply Qle_lt_trans; [apply Qfloor_le|].
  apply Qlt_le_trans with (1 * inject_Z (top sch)); [|rewrite Qmult_1_l; apply Qle_refl].
  apply Qmult_lt_compat_r.
  + destruct Hsch as [_ Ht]. change 0 with (inject_Z 0). rewrite <- Zlt_Qlt. lia.
  + apply clamp01_below. apply ratio_below. exact H.
- apply Qfloor_resp_le. apply Qmult_le_compat_r.
  + apply clamp01_mono. apply ratio_mono. exact H.
  + destruct Hsch as [_ Ht]. apply inject_Z_nonneg. lia.
Qed.

End Scale.

(** X25: in every scheme the colour grows with the value: a value at or
    below the minimum of the scheme gets the first colour, the last
    colour is for the values at or above the maximum and for no other,
    and a greater value never gets an earlier colour. *)
Theorem get_color_scale (param : string) (v1 v2 : Q) :
  get_color (Some v1) param
  = nth_error (colors (scheme_of param)) (Z.to_nat (color_index (scheme_of param) v1))
  /\ (v1 <= vmin (scheme_of param) -> color_index (scheme_of param) v1 = 0%Z)
  /\ (vmax (scheme_of param) <= v1 ->
      color_index (scheme_of param) v1 = top (scheme_of param))
  /\ (v1 < vmax (scheme_of param) ->
      (color_index (scheme_of param) v1 < top (scheme_of param))%Z)
  /\ (v1 <= v2 ->
      (color_index (scheme_of param) v1 <= color_index (scheme_of param) v2)%Z).
Proof.
split; [|apply graded_scale; apply scheme_of_graded].
pose proof (@color_index_range (scheme_of param) v1 (scheme_of_colors param)) as Hr.
destruct (@getindex_in_range (colors (scheme_of param)) _ Hr) as (c & Hc & Hn & _).
unfold get_color. rewrite Hc, Hn. reflexivity.
Qed.

(** Maximum temperatures of 10, 39.9 and 45 degrees: the first colour,
    the last but one, the last. *)
Lemma get_color_scale_witness :
  color_index (scheme_of "tmax") 10 = 0%Z
  /\ (color_index (scheme_of "tmax") 39.9 < 8)%Z
  /\ color_index (scheme_of "tmax") 45 = 8%Z
  /\ (color_index (scheme_of "tmax") 10 <= color_index (scheme_of "tmax") 45)%Z.
Proof.
destruct (get_color_scale "tmax" 10 45) as (_ & Hlow & _ & _ & Hmono).
destruct (get_color_scale "tmax" 39.9 45) as (_ & _ & _ & Hbelow & _).
destruct (get_color_scale "tmax" 45 45) as (_ & _ & Hhigh & _ & _).
split; [apply Hlow; discriminate|].
split; [apply Hbelow; reflexivity|].
split; [apply Hhigh; discriminate|].
apply Hmono; discriminate.
Defined.

End MakeMapProps.

(** ** The grid script *)

Module CreateGridProps.

Import Exchange Store CreateGrid Terms Et0Props.

Lemma insert_cell_eq (tbl : list grid_row) (c : cell) :
  insert_cell tbl c = if has_grid (geoh c) tbl then tbl else tbl ++ [cell_row c].
Proof. reflexivity. Qed.

Lemma has_grid_app (g : string) (t1 t2 : list grid_row) :
  has_grid g (t1 ++ t2) = has_grid g t1 || has_grid g t2.
Proof. unfold has_grid. apply existsb_app. Qed.

Lemma grid_row_by_key (tbl : list grid_row) (r1 r2 : grid_row) :
  grid_unique tbl -> In r1 tbl -> In r2 tbl -> g_geohash r1 = g_geohash r2 -> r1 = r2.
Proof.
unfold grid_unique. induction tbl as [|r0 tbl IH]; cbn [map In]; [intros _ []|].
intros Hnd H1 H2 E. inversion Hnd as [|k l Hnotin Hnd' [Ek El]]. clear Ek El k l.
destruct H1 as [H1|H1], H2 as [H2|H2].
- rewrite <- H1, <- H2. reflexivity.
- exfalso. apply Hnotin. rewrite H1, E. apply in_map. exact H2.
- exfalso. apply Hnotin. rewrite H2, <- E. apply in_map. exact H1.
- apply IH; assumption.
Qed.

Lemma insert_cells_spec : forall (cs : list cell) (tbl : list grid_row),
  grid_unique tbl ->
  grid_unique (fold_left insert_cell cs tbl)
  /\ (exists added,
        fold_left insert_cell cs tbl = tbl ++ added
        /\ (List.length added <= List.length cs)%nat
        /\ forall r, In r added ->
                     has_grid (g_geohash r) tbl = false
                     /\ exists c, In c cs /\ r = cell_row c)
  /\ (forall c, In c cs -> has_grid (geoh c) (fold_left insert_cell cs tbl) = true)
  /\ (forall g c, has_grid g tbl = false -> first_cell g cs = Some c ->
                  In (cell_row c) (fold_left insert_cell cs tbl)).
Proof.
induction cs as [|c0 cs IH]; intros tbl Hu; cbn [fold_left].
- split; [exact Hu|]. split.
  + exists []. rewrite app_nil_r. split; [reflexivity|]. split; [apply Nat.le_refl|].
    intros r [].
  + split; [intros c []|]. intros g c _ H. discriminate H.
- assert (Hu1 : grid_unique (insert_cell tbl c0)).
  { rewrite insert_cell_eq. destruct (has_grid (geoh c0) tbl) eqn:E; [exact Hu|].
    apply (@keyed_NoDup_snoc _ _ g_geohash String.eqb String.eqb_eq); assumption. }
  destruct (IH _ Hu1) as (Hu' & (added & Eadd & Hlen & Hadd) & Hall & Hfirst).
  assert (Hpre : exists one, insert_cell tbl c0 = tbl ++ one
                 /\ (List.length one <= 1)%nat
                 /\ (forall r, In r one -> r = cell_row c0 /\ has_grid (geoh c0) tbl = false)
                 /\ has_grid (geoh c0) (tbl ++ one) = true).
  { rewrite insert_cell_eq. destruct (has_grid (geoh c0) tbl) eqn:E.
    - exists []. rewrite app_nil_r. split; [reflexivity|]. split; [cbn; lia|].
      split; [intros r []|exact E].
    - exists [cell_row c0]. split; [reflexivity|]. split; [cbn; lia|]. split.
      + intros r [<-|[]]. split; reflexivity.
      + rewrite has_grid_app. cbn. rewrite String.eqb_refl. apply orb_true_r. }
  destruct Hpre as (one & Eone & Hone & Hrow & Hhas).
  split; [exact Hu'|]. split; [|split].
  + exists (one ++ added). rewrite Eadd, Eone, <- app_assoc.
    split; [reflexivity|]. split; [rewrite length_app; cbn [List.length]; lia|].
    intros r Hr. apply in_app_or in Hr. destruct Hr as [Hr|Hr].
    * destruct (Hrow r Hr) as [-> Hno]. split; [exact Hno|].
      exists c0. split; [left; reflexivity|reflexivity].
    * destruct (Hadd r Hr) as [Hno (c & Hc & ->)]. split.
      -- rewrite Eone, has_grid_app in Hno. apply orb_false_iff in Hno. apply Hno.
      -- exists c. split; [right; exact Hc|reflexivity].
  + intros c [<-|Hc]; [|apply Hall; exact Hc].
    rewrite Eadd, Eone, has_grid_app, Hhas. reflexivity.
  + intros g c Hg Hf. unfold first_cell in Hf. cbn [find] in Hf.
    destruct (String.eqb (geoh c0) g) eqn:E.
    * injection Hf as <-. apply String.eqb_eq in E. subst g.
      rewrite Eadd. apply in_or_app. left.
      rewrite insert_cell_eq, Hg. apply in_or_app. right. left. reflexivity.
    * apply (Hfirst g c); [|exact Hf].
      rewrite insert_cell_eq. destruct (has_grid (geoh c0) tbl); [exact Hg|].
      rewrite has_grid_app, Hg. cbn. rewrite E. reflexivity.
Qed.

Lemma of_nat_succ (n : nat) : inject_Z (Z.of_nat (S n)) == inject_Z (Z.of_nat n) + 1.
Proof. rewrite Nat2Z.inj_succ. unfold Z.succ. rewrite inject_Z_plus. reflexivity. Qed.

Section Loop.

Variable next : Q -> Q.
Variable least : Q.
Hypothesis least_pos : 0 < least.
Hypothesis next_advances : forall x, x + least <= next x.

Lemma turns_bounds : forall (n : nat) (x hi y : Q),
  In y (turns next n x hi) -> x <= y /\ y < hi.
Proof.
induction n as [|n IH]; intros x hi y; cbn [turns]; [intros []|].
destruct (Qltb x hi) eqn:E; [|intros []]. apply Qltb_lt in E.
intros [Hy|Hy].
- subst y. split; [apply Qle_refl|exact E].
- apply IH in Hy. destruct Hy as [Hy1 Hy2]. split; [|exact Hy2].
  pose proof (next_advances x) as Hx. lra.
Qed.

Lemma turns_length : forall (n : nat) (x hi : Q),
  (List.length (turns next n x hi) <= n)%nat.
Proof.
induction n as [|n IH]; intros x hi; cbn [turns]; [apply Nat.le_refl|].
destruct (Qltb x hi); cbn [List.length]; [|lia].
specialize (IH (next x) hi). lia.
Qed.

Lemma next_fuel (n : nat) (x hi : Q) :
  hi - x <= inject_Z (Z.of_nat (S n)) * least ->
  hi - next x <= inject_Z (Z.of_nat n) * least.
Proof.
intros H. rewrite of_nat_succ in H.
setoid_replace ((inject_Z (Z.of_nat n) + 1) * least)
  with (inject_Z (Z.of_nat n) * least + least) in H by ring.
pose proof (next_advances x) as Hx.
set (m := inject_Z (Z.of_nat n) * least) in *. lra.
Qed.

Lemma no_span (x hi : Q) : hi - x <= inject_Z (Z.of_nat 0) * least -> hi <= x.
Proof.
cbn [Z.of_nat]. intros H. rewrite Qmult_0_l in H. lra.
Qed.

(** With the turns that the distance asks for, the condition of the
    loop is false at the end: more turns visit nothing more. *)
Lemma turns_enough : forall (n k : nat) (x hi : Q),
  hi - x <= inject_Z (Z.of_nat n) * least ->
  turns next (n + k) x hi = turns next n x hi.
Proof.
induction n as [|n IH]; intros k x hi H.
- cbn [Nat.add turns]. apply no_span in H. apply Qltb_ge in H.
  destruct k; cbn [turns]; [reflexivity|]. rewrite H. reflexivity.
- cbn [Nat.add turns]. destruct (Qltb x hi); [|reflexivity].
  f_equal. apply IH. apply next_fuel. exact H.
Qed.

Lemma enough_fuel (lo hi : Q) :
  hi - lo <= inject_Z (Z.of_nat (enough least lo hi)) * least.
Proof.
unfold enough. set (q := (hi - lo) / least).
assert (Hq : q <= inject_Z (Z.of_nat (Z.to_nat (Qceiling q)))).
{ apply Qle_trans with (inject_Z (Qceiling q)); [apply Qle_ceiling|].
  rewrite <- Zle_Qle. lia. }
setoid_replace (hi - lo) with (q * least)
  by (unfold q; field; intros E; rewrite E in least_pos; discriminate least_pos).
apply Qmult_le_compat_r; [exact Hq|apply Qlt_le_weak; exact least_pos].
Qed.

Lemma turns_cover : forall (n : nat) (x hi y : Q),
  hi - x <= inject_Z (Z.of_nat n) * least -> x <= y -> y < hi ->
  exists c, In c (turns next n x hi) /\ c <= y /\ y < next c.
Proof.
induction n as [|n IH]; intros x hi y H Hx Hy.
- apply no_span in H. lra.
- cbn [turns]. assert (E : Qltb x hi = true) by (apply Qltb_lt; lra).
  rewrite E. destruct (Qlt_le_dec y (next x)) as [Hin|Hout].
  + exists x. split; [left; reflexivity|]. split; assumption.
  + destruct (IH (next x) hi y (next_fuel H) Hout Hy) as (c & Hc & Hc1 & Hc2).
    exists c. split; [right; exact Hc|]. split; assumption.
Qed.

(** X26: when every addition of the cell size advances the loop
    variable by [least] or more, each of the two loops of the grid
    script ends within the ceiling of (hi - lo) / least turns (more
    turns visit nothing more), visits no value outside [lo, hi), and
    visits nothing at all exactly when the upper bound is not above
    the lower one. *)
Theorem axis_ends (lo hi : Q) :
  (forall k, turns next (enough least lo hi + k) lo hi = axis next least lo hi)
  /\ (List.length (axis next least lo hi) <= enough least lo hi)%nat
  /\ (forall x, In x (axis next least lo hi) -> lo <= x /\ x < hi)
  /\ (axis next least lo hi = [] <-> hi <= lo).
Proof.
split; [intros k; apply turns_enough; apply enough_fuel|].
split; [apply turns_length|].
split; [intros x; apply turns_bounds|]. split.
- intros E. destruct (Qlt_le_dec lo hi) as [Hlt|Hle]; [|exact Hle].
  destruct (@turns_cover (enough least lo hi) lo hi lo (enough_fuel lo hi)
              (Qle_refl lo) Hlt) as (c & Hc & _).
  unfold axis in E. rewrite E in Hc. destruct Hc.
- intros Hle. unfold axis. destruct (enough least lo hi); [reflexivity|]. cbn [turns].
  apply Qltb_ge in Hle. rewrite Hle. reflexivity.
Qed.

Section Grid.

Variable encode : Q -> Q -> nat -> string.

Lemma cells_In (min_lat max_lat min_lon max_lon : Q) (c : cell) :
  In c (cells next least encode min_lat max_lat min_lon max_lon)
  <-> exists lat lon, In lat (axis next least min_lat max_lat)
                      /\ In lon (axis next least min_lon max_lon)
                      /\ c = cell_at next encode lat lon.
Proof.
unfold cells. rewrite in_flat_map. split.
- intros (lat & Hlat & Hc). apply in_map_iff in Hc. destruct Hc as (lon & <- & Hlon).
  exists lat, lon. repeat split; assumption.
- intros (lat & lon & Hlat & Hlon & ->). exists lat. split; [exact Hlat|].
  apply in_map. exact Hlon.
Qed.

(** X27: the cells tile the bounding box: every cell has its lower left
    corner in the box, and every point of the box lies in the square of
    a cell that the loops visit. *)
Theorem cells_cover_box (min_lat max_lat min_lon max_lon lat lon : Q) :
  min_lat <= lat -> lat < max_lat -> min_lon <= lon -> lon < max_lon ->
  (forall c, In c (cells next least encode min_lat max_lat min_lon max_lon) ->
     exists y x, c = cell_at next encode y x
                 /\ min_lat <= y /\ y < max_lat /\ min_lon <= x /\ x < max_lon)
  /\ exists y x,
       In (cell_at next encode y x)
          (cells next least encode min_lat max_lat min_lon max_lon)
       /\ poly (cell_at next encode y x) = box x y (next x) (next y)
       /\ y <= lat /\ lat < next y /\ x <= lon /\ lon < next x.
Proof.
intros Hlat1 Hlat2 Hlon1 Hlon2. split.
- intros c Hc. apply cells_In in Hc. destruct Hc as (y & x & Hy & Hx & ->).
  apply turns_bounds in Hy. apply turns_bounds in Hx.
  exists y, x. split; [reflexivity|]. tauto.
- destruct (@turns_cover _ min_lat max_lat lat (enough_fuel min_lat max_lat) Hlat1 Hlat2)
    as (y & Hy & Hy1 & Hy2).
  destruct (@turns_cover _ min_lon max_lon lon (enough_fuel min_lon max_lon) Hlon1 Hlon2)
    as (x & Hx & Hx1 & Hx2).
  exists y, x. split.
  + apply cells_In. exists y, x. split; [exact Hy|]. split; [exact Hx|reflexivity].
  + split; [reflexivity|]. tauto.
Qed.

End Grid.

End Loop.

Section Table.

Variable next : Q -> Q.
Variable least : Q.
Variable encode : Q -> Q -> nat -> string.

(** X28: the grid script keeps one row per geohash: it leaves the rows
    that were in the table as they are, adds at most one row per cell
    visited, and of the cells that share a geohash new to the table it
    stores the first one, while the GeoJSON file gets a feature for
    every cell. *)
Theorem create_grid_first_cell_wins (min_lat max_lat min_lon max_lon : Q)
        (conn : list grid_row) :
  grid_unique conn ->
  grid_unique (fst (create_grid next least encode min_lat max_lat min_lon max_lon conn))
  /\ List.length
       (snd (create_grid next least encode min_lat max_lat min_lon max_lon conn))
     = List.length (cells next least encode min_lat max_lat min_lon max_lon)
  /\ (exists added,
        fst (create_grid next least encode min_lat max_lat min_lon max_lon conn)
        = conn ++ added
        /\ (List.length added
            <= List.length
                 (snd (create_grid next least encode min_lat max_lat min_lon max_lon
                                   conn)))%nat
        /\ forall r, In r added ->
              has_grid (g_geohash r) conn = false
              /\ exists c,
                   In c (cells next least encode min_lat max_lat min_lon max_lon)
                   /\ r = cell_row c)
  /\ (forall c, In c (cells next least encode min_lat max_lat min_lon max_lon) ->
        has_grid (geoh c)
                 (fst (create_grid next least encode min_lat max_lat min_lon max_lon
                                   conn))
        = true)
  /\ (forall g c, has_grid g conn = false ->
        first_cell g (cells next least encode min_lat max_lat min_lon max_lon) = Some c ->
        forall r,
          In r (fst (create_grid next least encode min_lat max_lat min_lon max_lon conn)) ->
          g_geohash r = g -> r = cell_row c).
Proof.
intros Hu. unfold create_grid. cbn [fst snd]. rewrite length_map.
destruct (insert_cells_spec (cells next least encode min_lat max_lat min_lon max_lon) Hu)
  as (Hu' & Hadd & Hall & Hfirst).
split; [exact Hu'|]. split; [reflexivity|]. split; [exact Hadd|]. split; [exact Hall|].
intros g c Hg Hf r Hr Er.
specialize (Hfirst g c Hg Hf).
assert (Eg : g_geohash (cell_row c) = g).
{ unfold first_cell in Hf. apply find_some in Hf. destruct Hf as [_ Hf].
  apply String.eqb_eq in Hf. exact Hf. }
apply (@grid_row_by_key _ r (cell_row c) Hu' Hr Hfirst). rewrite Er, Eg. reflexivity.
Qed.

(** X29: what the grid script writes to the GeoJSON file the fetcher
    reads back cell by cell, none skipped, as the grid point named after
    the geohash, at the centre of the cell; and the polygon that the
    ingestion builds from the bbox of such a point is the square of the
    cell, as the grid script drew it. *)
Theorem grid_file_round_trip (min_lat max_lat min_lon max_lon : Q)
        (conn : list grid_row) :
  FetchGrid.load_grid_points
    (FetchGrid.Features
       (snd (create_grid next least encode min_lat max_lat min_lon max_lon conn)))
  = map grid_point_of (cells next least encode min_lat max_lat min_lon max_lon)
  /\ forall c, In c (cells next least encode min_lat max_lat min_lon max_lon) ->
       Ingest.polygon_of (Fetch.gp_bbox (grid_point_of c)) = Some (poly c).
Proof.
split.
- unfold create_grid. cbn [snd FetchGrid.load_grid_points].
  induction (cells next least encode min_lat max_lat min_lon max_lon) as [|c cs IH];
    [reflexivity|].
  cbn [map flat_map]. rewrite IH. reflexivity.
- intros c Hc. unfold cells in Hc. apply in_flat_map in Hc.
  destruct Hc as (y & _ & Hc). apply in_map_iff in Hc. destruct Hc as (x & <- & _).
  cbn [grid_point_of Fetch.gp_bbox cell_at poly box Ingest.polygon_of List.length
       Nat.leb Ingest.close_ring last].
  unfold Ingest.coord_eqb. cbn [fst snd]. rewrite !Qeq_bool_refl. reflexivity.
Qed.

End Table.

Lemma exact_next_advances (x : Q) : x + GRID_SIZE <= exact_next x.
Proof. apply Qle_refl. Qed.

(** The bounding box of the two PPI points of the script, and a point
    between them, with exact sums. *)
Lemma cells_cover_box_witness :
  exists y x,
    In (cell_at exact_next encode_one y x)
       (cells exact_next GRID_SIZE encode_one 36.572811 36.604882 8.885523 8.996081)
    /\ y <= 36.59 /\ 36.59 < exact_next y /\ x <= 8.9 /\ 8.9 < exact_next x.
Proof.
assert (Hpos : 0 < GRID_SIZE) by reflexivity.
destruct (@cells_cover_box exact_next GRID_SIZE Hpos exact_next_advances encode_one
            36.572811 36.604882 8.885523 8.996081 36.59 8.9)
  as (_ & y & x & Hin & _ & H); try reflexivity; try discriminate.
exists y, x. split; [exact Hin|exact H].
Defined.

(** With an encoder that puts every point in one geohash, a box of two
    cells gives two features and one row. *)
Lemma create_grid_first_cell_wins_witness :
  List.length
    (snd (create_grid exact_next GRID_SIZE encode_one 36.5 36.501 8.9 8.902 [])) = 2%nat
  /\ forall r,
       In r (fst (create_grid exact_next GRID_SIZE encode_one 36.5 36.501 8.9 8.902 [])) ->
       g_geohash r = "sn5u2k1"%string ->
       r = cell_row (cell_at exact_next encode_one 36.5 8.9).
Proof.
assert (Hu : grid_unique []) by constructor.
destruct (@create_grid_first_cell_wins exact_next GRID_SIZE encode_one
            36.5 36.501 8.9 8.902 [] Hu)
  as (_ & Hlen & _ & _ & Hfirst).
split.
- rewrite Hlen. vm_compute. reflexivity.
- intros r Hr Er. apply (Hfirst "sn5u2k1"%string); [reflexivity| |exact Hr|exact Er].
  vm_compute. reflexivity.
Defined.

(** From 1 to 1.005 with exact sums: five turns. *)
Lemma axis_ends_witness :
  (List.length (axis exact_next GRID_SIZE 1 1.005) <= 5)%nat
  /\ forall x, In x (axis exact_next GRID_SIZE 1 1.005) -> 1 <= x /\ x < 1.005.
Proof.
assert (Hpos : 0 < GRID_SIZE) by reflexivity.
destruct (@axis_ends exact_next GRID_SIZE Hpos exact_next_advances 1 1.005)
  as (_ & Hlen & Hin & _).
split; [exact Hlen|exact Hin].
Defined.

End CreateGridProps.
